(** * gifts-bot: the listing scanner and the preference store

    A shallow embedding of the scanner's pure helpers (payload extraction,
    amount normalisation, MarkdownV2 escaping, the preference matcher), of
    its process-wide caches (the [seen] map, [nftModelCache],
    [recentSalesCache]) with explicit state passing, of the Telegram
    dispatcher, and of the backend's [normalizeFilters] and
    [PUT /api/filters] handler.

    Conventions.
    - A JavaScript number is an IEEE-754 binary64 value: [spec_float] at
      precision 53 and exponent bound 1024, with the Standard Library's
      executable comparison and division.
    - A JavaScript string is the [string] of its UTF-8 bytes; every
      character the code names (the MarkdownV2 punctuation, [ipfs://],
      address prefixes) is ASCII, one byte that occurs nowhere else. The
      built-ins whose Unicode behaviour the properties do not depend on
      ([toLowerCase], [trim], [Number], [String]) are the fields of the
      class [Builtins].
    - A JSON object lists its properties in enumeration order. A payload
      comes from [JSON.parse] and the code reads none of the names a
      plain object inherits from it, so a property read on a payload
      finds own properties only. The backend's [filtersStore] is read
      and written under names the user chooses; its prototype is
      modelled ([Backend.FiltersStore]).
    - [undefined] results are [None]; a thrown exception is [Throw].
      [RangeError] is what a call throws when the engine's call stack
      has no room for it; the recursive searches take the room as an
      argument, and the scanner's environment gives it ([stackRoom]).
    - [Date.now()] readings are integers (milliseconds) in [Z]. *)

From Stdlib Require Import ZArith List String Ascii Bool Lia.
From Stdlib Require Import SpecFloat.
From stdpp Require Import gmap strings pretty.
Import ListNotations.

Local Open Scope string_scope.
Local Open Scope list_scope.
Local Open Scope Z_scope.

(** ** JavaScript numbers *)

Module JsNum.

Definition number := spec_float.

Definition prec : Z := 53.
Definition emax : Z := 1024.

Definition NaN : number := S754_nan.
Definition Infinity : number := S754_infinity false.
Definition zero : number := S754_zero false.

(** The double nearest to an integer literal. *)
Definition ofZ (z : Z) : number := binary_normalize prec emax z 0 false.

(** [Number.isFinite]. *)
Definition isFinite (x : number) : bool :=
  match x with
  | S754_zero _ | S754_finite _ _ _ => true
  | S754_infinity _ | S754_nan => false
  end.

Definition lt (x y : number) : bool := SFltb x y.
Definition gt (x y : number) : bool := SFltb y x.
Definition le (x y : number) : bool := SFleb x y.
Definition ge (x y : number) : bool := SFleb y x.
Definition div (x y : number) : number := SFdiv prec emax x y.

(** Truthiness of a number: [0], [-0] and [NaN] are falsy. *)
Definition truthy (x : number) : bool :=
  match x with
  | S754_zero _ | S754_nan => false
  | _ => true
  end.

(** [Math.max] of two arguments: [NaN] if either is, and [+0] above [-0]. *)
Definition max (x y : number) : number :=
  match x, y with
  | S754_nan, _ | _, S754_nan => S754_nan
  | S754_zero sx, S754_zero sy => S754_zero (sx && sy)
  | _, _ => if SFltb x y then y else x
  end.

End JsNum.

Abbreviation number := JsNum.number.

(** ** JSON-like values and the primitive operations on them *)

(** What [JSON.parse] produces, plus [undefined] for absent properties.
    The properties of an object are listed in enumeration order. *)
#[warnings="-register-all"]
Inductive value : Type :=
| VUndefined
| VNull
| VBool (b : bool)
| VNum (x : number)
| VStr (s : string)
| VArr (items : list value)
| VObj (props : list (string * value)).

Inductive exn : Type :=
| TypeError
| RangeError
| Error (msg : string).

(** The outcome of an expression that may throw. *)
Inductive result (A : Type) : Type :=
| Ok (a : A)
| Throw (e : exn).

Arguments Ok {A} a.
Arguments Throw {A} e.

(** The expression completes normally. *)
Definition returns {A : Type} (r : result A) : Prop := exists a, r = Ok a.

Definition bindR {A B : Type} (r : result A) (k : A -> result B) : result B :=
  match r with
  | Ok a => k a
  | Throw e => Throw e
  end.

Declare Scope js_scope.
Delimit Scope js_scope with js.
Notation "'let*' x ':=' c 'in' k" := (bindR c (fun x => k))
  (at level 10, x name, c at level 100, k at level 200) : js_scope.

(** The built-ins whose result the scanner only compares or stores. *)
Class Builtins : Type := {
  (** [String.prototype.toLowerCase] *)
  toLowerCase : string -> string;
  (** [Number(s)] on a string *)
  parseNumber : string -> number;
  (** [Number(v)] on a value that is not a number *)
  ToNumber : value -> number;
  (** [String(v)] *)
  ToString : value -> string;
  (** [String.prototype.trim] *)
  trim : string -> string
}.

(** What the properties use of the built-ins: trimming a trimmed string
    changes nothing, and only the empty string is empty in lower case. *)
Class BuiltinsLaws (B : Builtins) : Prop := {
  trim_idempotent : forall s, trim (trim s) = trim s;
  toLowerCase_empty : forall s, toLowerCase s = "" <-> s = ""
}.

Module Js.

(** [!!v] *)
Definition truthy (v : value) : bool :=
  match v with
  | VUndefined | VNull => false
  | VBool b => b
  | VNum x => JsNum.truthy x
  | VStr s => negb (String.eqb s "")
  | VArr _ | VObj _ => true
  end.

Inductive jstype : Type := TUndefined | TObject | TBoolean | TNumber | TString.

(** [typeof v]; [typeof null] is ['object']. *)
Definition typeof (v : value) : jstype :=
  match v with
  | VUndefined => TUndefined
  | VNull | VArr _ | VObj _ => TObject
  | VBool _ => TBoolean
  | VNum _ => TNumber
  | VStr _ => TString
  end.

Definition is_object (v : value) : bool :=
  match typeof v with TObject => true | _ => false end.

Definition is_string (v : value) : bool :=
  match v with VStr _ => true | _ => false end.

Definition isArray (v : value) : bool :=
  match v with VArr _ => true | _ => false end.

Fixpoint assoc (k : string) (props : list (string * value)) : option value :=
  match props with
  | [] => None
  | (k', v) :: rest => if String.eqb k' k then Some v else assoc k rest
  end.

(** The position an array-index property name denotes, if any. *)
Definition index_of_key (n : nat) (k : string) : option nat :=
  List.find (fun i => String.eqb (pretty i) k) (seq 0 n).

(** Own-property test of an object or array. *)
Definition has_own (v : value) (k : string) : bool :=
  match v with
  | VObj props => match assoc k props with Some _ => true | None => false end
  | VArr items =>
      String.eqb k "length" ||
      match index_of_key (length items) k with Some _ => true | None => false end
  | _ => false
  end.

(** Property read on a value that is neither [null] nor [undefined].
    Objects and arrays answer for their own properties; the scanner reads
    no property of a boolean, number or string other than by the literal
    names [address], [value], [type] and the like, which they lack. *)
Definition prop (v : value) (k : string) : value :=
  match v with
  | VObj props => match assoc k props with Some x => x | None => VUndefined end
  | VArr items =>
      if String.eqb k "length" then VNum (JsNum.ofZ (Z.of_nat (length items)))
      else match index_of_key (length items) k with
           | Some i => nth i items VUndefined
           | None => VUndefined
           end
  | _ => VUndefined
  end.

(** [v ?? d] *)
Definition nullish_or (v d : value) : value :=
  match v with
  | VUndefined | VNull => d
  | _ => v
  end.

(** [s.includes(sub)] *)
Fixpoint includes (s sub : string) : bool :=
  String.prefix sub s ||
  match s with
  | EmptyString => false
  | String _ rest => includes rest sub
  end.

(** [s.slice(n)] for [0 <= n] *)
Definition slice_from (n : nat) (s : string) : string :=
  String.substring n (String.length s - n) s.

(** [v[k]] / [v.k]: a [TypeError] on [null] and [undefined]. *)
Definition get (v : value) (k : string) : result value :=
  match v with
  | VUndefined | VNull => Throw TypeError
  | _ => Ok (prop v k)
  end.

(** [k in v]: a [TypeError] unless [v] is an object. *)
Definition has_in (k : string) (v : value) : result bool :=
  match v with
  | VObj _ | VArr _ => Ok (has_own v k)
  | _ => Throw TypeError
  end.

End Js.

(** ** Payload extractor *)

Module Extract.
Section WithBuiltins.
Context `{Builtins}.
Local Open Scope js_scope.

(** The literals [1_000_000] and [1e9]. *)
Definition scaleThreshold : number := JsNum.ofZ 1000000.
Definition nanoPerTon : number := JsNum.ofZ 1000000000.

(** [if (v > 1_000_000) return v / 1e9; return v;] *)
Definition rescale (v : number) : number :=
  if JsNum.gt v scaleThreshold then JsNum.div v nanoPerTon else v.

Definition toTonMaybe (v : number) : number :=
  if negb (JsNum.isFinite v) then v else rescale v.

(** The number and string branches of [toTon]. A number that is not finite
    fails every later test of [toTon] and yields [undefined]. *)
Definition toTonScalar (v : value) : option number :=
  match v with
  | VNum x => if JsNum.isFinite x then Some (rescale x) else None
  | VStr s =>
      let num := parseNumber s in
      if negb (JsNum.isFinite num) then None else Some (rescale num)
  | _ => None
  end.

(** [toTon]; its one recursive call is on a string or a number. *)
Definition toTon (v : value) : result (option number) :=
  match v with
  | VNum _ | VStr _ => Ok (toTonScalar v)
  | _ =>
      if Js.truthy v && Js.is_object v then
        let* inner := Js.get v "value" in
        match inner with
        | VStr _ | VNum _ => Ok (toTonScalar inner)
        | _ => Ok None
        end
      else Ok None
  end.

(** [if (found)] on a [string | undefined]. *)
Definition found_truthy (o : option string) : bool :=
  match o with
  | Some s => negb (String.eqb s "")
  | None => false
  end.

(** *** The call stack

    The four searches below call themselves once per level of nesting and
    have no guard of their own. A call for which the engine's stack has
    no room throws [RangeError]. [stack] is the number of nested
    activations of the search the stack has room for when it is called;
    what an activation itself calls ([toTon], [extractAddressFromNode],
    [Object.values]) is taken to fit in the room of that activation. *)

(** The nested activations a search that visits all of [node] makes. *)
Fixpoint frames (node : value) : nat :=
  match node with
  | VArr items => S (fold_right (fun v n => Nat.max (frames v) n) O items)
  | VObj props => S (fold_right (fun kv n => Nat.max (frames (snd kv)) n) O props)
  | _ => 1%nat
  end.

(** [findAllStringsByKey] pushes onto [out] in place; the model returns
    the extended list. What had been pushed when a call throws is lost
    with it: nothing calls the function but itself, and nothing catches
    its error. *)
Fixpoint findAllStringsByKey (stack : nat) (node : value) (key : string)
  (out : list string) {struct node} : result (list string) :=
  match stack with
  | O => Throw RangeError
  | S room =>
  if negb (Js.truthy node) then Ok out else
  match node with
  | VArr items =>
      (fix each (l : list value) (out : list string) : result (list string) :=
         match l with
         | [] => Ok out
         | v :: rest =>
             let* out' := findAllStringsByKey room v key out in each rest out'
         end) items out
  | _ =>
      if negb (Js.is_object node) then Ok out else
      match node with
      | VObj props =>
          (fix each (l : list (string * value)) (out : list string)
             : result (list string) :=
             match l with
             | [] => Ok out
             | (k, v) :: rest =>
                 let out1 :=
                   match v with
                   | VStr s => if String.eqb k key then out ++ [s] else out
                   | _ => out
                   end in
                 let* out2 := findAllStringsByKey room v key out1 in each rest out2
             end) props out
      | _ => Throw TypeError (* [Object.entries(null)] *)
      end
  end
  end.

(** [for (const key of keys) if (typeof obj[key] === 'string') return obj[key];] *)
Fixpoint stringAtKeys (obj : value) (keys : list string) : result (option string) :=
  match keys with
  | [] => Ok None
  | key :: rest =>
      let* v := Js.get obj key in
      match v with
      | VStr s => Ok (Some s)
      | _ => stringAtKeys obj rest
      end
  end.

Fixpoint findFirstStringByKeys (stack : nat) (node : value) (keys : list string)
  {struct node} : result (option string) :=
  match stack with
  | O => Throw RangeError
  | S room =>
  if negb (Js.truthy node) then Ok None else
  match node with
  | VArr items =>
      (fix each (l : list value) : result (option string) :=
         match l with
         | [] => Ok None
         | v :: rest =>
             let* found := findFirstStringByKeys room v keys in
             if found_truthy found then Ok found else each rest
         end) items
  | _ =>
      if negb (Js.is_object node) then Ok None else
      let* direct := stringAtKeys node keys in
      match direct with
      | Some s => Ok (Some s)
      | None =>
          match node with
          | VObj props =>
              (fix each (l : list (string * value)) : result (option string) :=
                 match l with
                 | [] => Ok None
                 | (_, v) :: rest =>
                     let* found := findFirstStringByKeys room v keys in
                     if found_truthy found then Ok found else each rest
                 end) props
          | _ => Throw TypeError (* [Object.values(null)] *)
          end
      end
  end
  end.

(** [for (const key of keys) if (key in obj) { const t = toTon(obj[key]); ... }] *)
Fixpoint numberAtKeys (obj : value) (keys : list string) : result (option number) :=
  match keys with
  | [] => Ok None
  | key :: rest =>
      let* present := Js.has_in key obj in
      if present then
        let* v := Js.get obj key in
        let* t := toTon v in
        match t with
        | Some _ => Ok t
        | None => numberAtKeys obj rest
        end
      else numberAtKeys obj rest
  end.

Fixpoint findFirstNumberLike (stack : nat) (node : value) (keys : list string)
  {struct node} : result (option number) :=
  match stack with
  | O => Throw RangeError
  | S room =>
  if negb (Js.truthy node) then Ok None else
  match node with
  | VArr items =>
      (fix each (l : list value) : result (option number) :=
         match l with
         | [] => Ok None
         | v :: rest =>
             let* found := findFirstNumberLike room v keys in
             match found with
             | Some _ => Ok found
             | None => each rest
             end
         end) items
  | _ =>
      if negb (Js.is_object node) then Ok None else
      let* direct := numberAtKeys node keys in
      match direct with
      | Some t => Ok (Some t)
      | None =>
          match node with
          | VObj props =>
              (fix each (l : list (string * value)) : result (option number) :=
                 match l with
                 | [] => Ok None
                 | (_, v) :: rest =>
                     let* found := findFirstNumberLike room v keys in
                     match found with
                     | Some _ => Ok found
                     | None => each rest
                     end
                 end) props
          | _ => Throw TypeError
          end
      end
  end
  end.

Definition isTonAddress (v : value) : bool :=
  match v with
  | VStr s =>
      String.prefix "0:" s || String.prefix "-1:" s ||
      String.prefix "EQ" s || String.prefix "UQ" s || String.prefix "kQ" s
  | _ => false
  end.

Definition as_address (v : value) : option string :=
  match v with
  | VStr s => if isTonAddress v then Some s else None
  | _ => None
  end.

Definition extractAddressFromNode (node : value) : result (option string) :=
  if negb (Js.truthy node) then Ok None else
  match node with
  | VStr _ => Ok (as_address node)
  | _ =>
      if negb (Js.is_object node) then Ok None else
      let* a := Js.get node "address" in
      if isTonAddress a then Ok (as_address a) else
      let* b := Js.get node "account_id" in
      if isTonAddress b then Ok (as_address b) else
      let* c := Js.get node "owner" in
      if isTonAddress c then Ok (as_address c) else
      Ok None
  end.

Fixpoint addressAtKeys (obj : value) (keys : list string) : result (option string) :=
  match keys with
  | [] => Ok None
  | key :: rest =>
      let* present := Js.has_in key obj in
      if present then
        let* v := Js.get obj key in
        let* addr := extractAddressFromNode v in
        if found_truthy addr then Ok addr else addressAtKeys obj rest
      else addressAtKeys obj rest
  end.

Fixpoint findFirstAddressByKeys (stack : nat) (node : value) (keys : list string)
  {struct node} : result (option string) :=
  match stack with
  | O => Throw RangeError
  | S room =>
  if negb (Js.truthy node) then Ok None else
  match node with
  | VArr items =>
      (fix each (l : list value) : result (option string) :=
         match l with
         | [] => Ok None
         | v :: rest =>
             let* found := findFirstAddressByKeys room v keys in
             if found_truthy found then Ok found else each rest
         end) items
  | _ =>
      if negb (Js.is_object node) then Ok None else
      let* direct := addressAtKeys node keys in
      match direct with
      | Some a => Ok (Some a)
      | None =>
          match node with
          | VObj props =>
              (fix each (l : list (string * value)) : result (option string) :=
                 match l with
                 | [] => Ok None
                 | (_, v) :: rest =>
                     let* found := findFirstAddressByKeys room v keys in
                     if found_truthy found then Ok found else each rest
                 end) props
          | _ => Throw TypeError
          end
      end
  end
  end.

(** [getActionType]; its callers pass a truthy object. *)
Definition getActionType (action : value) : result (option string) :=
  let* a := Js.get action "type" in
  match a with
  | VStr s => Ok (Some s)
  | _ =>
      let* b := Js.get action "action_type" in
      match b with
      | VStr s => Ok (Some s)
      | _ =>
          let* c := Js.get action "kind" in
          match c with
          | VStr s => Ok (Some s)
          | _ => Ok None
          end
      end
  end.


(** What a search can throw: nothing but the [RangeError] of a stack with
    no room left. *)
Definition only_RangeError {A : Type} (r : result A) : Prop :=
  match r with
  | Ok _ => True
  | Throw e => e = RangeError
  end.

(** A search that found nothing, or ran out of stack. *)
Definition nothing_or_overflow {A : Type} (r : result (option A)) : Prop :=
  r = Ok None \/ r = Throw RangeError.

(** [n] arrays, one inside the other. *)
Fixpoint nest (n : nat) : value :=
  match n with
  | O => VArr []
  | S m => VArr [nest m]
  end.

End WithBuiltins.
End Extract.

(** ** MarkdownV2 escaping *)

Module Markdown.

(** The character class of [escapeMarkdownV2]'s regular expression:
    [_ - * [ ] ( ) ~ ` > # + = | { } . ! \]. *)
Definition reserved (c : ascii) : bool :=
  existsb (Ascii.eqb c)
    ["_"; "-"; "*"; "["; "]"; "("; ")"; "~"; "`"; ">"; "#"; "+"; "=";
     "|"; "{"; "}"; "."; "!"; "\"]%char.

Definition backslash : ascii := "\"%char.

(** [s.replaceAll(/([...])/g, '\\$1')]: every match is one reserved
    character and is replaced by a backslash followed by itself. *)
Fixpoint escapeMarkdownV2 (s : string) : string :=
  match s with
  | EmptyString => EmptyString
  | String c rest =>
      if reserved c
      then String backslash (String c (escapeMarkdownV2 rest))
      else String c (escapeMarkdownV2 rest)
  end.

(** The class of [escapeMarkdownV2Url]: [)] and [\]. *)
Definition reservedUrl (c : ascii) : bool :=
  existsb (Ascii.eqb c) [")"; "\"]%char.

Fixpoint escapeMarkdownV2Url (s : string) : string :=
  match s with
  | EmptyString => EmptyString
  | String c rest =>
      if reservedUrl c
      then String backslash (String c (escapeMarkdownV2Url rest))
      else String c (escapeMarkdownV2Url rest)
  end.

(** Stripping the escape character from every matched symbol: a backslash
    standing before a reserved character is removed and the character
    kept; everything else is copied. *)
Fixpoint strip (s : string) : string :=
  match s with
  | EmptyString => EmptyString
  | String c rest =>
      if Ascii.eqb c backslash then
        match rest with
        | String d rest' =>
            if reserved d then String d (strip rest') else String c (strip rest)
        | EmptyString => String c EmptyString
        end
      else String c (strip rest)
  end.

(** Number of reserved characters of a string. *)
Fixpoint count_reserved (s : string) : nat :=
  match s with
  | EmptyString => O
  | String c rest => ((if reserved c then 1 else 0) + count_reserved rest)%nat
  end.

(** [escaped_form s t]: [t] is [s] with exactly one backslash put before
    each reserved character and nothing else changed. *)
Inductive escaped_form : string -> string -> Prop :=
| ef_nil : escaped_form EmptyString EmptyString
| ef_reserved c s t :
    reserved c = true -> escaped_form s t ->
    escaped_form (String c s) (String backslash (String c t))
| ef_plain c s t :
    reserved c = false -> escaped_form s t ->
    escaped_form (String c s) (String c t).

End Markdown.

(** ** Listings and the preference matcher *)

Record Listing : Type := {
  nftAddress : string;
  priceTon : option number;
  marketAccount : option string;
  marketLabel : string;
  model : option string;
  background : option string;
  number' : option string;
  collectionAddress : option string;
  imageUrl : option string
}.

Inductive Tab : Type := listing | sale | rent.

Record Filters : Type := {
  tab : Tab;
  minTon : number;
  maxTon : number;
  models : list string
}.

Module Matcher.
Section WithBuiltins.
Context `{Builtins}.

Definition is_listing (t : Tab) : bool :=
  match t with listing => true | _ => false end.

(** [new Set(xs).has(x)] on strings. *)
Definition set_has (xs : list string) (x : string) : bool :=
  existsb (String.eqb x) xs.

Definition matchesFilters (l : Listing) (filters : option Filters) : bool :=
  match filters with
  | None => true
  | Some f =>
      if negb (is_listing (tab f)) then false else
      match priceTon l with
      | None => false
      | Some price =>
          if negb (JsNum.isFinite price) then false else
          if JsNum.isFinite (minTon f) && JsNum.lt price (minTon f) then false else
          if JsNum.isFinite (maxTon f) && JsNum.gt price (maxTon f) then false else
          if (0 <? length (models f))%nat then
            match model l with
            | None => false
            | Some m =>
                if String.eqb m "" then false else
                let set := map toLowerCase (models f) in
                if negb (set_has set (toLowerCase m)) then false else true
            end
          else true
      end
  end.

(** The matcher as the specification words it: mode, closed price range,
    and case-insensitive membership in the model set. *)
Definition matches_as_stated (l : Listing) (f : Filters) : bool :=
  is_listing (tab f) &&
  match priceTon l with
  | None => false
  | Some p =>
      JsNum.isFinite p && JsNum.le (minTon f) p && JsNum.le p (maxTon f)
  end &&
  (match models f with [] => true | _ => false end ||
   match model l with
   | None => false
   | Some m => set_has (map toLowerCase (models f)) (toLowerCase m)
   end).

(** The model test of [matchesFilters]. *)
Definition model_ok (l : Listing) (f : Filters) : Prop :=
  models f = [] \/
  exists m, model l = Some m /\ m <> "" /\
            In (toLowerCase m) (map toLowerCase (models f)).

End WithBuiltins.
End Matcher.

(** ** The dedup cache *)

Module Seen.

(** [Map<string, number>]: entries in insertion order, keys distinct. *)
Definition SeenMap : Type := list (string * Z).

Definition SEEN_TTL_MS : Z := 10 * 60 * 1000.
Definition SEEN_MAX : Z := 10000.

Definition keys (seen : SeenMap) : list string := map fst seen.

Definition wf (seen : SeenMap) : Prop := List.NoDup (keys seen).

Definition size (seen : SeenMap) : Z := Z.of_nat (length seen).

Fixpoint get (k : string) (seen : SeenMap) : option Z :=
  match seen with
  | [] => None
  | (k', ts) :: rest => if String.eqb k' k then Some ts else get k rest
  end.

Definition has (k : string) (seen : SeenMap) : bool :=
  match get k seen with Some _ => true | None => false end.

(** [seen.set(k, ts)]: a present key keeps its place, a new one goes last. *)
Fixpoint set (k : string) (ts : Z) (seen : SeenMap) : SeenMap :=
  match seen with
  | [] => [(k, ts)]
  | (k', ts') :: rest =>
      if String.eqb k' k then (k', ts) :: rest else (k', ts') :: set k ts rest
  end.

Definition delete (k : string) (seen : SeenMap) : SeenMap :=
  List.filter (fun e => negb (String.eqb (fst e) k)) seen.

Definition expired (now : Z) (ts : Z) : bool := now - ts >? SEEN_TTL_MS.

(** The first loop of [cleanupSeen]: [pending] is what the map iterator has
    not visited yet; deleting the visited entry does not disturb it. *)
Fixpoint sweepExpired (now : Z) (pending : list (string * Z)) (seen : SeenMap)
  : SeenMap :=
  match pending with
  | [] => seen
  | (k, ts) :: rest =>
      sweepExpired now rest (if expired now ts then delete k seen else seen)
  end.

(** The second loop: delete keys in iteration order, counting in [i], and
    leave once [i >= extra]. *)
Fixpoint evictOldest (pending : list string) (i extra : Z) (seen : SeenMap)
  : SeenMap :=
  match pending with
  | [] => seen
  | k :: rest =>
      let seen' := delete k seen in
      let i' := i + 1 in
      if i' >=? extra then seen' else evictOldest rest i' extra seen'
  end.

Definition cleanupSeen (now : Z) (seen : SeenMap) : SeenMap :=
  let seen1 := sweepExpired now seen seen in
  if size seen1 <=? SEEN_MAX then seen1 else
  let extra := size seen1 - SEEN_MAX in
  evictOldest (keys seen1) 0 extra seen1.

(** The synchronous head of [handleTrace], up to the first [await]:
    [true] when the handler goes on to fetch and process the event,
    [false] when it returns at [if (seen.has(p.hash)) return]. *)
Definition dedupGate (now : Z) (hash : string) (seen : SeenMap) : bool * SeenMap :=
  let seen1 := cleanupSeen now seen in
  if has hash seen1 then (false, seen1) else (true, set hash now seen1).

(** A sequence of trace deliveries, each with its [Date.now()] reading. *)
Fixpoint deliver (seen : SeenMap) (trace : list (Z * string)) : list bool * SeenMap :=
  match trace with
  | [] => ([], seen)
  | (now, hash) :: rest =>
      let '(b, seen1) := dedupGate now hash seen in
      let '(bs, seen2) := deliver seen1 rest in
      (b :: bs, seen2)
  end.

(** The entries a sweep at [now] does not age out. *)
Definition live (now : Z) (seen : SeenMap) : SeenMap :=
  List.filter (fun e => negb (expired now (snd e))) seen.

(** [hash] has aged out at [now]. *)
Definition aged_out (now : Z) (hash : string) (seen : SeenMap) : bool :=
  match get hash seen with
  | Some ts => expired now ts
  | None => false
  end.

Fixpoint position (hash : string) (seen : SeenMap) : nat :=
  match seen with
  | [] => O
  | (k, _) :: rest => if String.eqb k hash then O else S (position hash rest)
  end.

(** [hash] is among the oldest live entries that a sweep at [now] removes
    to get back to capacity. *)
Definition capacity_evicted (now : Z) (hash : string) (seen : SeenMap) : bool :=
  Z.of_nat (position hash (live now seen)) <? size (live now seen) - SEEN_MAX.

(** The window of a hash: over the deliveries of [trace], started in state
    [seen], no sweep ages the hash out or evicts it for capacity. *)
Fixpoint in_window (hash : string) (seen : SeenMap) (trace : list (Z * string)) : bool :=
  match trace with
  | [] => true
  | (now, k) :: rest =>
      negb (aged_out now hash seen) && negb (capacity_evicted now hash seen) &&
      in_window hash (snd (dedupGate now k seen)) rest
  end.

(** How many deliveries of [hash] went on to processing. *)
Fixpoint processed (hash : string) (trace : list (Z * string)) (flags : list bool) : nat :=
  match trace, flags with
  | (_, k) :: rest, b :: bs =>
      ((if String.eqb k hash && b then 1 else 0) + processed hash rest bs)%nat
  | _, _ => O
  end.

End Seen.

(** ** A concrete instance of the built-ins

    Used to run the definitions on examples: ASCII case folding and
    trimming, decimal numerals, and the conversions of the JSON scalars. *)

Module Sample.

Definition lower_char (c : ascii) : ascii :=
  let n := nat_of_ascii c in
  if ((65 <=? n) && (n <=? 90))%nat then ascii_of_nat (n + 32) else c.

Fixpoint lower (s : string) : string :=
  match s with
  | EmptyString => EmptyString
  | String c rest => String (lower_char c) (lower rest)
  end.

Definition digit (c : ascii) : option Z :=
  let n := nat_of_ascii c in
  if ((48 <=? n) && (n <=? 57))%nat then Some (Z.of_nat n - 48) else None.

Fixpoint numeral (s : string) (acc : Z) : option Z :=
  match s with
  | EmptyString => Some acc
  | String c rest =>
      match digit c with
      | Some d => numeral rest (10 * acc + d)
      | None => None
      end
  end.

Definition parse (s : string) : number :=
  match numeral s 0 with
  | Some z => JsNum.ofZ z
  | None => JsNum.NaN
  end.

Definition to_number (v : value) : number :=
  match v with
  | VUndefined => JsNum.NaN
  | VNull => JsNum.zero
  | VBool b => if b then JsNum.ofZ 1 else JsNum.zero
  | VNum x => x
  | VStr s => parse s
  | VArr [] => JsNum.zero
  | VArr _ | VObj _ => JsNum.NaN
  end.

Definition to_string (v : value) : string :=
  match v with
  | VUndefined => "undefined"
  | VNull => "null"
  | VBool b => if b then "true" else "false"
  | VNum _ => "NaN"
  | VStr s => s
  | VArr _ => ""
  | VObj _ => "[object Object]"
  end.

Definition is_space (c : ascii) : bool :=
  let n := nat_of_ascii c in
  ((9 <=? n) && (n <=? 13) || (n =? 32))%nat.

Fixpoint trimStart (s : string) : string :=
  match s with
  | EmptyString => EmptyString
  | String c rest => if is_space c then trimStart rest else s
  end.

Fixpoint trimEnd (s : string) : string :=
  match s with
  | EmptyString => EmptyString
  | String c rest =>
      match trimEnd rest with
      | EmptyString => if is_space c then EmptyString else String c EmptyString
      | r => String c r
      end
  end.

Definition trim_ascii (s : string) : string := trimEnd (trimStart s).

Definition builtins : Builtins := {|
  toLowerCase := lower;
  parseNumber := parse;
  ToNumber := to_number;
  ToString := to_string;
  trim := trim_ascii
|}.

(** The first character, if any, is not white space. *)
Definition head_kept (s : string) : Prop :=
  match s with
  | EmptyString => True
  | String c _ => is_space c = false
  end.

End Sample.

(** ** Applying the amount normalisation twice *)

Module Twice.
Section WithBuiltins.
Context `{Builtins}.

(** [toTon(toTon(v))], where [toTon(undefined)] is [undefined]. *)
Definition toTon_twice (v : value) : result (option number) :=
  match Extract.toTon v with
  | Ok (Some r) => Extract.toTon (VNum r)
  | other => other
  end.

End WithBuiltins.
End Twice.

(** ** The Telegram dispatcher *)

Module Telegram.

(** How a [fetch] ends: the promise rejects, or a response arrives whose
    [ok] flag is set or not. *)
Inductive fetchOutcome : Type :=
| NetworkError
| Response (ok : bool).

Inductive request : Type :=
| SendPhoto (photo caption : string)
| SendMessage (text : string).

Record AlertOpts : Type := {
  caption : string;
  photoUrl : option string;
  buyUrl : string;
  buyButtonText : string;
  openInTelegramUrl : string
}.

(** [await fetch(...)] followed by [if (!res.ok) throw new Error(...)]. *)
Definition post (o : fetchOutcome) (what : string) : result unit :=
  match o with
  | NetworkError => Throw (Error "fetch failed")
  | Response false => Throw (Error what)
  | Response true => Ok tt
  end.

Definition sendText (net : request -> fetchOutcome) (opts : AlertOpts)
  (sent : list request) : result unit * list request :=
  let req := SendMessage (caption opts) in
  (post (net req) "Telegram sendMessage failed", sent ++ [req]).

(** The result, and the requests made in order. The [catch] around the
    photo send swallows whatever was thrown there. *)
Definition sendTelegramAlert (net : request -> fetchOutcome) (opts : AlertOpts)
  : result unit * list request :=
  match photoUrl opts with
  | Some url =>
      if negb (String.eqb url "") then
        let req := SendPhoto url (caption opts) in
        match post (net req) "Telegram sendPhoto failed" with
        | Ok _ => (Ok tt, [req])
        | Throw _ => sendText net opts [req]
        end
      else sendText net opts []
  | None => sendText net opts []
  end.

Definition failed (o : fetchOutcome) : bool :=
  match o with
  | Response true => false
  | _ => true
  end.

Definition raises {A : Type} (r : result A) : Prop := exists e, r = Throw e.

End Telegram.

(** ** The preference store *)

Module Backend.
Section WithBuiltins.
Context `{Builtins}.

Definition normalizeTab (v : value) : Tab :=
  let s := toLowerCase (ToString (Js.nullish_or v (VStr ""))) in
  if String.eqb s "sale" then sale
  else if String.eqb s "rent" then rent
  else listing.

(** [typeof v === 'number' ? v : Number(v)] *)
Definition coerce (v : value) : number :=
  match v with
  | VNum x => x
  | _ => ToNumber v
  end.

Definition asNumber (v : value) (def : number) : number :=
  let n := coerce v in
  if JsNum.isFinite n then n else def.

Definition nonempty (s : string) : bool := negb (String.eqb s "").

(** [(input && typeof input === 'object') ? input : {}] *)
Definition object_or_empty (input : value) : value :=
  if Js.truthy input && Js.is_object input then input else VObj [].

Definition normalizeFilters (input : value) : Filters :=
  let obj := object_or_empty input in
  let tab := normalizeTab (Js.prop obj "tab") in
  let minTon := JsNum.max JsNum.zero (asNumber (Js.prop obj "minTon") JsNum.zero) in
  let maxTon := JsNum.max JsNum.zero (asNumber (Js.prop obj "maxTon") (JsNum.ofZ 5000)) in
  let modelsRaw :=
    match Js.prop obj "models" with
    | VArr items => items
    | _ => []
    end in
  let models :=
    firstn 500 (List.filter nonempty (map (fun m => trim (ToString m)) modelsRaw)) in
  {| tab := tab; minTon := minTon; maxTon := maxTon; models := models |}.

(** What the handler knows of a request once the headers are checked:
    the outcome of [verifyTelegramInitData], of [requireToken], and the
    parsed body. *)
Record PutRequest : Type := {
  verified_ok : bool;
  verified_userId : option string;
  tokenOk : bool;
  body : value
}.

Inductive reply : Type :=
| Unauthorized
| Stored (userKey : string) (filters : Filters).

Definition userKeyOf (req : PutRequest) (body : value) : string :=
  match verified_userId req with
  | Some u => if nonempty u then u else ToString (Js.nullish_or (Js.prop body "userKey") (VStr "default"))
  | None => ToString (Js.nullish_or (Js.prop body "userKey") (VStr "default"))
  end.

(** [filtersStore], a plain object used as a map from user keys to
    records. [own] holds its own properties. [proto] is its prototype
    once an assignment to [__proto__] has replaced it by a record; [None]
    stands for [Object.prototype], which every record also inherits
    from. *)
Record FiltersStore : Type := {
  own : gmap string Filters;
  proto : option Filters
}.

(** The store the backend starts from when no file is found. *)
Definition empty_store : FiltersStore := {| own := ∅; proto := None |}.

(** The function-valued properties of [Object.prototype]. *)
Definition prototype_methods : list string :=
  ["constructor"; "hasOwnProperty"; "isPrototypeOf"; "propertyIsEnumerable";
   "toLocaleString"; "toString"; "valueOf"; "__defineGetter__";
   "__defineSetter__"; "__lookupGetter__"; "__lookupSetter__"].

(** The properties of a record. *)
Definition record_fields : list string := ["tab"; "minTon"; "maxTon"; "models"].

Definition named (names : list string) (k : string) : bool :=
  existsb (String.eqb k) names.

(** [filtersStore[userKey] = next]. An own property is overwritten. The
    name [__proto__], when it is not an own property, reaches the setter
    inherited from [Object.prototype], which makes [next] the prototype
    of the store and adds no property. Any other name becomes an own
    property, also when a property of that name is inherited. *)
Definition assign (userKey : string) (next : Filters) (store : FiltersStore)
  : FiltersStore :=
  match own store !! userKey with
  | Some _ => {| own := <[userKey := next]> (own store); proto := proto store |}
  | None =>
      if String.eqb userKey "__proto__"
      then {| own := own store; proto := Some next |}
      else {| own := <[userKey := next]> (own store); proto := proto store |}
  end.

(** What [filtersStore[userKey]] evaluates to. *)
Inductive member : Type :=
| Record_ (f : Filters)
| ObjectPrototype
| Field (name : string) (holder : Filters)
| Method (name : string)
| Missing.

(** [filtersStore[userKey]]: an own property; else, for [__proto__], the
    prototype; else what the prototype chain has under that name. *)
Definition read (store : FiltersStore) (userKey : string) : member :=
  match own store !! userKey with
  | Some f => Record_ f
  | None =>
      if String.eqb userKey "__proto__" then
        match proto store with
        | Some p => Record_ p
        | None => ObjectPrototype
        end
      else
        match proto store with
        | Some p =>
            if named record_fields userKey then Field userKey p
            else if named prototype_methods userKey then Method userKey
            else Missing
        | None =>
            if named prototype_methods userKey then Method userKey else Missing
        end
  end.

(** [PUT /api/filters] on the in-memory [filtersStore]. *)
Definition putFilters (req : PutRequest) (filtersStore : FiltersStore)
  : reply * FiltersStore :=
  if negb (verified_ok req) && negb (tokenOk req) then (Unauthorized, filtersStore)
  else
    let body := object_or_empty (body req) in
    let userKey := userKeyOf req body in
    let next := normalizeFilters (Js.prop body "filters") in
    (Stored userKey next, assign userKey next filtersStore).

(** *** The stored record, as the claim words it *)

(** The text the tab is read from: [String(v ?? '')] in lower case. *)
Definition tab_text (v : value) : string :=
  toLowerCase (ToString (Js.nullish_or v (VStr ""))).

(** The tab is [sale] or [rent] when the text says so, and [listing]
    otherwise. *)
Definition tab_follows (input : value) (f : Filters) : Prop :=
  let text := tab_text (Js.prop (object_or_empty input) "tab") in
  (tab f = sale <-> text = "sale") /\
  (tab f = rent <-> text = "rent") /\
  (tab f = listing <-> text <> "sale" /\ text <> "rent").

(** [Number(v)] *)
Definition numeric_reading (v : value) : number :=
  match v with
  | VNum x => x
  | _ => ToNumber v
  end.

(** A bound as stored: the default when the reading is not a finite
    number, the reading when it is positive, and [0] when it is negative
    or a zero. *)
Definition bound_as_stated (v : value) (def : number) : number :=
  let n := numeric_reading v in
  if negb (JsNum.isFinite n) then def
  else if JsNum.gt n JsNum.zero then n
  else JsNum.zero.

(** The models submitted: the items of [models] when it is an array. *)
Definition submitted_models (input : value) : list value :=
  match Js.prop (object_or_empty input) "models" with
  | VArr items => items
  | _ => []
  end.

(** A normalized record: both bounds finite and at least [0], at most
    500 models, each non-empty and trimmed. *)
Definition normalized (f : Filters) : Prop :=
  JsNum.isFinite (minTon f) = true /\ JsNum.le JsNum.zero (minTon f) = true /\
  JsNum.isFinite (maxTon f) = true /\ JsNum.le JsNum.zero (maxTon f) = true /\
  (length (models f) <= 500)%nat /\
  List.Forall (fun s => s <> "" /\ trim s = s) (models f).

(** The models as stored: the trimmed texts of the submitted ones, the
    empty ones left out, and of these the first 500. *)
Definition models_as_stated (input : value) : list string :=
  firstn 500
    (List.filter (fun s => negb (String.eqb s ""))
       (map (fun m => trim (ToString m)) (submitted_models input))).

(** The record [f] is what the claim, amended, says is stored for the
    submitted [input]. *)
Definition stored_as_stated (input : value) (f : Filters) : Prop :=
  tab_follows input f /\
  minTon f = bound_as_stated (Js.prop (object_or_empty input) "minTon") JsNum.zero /\
  maxTon f
    = bound_as_stated (Js.prop (object_or_empty input) "maxTon") (JsNum.ofZ 5000) /\
  models f = models_as_stated input /\
  normalized f.

End WithBuiltins.
End Backend.

(** ** Enrichment: the model cache and the recent-sales cache *)

Module ModelEntry.
Record t : Type := { at' : Z; model : option string }.
End ModelEntry.

Module SalesEntry.
Record t : Type := { at' : Z; prices : list number }.
End SalesEntry.

Module Enrichment.

(** How a TonAPI request ends: the fetch rejects, or a response arrives
    with its [ok] flag and its body, [None] when the body is not JSON. *)
Inductive http : Type :=
| NetworkError
| Response (ok : bool) (json : option value).

(** [try { ...; if (!res.ok) return null; return await res.json(); }
     catch { return null; }] *)
Definition json_or_null (o : http) : value :=
  match o with
  | Response true (Some v) => v
  | _ => VNull
  end.

(** The process-wide state. [tick] counts the clock readings and requests
    made so far; the environment answers each by its number. *)
Record World : Type := {
  tick : nat;
  nftModelCache : gmap string ModelEntry.t;
  recentSalesCache : gmap string SalesEntry.t
}.

Class Env : Type := {
  (** the reading of [Date.now()] *)
  clock : nat -> Z;
  (** the answer to [GET /v2/nfts/<address>] *)
  nftItemResponse : nat -> string -> http;
  (** the answer to [GET /v2/accounts/<id>/events?limit=<n>] *)
  accountEventsResponse : nat -> string -> Z -> http;
  (** the room of the engine's call stack where the scanner starts a
      search: how many nested activations it can make before a call
      throws [RangeError] *)
  stackRoom : nat
}.

Class Config : Type := {
  WATCH_ACCOUNTS : list string;
  GIFTS_COLLECTION : string
}.

(** Computations on the world that may throw. *)
Definition M (A : Type) : Type := World -> result A * World.

Definition ret {A : Type} (a : A) : M A := fun w => (Ok a, w).

Definition bind {A B : Type} (c : M A) (k : A -> M B) : M B :=
  fun w =>
    match c w with
    | (Ok a, w') => k a w'
    | (Throw e, w') => (Throw e, w')
    end.

Definition lift {A : Type} (r : result A) : M A := fun w => (r, w).

Declare Scope m_scope.
Delimit Scope m_scope with m.
Notation "'let!' x ':=' c 'in' k" := (bind c (fun x => k))
  (at level 10, x name, c at level 100, k at level 200) : m_scope.

Definition advance (w : World) : World :=
  {| tick := S (tick w);
     nftModelCache := nftModelCache w;
     recentSalesCache := recentSalesCache w |}.

Definition NFT_MODEL_CACHE_TTL_MS : Z := 10 * 60 * 1000.
Definition RECENT_SALES_CACHE_TTL_MS : Z := 3 * 60 * 1000.
Definition RECENT_SALES_MAX : nat := 3.

Definition fresh (now at_ ttl : Z) : bool := now - at_ <? ttl.

Section WithEnvironment.
Context `{Builtins} `{Env} `{Config}.
Local Open Scope m_scope.

Definition Date_now : M Z := fun w => (Ok (clock (tick w)), advance w).

Definition tonapiGetNftItemByAddress (nftAddress : string) : M value :=
  fun w => (Ok (json_or_null (nftItemResponse (tick w) nftAddress)), advance w).

Definition tonapiGetAccountEvents (accountId : string) (limit : Z) : M value :=
  fun w => (Ok (json_or_null (accountEventsResponse (tick w) accountId limit)), advance w).

Definition normalizeImageUrl (url : string) : string :=
  let u := trim url in
  if String.eqb u "" then u else
  if String.prefix "ipfs://" (toLowerCase u) then
    let rest := Js.slice_from 7 u in
    let cid :=
      if String.eqb (toLowerCase (String.substring 0 5 rest)) "ipfs/"
      then Js.slice_from 5 rest else rest in
    "https://cloudflare-ipfs.com/ipfs/" ++ cid
  else u.

(** [Pick<Listing, 'model' | 'background' | 'number' | 'collectionAddress'
    | 'imageUrl'>] *)
Record Extracted : Type := {
  e_model : option string;
  e_background : option string;
  e_number : option string;
  e_collectionAddress : option string;
  e_imageUrl : option string
}.

Definition nothing : Extracted := {|
  e_model := None; e_background := None; e_number := None;
  e_collectionAddress := None; e_imageUrl := None
|}.

(** [!x] on a [string | undefined] *)
Definition unset (o : option string) : bool := negb (Extract.found_truthy o).

Definition not_object (v : value) : bool :=
  negb (Js.truthy v) || negb (Js.is_object v).

(** One turn of the loop over [metadata.attributes]. *)
Definition attribute (acc : option string * option string) (a : value)
  : option string * option string :=
  if not_object a then acc else
  let trait :=
    Js.nullish_or (Js.nullish_or (Js.prop a "trait_type") (Js.prop a "key"))
      (Js.prop a "type") in
  let value := Js.nullish_or (Js.prop a "value") (Js.prop a "val") in
  match trait with
  | VStr tr =>
      let t := toLowerCase tr in
      let model1 :=
        match value with
        | VStr v =>
            if unset (fst acc) && (String.eqb t "model" || Js.includes t "model")
            then Some v else fst acc
        | _ => fst acc
        end in
      let background1 :=
        match value with
        | VStr v =>
            if unset (snd acc) &&
               (String.eqb t "background" || Js.includes t "background")
            then Some v else snd acc
        | _ => snd acc
        end in
      (model1, background1)
  | _ => acc
  end.

Definition imageOf (candidate : option string) : option string :=
  match candidate with
  | Some s => if (0 <? String.length s)%nat then Some (normalizeImageUrl s) else None
  | None => None
  end.

Definition previewImage (obj : value) : option string :=
  match Js.prop obj "previews" with
  | VArr previews =>
      if (0 <? length previews)%nat then
        let last := nth (length previews - 1) previews VUndefined in
        if not_object last then None else
        match Js.prop last "url" with
        | VStr url => imageOf (Some url)
        | _ => None
        end
      else None
  | _ => None
  end.

(** [extractFromNftItem]. Every property read is on a value just tested
    truthy, so [Js.prop] stands for the read. *)
Definition extractFromNftItem (nft : value) : result Extracted :=
  if not_object nft then Ok nothing else
  let collection := Js.prop nft "collection" in
  let collectionAddress :=
    if Js.truthy collection then
      match Js.prop collection "address" with
      | VStr s => Some s
      | _ => None
      end
    else None in
  let number0 :=
    match Js.prop nft "index" with
    | VNum x => Some (ToString (VNum x))
    | _ => None
    end in
  let number1 :=
    match Js.prop nft "item_index" with
    | VNum x => Some (ToString (VNum x))
    | VStr s => Some s
    | _ => number0
    end in
  let metadata := Js.nullish_or (Js.prop nft "metadata") (Js.prop nft "content") in
  let finish (model background image : option string) : Extracted :=
    let image1 :=
      if unset image then
        match previewImage nft with
        | Some u => Some u
        | None => image
        end
      else image in
    {| e_model := model; e_background := background; e_number := number1;
       e_collectionAddress := collectionAddress; e_imageUrl := image1 |} in
  if not_object metadata then Ok (finish None None None) else
  let model0 :=
    match Js.prop metadata "name" with
    | VStr s => Some s
    | _ => None
    end in
  (let* imageCandidate :=
     Extract.findFirstStringByKeys stackRoom metadata
       ["image"; "image_url"; "imageUrl"] in
   let image0 := imageOf imageCandidate in
   let traits :=
     match Js.prop metadata "attributes" with
     | VArr attrs => fold_left attribute attrs (model0, None)
     | _ => (model0, None)
     end in
   Ok (finish (fst traits) (snd traits) image0))%js.

(** The cache-miss path of [getModelByNftAddressCached]: look the item
    up, extract, store [{ at: now, model }], return the model. *)
Definition lookupModel (nftAddress : string) (now : Z) : M (option string) :=
  let! nft := tonapiGetNftItemByAddress nftAddress in
  let! extracted := lift (extractFromNftItem nft) in
  let model := e_model extracted in
  fun w =>
    (Ok model,
     {| tick := tick w;
        nftModelCache :=
          <[nftAddress := {| ModelEntry.at' := now; ModelEntry.model := model |}]>
            (nftModelCache w);
        recentSalesCache := recentSalesCache w |}).

Definition getModelByNftAddressCached (nftAddress : string) : M (option string) :=
  let! now := Date_now in
  fun w =>
    match nftModelCache w !! nftAddress with
    | Some cached =>
        if fresh now (ModelEntry.at' cached) NFT_MODEL_CACHE_TTL_MS
        then (Ok (ModelEntry.model cached), w)
        else lookupModel nftAddress now w
    | None => lookupModel nftAddress now w
    end.

(** [new Set(xs)] as the list [Array.from] gives back. *)
Definition set_of (xs : list string) : list string :=
  fold_left (fun acc a => if existsb (String.eqb a) acc then acc else acc ++ [a]) xs [].

Definition getMarketsSet : list string :=
  set_of (List.filter
            (fun a => negb (String.eqb a "") && negb (String.eqb a GIFTS_COLLECTION))
            WATCH_ACCOUNTS).

Definition cap_reached (prices : list number) : bool :=
  (RECENT_SALES_MAX <=? length prices)%nat.

(** [for (const x of xs) { if (prices.length >= RECENT_SALES_MAX) break;
    body }], the shape of the three nested loops. *)
Fixpoint forCapped {X : Type} (body : X -> list number -> M (list number))
  (xs : list X) (prices : list number) : M (list number) :=
  match xs with
  | [] => ret prices
  | x :: rest =>
      if cap_reached prices then ret prices else
      let! prices1 := body x prices in forCapped body rest prices1
  end.

Definition nftKeys : list string := ["nft_address"; "nft"; "nft_item"; "item"; "address"].
Definition amountKeys : list string := ["amount"; "price"; "ton"; "ton_amount"; "value"].

(** The body of the innermost loop from the type test on: the price it
    pushes, if any. [purchase_test] is the test on the lowered type. *)
Definition saleWith (purchase_test : string -> bool) (amount_test : number -> bool)
  (m : string) (action : value) : M (option number) :=
  let! actionType := lift (Extract.getActionType action) in
  let type := toLowerCase (match actionType with Some s => s | None => "" end) in
  if negb (purchase_test type) then ret None else
  let! nftAddress := lift (Extract.findFirstAddressByKeys stackRoom action nftKeys) in
  match nftAddress with
  | None => ret None
  | Some addr =>
      if String.eqb addr "" then ret None else
      let! foundModel := getModelByNftAddressCached addr in
      match foundModel with
      | None => ret None
      | Some fm =>
          if String.eqb fm "" then ret None else
          if negb (String.eqb (toLowerCase fm) (toLowerCase m)) then ret None else
          let! rawAmount :=
            lift (Extract.findFirstNumberLike stackRoom action amountKeys) in
          match rawAmount with
          | None => ret None
          | Some raw =>
              let ton := Extract.toTonMaybe raw in
              if amount_test ton then ret (Some ton) else ret None
          end
      end
  end.

(** [!type.includes('purchase') && !type.includes('nftpurchase')] negated *)
Definition purchase_in_code (type : string) : bool :=
  negb (negb (Js.includes type "purchase") && negb (Js.includes type "nftpurchase")).

(** [!Number.isFinite(ton) || ton <= 0] negated *)
Definition amount_in_code (ton : number) : bool :=
  negb (negb (JsNum.isFinite ton) || JsNum.le ton JsNum.zero).

Definition saleOf (m : string) (act : value) : M (option number) :=
  if not_object act then ret None else
  saleWith purchase_in_code amount_in_code m act.

Definition push (prices : list number) (r : option number) : list number :=
  match r with
  | Some ton => prices ++ [ton]
  | None => prices
  end.

Definition actionBody (m : string) (act : value) (prices : list number)
  : M (list number) :=
  let! r := saleOf m act in ret (push prices r).

Definition eventBody (m : string) (ev : value) (prices : list number)
  : M (list number) :=
  if not_object ev then ret prices else
  match Js.prop ev "actions" with
  | VArr actions => forCapped (actionBody m) actions prices
  | _ => ret prices
  end.

Definition marketBody (m : string) (accountId : string) (prices : list number)
  : M (list number) :=
  let! events := tonapiGetAccountEvents accountId 50 in
  if not_object events then ret prices else
  match Js.prop events "events" with
  | VArr list => forCapped (eventBody m) list prices
  | _ => ret prices
  end.

(** [out.length > 0 ? out : null] *)
Definition or_null (out : list number) : option (list number) :=
  if (0 <? length out)%nat then Some out else None.

(** The cache-miss path of [getRecentSalesForModel]: scan the markets,
    store [{ at: now, prices: out }], return [out] or [null]. *)
Definition collectSales (m : string) (now : Z) : M (option (list number)) :=
  let! prices := forCapped (marketBody m) getMarketsSet [] in
  let out := firstn RECENT_SALES_MAX prices in
  fun w =>
    (Ok (or_null out),
     {| tick := tick w;
        nftModelCache := nftModelCache w;
        recentSalesCache :=
          <[toLowerCase m := {| SalesEntry.at' := now; SalesEntry.prices := out |}]>
            (recentSalesCache w) |}).

Definition getRecentSalesForModel (model : string) : M (option (list number)) :=
  let m := trim model in
  if String.eqb m "" then ret None else
  let! now := Date_now in
  fun w =>
    match recentSalesCache w !! toLowerCase m with
    | Some cached =>
        if fresh now (SalesEntry.at' cached) RECENT_SALES_CACHE_TTL_MS
        then (Ok (Some (SalesEntry.prices cached)), w)
        else collectSales m now w
    | None => collectSales m now w
    end.

(** The request did not produce a JSON payload. *)
Definition lookup_failed (o : http) : bool :=
  match o with
  | Response true (Some _) => false
  | _ => true
  end.

(** No entry of the model cache answers for [nftAddress] at [now]. *)
Definition model_miss (w : World) (nftAddress : string) (now : Z) : bool :=
  match nftModelCache w !! nftAddress with
  | Some cached => negb (fresh now (ModelEntry.at' cached) NFT_MODEL_CACHE_TTL_MS)
  | None => true
  end.

(** No entry of the sales cache answers for the model [m] at [now]. *)
Definition sales_miss (w : World) (m : string) (now : Z) : bool :=
  match recentSalesCache w !! toLowerCase m with
  | Some cached => negb (fresh now (SalesEntry.at' cached) RECENT_SALES_CACHE_TTL_MS)
  | None => true
  end.

(** *** The qualifying sales, as the specification words them *)

(** [for (const x of xs) body], every result kept, no cap. *)
Fixpoint forEvery {X : Type} (body : X -> M (list number)) (xs : list X)
  : M (list number) :=
  match xs with
  | [] => ret []
  | x :: rest =>
      let! a := body x in
      let! b := forEvery body rest in
      ret (a ++ b)
  end.

(** The action type contains [purchase], whatever the case. *)
Definition type_contains_purchase (act : value) : bool :=
  match Extract.getActionType act with
  | Ok (Some type) => Js.includes (toLowerCase type) "purchase"
  | _ => false
  end.

(** The traded asset: the address the action names. *)
Definition traded_asset (act : value) : option string :=
  match Extract.findFirstAddressByKeys stackRoom act nftKeys with
  | Ok found => found
  | Throw _ => None
  end.

(** The extracted amount, in TON. *)
Definition extracted_amount (act : value) : option number :=
  match Extract.findFirstNumberLike stackRoom act amountKeys with
  | Ok (Some raw) => Some (Extract.toTonMaybe raw)
  | _ => None
  end.

(** The two models are equal up to case. *)
Definition same_model (a b : string) : bool :=
  String.eqb (toLowerCase a) (toLowerCase b).

(** The amount is finite and positive. *)
Definition amount_as_stated (ton : number) : bool :=
  JsNum.isFinite ton && JsNum.gt ton JsNum.zero.

(** The price of a purchase of an asset whose model is [assetModel], when
    it qualifies for the requested model [m]. *)
Definition qualifies (m : string) (act : value) (assetModel : option string)
  : option number :=
  match assetModel, extracted_amount act with
  | Some found, Some ton =>
      if same_model found m && amount_as_stated ton then Some ton else None
  | _, _ => None
  end.

(** The qualifying price of one action, the model of its asset being the
    one [getModelByNftAddressCached] reports. *)
Definition qualifyingSale (m : string) (act : value) : M (option number) :=
  if negb (type_contains_purchase act) then ret None else
  match traded_asset act with
  | None => ret None
  | Some asset =>
      let! assetModel := getModelByNftAddressCached asset in
      ret (qualifies m act assetModel)
  end.

Definition salesOfAction (m : string) (act : value) : M (list number) :=
  let! r := qualifyingSale m act in ret (push [] r).

Definition salesOfEvent (m : string) (ev : value) : M (list number) :=
  if not_object ev then ret [] else
  match Js.prop ev "actions" with
  | VArr actions => forEvery (salesOfAction m) actions
  | _ => ret []
  end.

Definition salesOfMarket (m : string) (accountId : string) : M (list number) :=
  let! events := tonapiGetAccountEvents accountId 50 in
  if not_object events then ret [] else
  match Js.prop events "events" with
  | VArr list => forEvery (salesOfEvent m) list
  | _ => ret []
  end.

(** Every qualifying sale price, in market, then event, then action
    order. *)
Definition qualifyingSales (m : string) : M (list number) :=
  forEvery (salesOfMarket m) getMarketsSet.



(** The value is nested within the room of the stack. *)
Definition fits (v : value) : Prop := (Extract.frames v <= stackRoom)%nat.

End WithEnvironment.
End Enrichment.

(** ** Sample worlds *)

Module SampleWorld.
Import Enrichment.

Definition empty_world : World :=
  {| tick := 0; nftModelCache := ∅; recentSalesCache := ∅ |}.

(** Every request fails. *)
Definition offline : Env := {|
  clock := fun n => 1000 + Z.of_nat n;
  nftItemResponse := fun _ _ => NetworkError;
  accountEventsResponse := fun _ _ _ => NetworkError;
  stackRoom := 64
|}.

Definition two_markets : Config := {|
  WATCH_ACCOUNTS := ["EQmarket1"; "EQmarket2"; "EQmarket1"];
  GIFTS_COLLECTION := "EQcollection"
|}.

(** A purchase of an item for [nano] nanotons. *)
Definition purchase (item : string) (nano : Z) : value :=
  VObj [("type", VStr "NftPurchase");
        ("nft", VObj [("address", VStr item)]);
        ("amount", VNum (JsNum.ofZ nano))].

Definition transfer (item : string) : value :=
  VObj [("type", VStr "NftItemTransfer");
        ("nft", VObj [("address", VStr item)])].

Definition events_of (actions : list value) : value :=
  VObj [("events", VArr [VObj [("actions", VArr actions)]])].

(** Every item is a Plush Pepe, except [EQother], a Toy Bear; the first
    market saw two Plush Pepe sales, the second three. *)
Definition busy : Env := {|
  clock := fun n => 1000 + Z.of_nat n;
  nftItemResponse := fun _ item =>
    Response true
      (Some (VObj [("metadata",
                    VObj [("name",
                           VStr (if String.eqb item "EQother"
                                 then "Toy Bear" else "Plush Pepe"))])]));
  accountEventsResponse := fun _ account _ =>
    if String.eqb account "EQmarket1" then
      Response true
        (Some (events_of [purchase "EQitem1" 5000000000; transfer "EQitem2";
                          purchase "EQother" 100000000000;
                          purchase "EQitem3" 6000000000]))
    else
      Response true
        (Some (events_of [purchase "EQitem4" 7000000000;
                          purchase "EQitem5" 8000000000;
                          purchase "EQitem6" 9000000000]));
  stackRoom := 64
|}.

(** Every item lookup succeeds with a payload that names a collection
    and has no metadata, so no model. *)
Definition nameless : Env := {|
  clock := fun n => 1000 + Z.of_nat n;
  nftItemResponse := fun _ _ =>
    Response true (Some (VObj [("collection", VObj [("address", VStr "EQcollection")])]));
  accountEventsResponse := fun _ _ _ => NetworkError;
  stackRoom := 64
|}.


End SampleWorld.

(** ** Sample inputs *)

Module Samples.

(** A listing at 5 TON under filters whose lower bound is [Infinity]. *)
Definition listing_5 : Listing := {|
  nftAddress := "EQA1";
  priceTon := Some (JsNum.ofZ 5);
  marketAccount := None;
  marketLabel := "Fragment";
  model := None;
  background := None;
  number' := None;
  collectionAddress := None;
  imageUrl := None
|}.

Definition filters_min_infinite : Filters := {|
  tab := listing;
  minTon := JsNum.Infinity;
  maxTon := JsNum.ofZ 10;
  models := []
|}.

(** A listing whose model is the empty string, under filters that list
    the empty string. *)
Definition listing_unnamed : Listing := {|
  nftAddress := "EQA1";
  priceTon := Some (JsNum.ofZ 5);
  marketAccount := None;
  marketLabel := "Fragment";
  model := Some "";
  background := None;
  number' := None;
  collectionAddress := None;
  imageUrl := None
|}.

Definition filters_empty_name : Filters := {|
  tab := listing;
  minTon := JsNum.zero;
  maxTon := JsNum.ofZ 10;
  models := [""]
|}.

(** Three deliveries of one hash and one of another, from an empty map. *)
Definition sample_trace : list (Z * string) :=
  [(1000, "h2"); (2000, "h1"); (599000, "h1")].

(** A map of 10002 entries, all fresh. *)
Definition crowded : Seen.SeenMap :=
  map (fun i => (pretty i, 0)) (seq 0 (Z.to_nat 10002)).

Definition sample_opts : Telegram.AlertOpts := {|
  Telegram.caption := "*LISTING*";
  Telegram.photoUrl := Some "https://example.org/p.png";
  Telegram.buyUrl := "https://getgems.io/nft/EQA1";
  Telegram.buyButtonText := "market";
  Telegram.openInTelegramUrl := "https://t.me/nft/EQA1"
|}.

(** A body of the wrong shape throughout. *)
Definition odd_body : value :=
  VObj [("userKey", VStr "u1");
        ("filters",
         VObj [("tab", VStr "RENT"); ("minTon", VNum (JsNum.ofZ (-1)));
               ("maxTon", VStr "abc");
               ("models", VArr [VStr "  Plush Pepe "; VStr "   "; VNull])])].

Definition odd_request : Backend.PutRequest := {|
  Backend.verified_ok := false; Backend.verified_userId := None; Backend.tokenOk := true; Backend.body := odd_body
|}.

(** A request whose upper bound is [null], as the mini-app sends for an
    empty field. *)
Definition null_bound_request : Backend.PutRequest := {|
  Backend.verified_ok := false; Backend.verified_userId := None; Backend.tokenOk := true;
  Backend.body := VObj [("filters", VObj [("maxTon", VNull)])]
|}.

End Samples.

(** ** Further definitions: escaping *)

Module MarkdownMore.
Import Markdown.

(** A text in which every backslash stands before a reserved character
    and every reserved character stands after such a backslash: what
    Telegram accepts as MarkdownV2 plain text. *)
Fixpoint well_escaped (t : string) : bool :=
  match t with
  | EmptyString => true
  | String c rest =>
      if Ascii.eqb c backslash then
        match rest with
        | String d rest' => reserved d && well_escaped rest'
        | EmptyString => false
        end
      else negb (reserved c) && well_escaped rest
  end.

(** The same for the two characters escaped inside a link target. *)
Fixpoint well_escaped_url (t : string) : bool :=
  match t with
  | EmptyString => true
  | String c rest =>
      if Ascii.eqb c backslash then
        match rest with
        | String d rest' => reservedUrl d && well_escaped_url rest'
        | EmptyString => false
        end
      else negb (reservedUrl c) && well_escaped_url rest
  end.

Fixpoint stripUrl (s : string) : string :=
  match s with
  | EmptyString => EmptyString
  | String c rest =>
      if Ascii.eqb c backslash then
        match rest with
        | String d rest' =>
            if reservedUrl d then String d (stripUrl rest') else String c (stripUrl rest)
        | EmptyString => String c EmptyString
        end
      else String c (stripUrl rest)
  end.

End MarkdownMore.

(** ** Further definitions: array index names *)

Module Digits.

Definition is_digit (c : ascii) : bool :=
  existsb (Ascii.eqb c) ["0"; "1"; "2"; "3"; "4"; "5"; "6"; "7"; "8"; "9"]%char.

Definition starts_with_digit (s : string) : bool :=
  match s with
  | String c _ => is_digit c
  | EmptyString => false
  end.

End Digits.

(** ** Further definitions: where a found value sits in a payload *)

Module Occurs.

(** [under P keys node]: somewhere in [node] there is an object with a
    property named by one of [keys] whose value satisfies [P]. *)
Inductive under (P : value -> Prop) (keys : list string) : value -> Prop :=
| under_here props k v :
    In k keys -> Js.assoc k props = Some v -> P v -> under P keys (VObj props)
| under_item items v :
    In v items -> under P keys v -> under P keys (VArr items)
| under_prop props k v :
    In (k, v) props -> under P keys v -> under P keys (VObj props).

End Occurs.

(** ** Further definitions: sample payloads *)

Module Payloads.

(** An action as TonAPI reports an NFT transfer to a market. *)
Definition transfer_action : value :=
  VObj [("type", VStr "NftItemTransfer");
        ("NftItemTransfer",
         VObj [("sender", VObj [("address", VStr "0:aa"); ("is_scam", VBool false)]);
               ("recipient", VObj [("address", VStr "EQmarket1"); ("name", VStr "")]);
               ("nft", VStr "EQitem1");
               ("comment", VStr "sale");
               ("amount", VObj [("value", VStr "5000000000")])])].

End Payloads.

(** ** Further definitions: the rest of the scanner *)

Module Pipeline.
Import Enrichment.

(** What else the scanner reads from its environment variables. *)
Class AlertConfig : Type := {
  MARKET_LABELS : gmap string string;
  FRAGMENT_BUY_URL_TEMPLATE : string;
  BACKEND_URL : string;
  FLOOR_TON : number;
  FLOOR_MODEL_TON : number;
  LOW_BUDGET_MAX_TON : number
}.

(** Two more built-ins: [Number.prototype.toFixed(2)] and
    [String.prototype.replaceAll] with a string pattern. *)
Class Formatting : Type := {
  toFixed2 : number -> string;
  replaceAll : string -> string -> string -> string
}.

(** The answers of the services [handleTrace] talks to besides the two
    of [Env]: the event lookup, the preference store (whose body is taken
    at its declared type, [{ filters?: Filters | null }]) and Telegram.
    Each is indexed by [tick] at the time of the call. *)
Class PipelineEnv : Type := {
  eventResponse : nat -> string -> http;
  filtersResponse : nat -> option (bool * option (option Filters));
  telegramResponse : nat -> Telegram.request -> Telegram.fetchOutcome
}.

Definition FILTERS_CACHE_TTL_MS : Z := 1000.

(** The state of the process: the world of the enrichment caches, the
    dedup map, the filters cache ([undefined], [null] or filters) with its
    time stamp, and, for the record, the Telegram requests and the
    seen-model reports issued so far. *)
Record Scanner : Type := {
  world : World;
  seen : Seen.SeenMap;
  filtersCache : option (option Filters);
  filtersCacheAt : Z;
  sent : list Telegram.request;
  reported : list string
}.

Definition S (A : Type) : Type := Scanner -> result A * Scanner.

Definition retS {A : Type} (a : A) : S A := fun s => (Ok a, s).

Definition bindS {A B : Type} (c : S A) (k : A -> S B) : S B :=
  fun s =>
    match c s with
    | (Ok a, s') => k a s'
    | (Throw e, s') => (Throw e, s')
    end.

Declare Scope s_scope.
Delimit Scope s_scope with s.
Notation "'let+' x ':=' c 'in' k" := (bindS c (fun x => k))
  (at level 10, x name, c at level 100, k at level 200) : s_scope.

Definition with_world (s : Scanner) (w : World) : Scanner :=
  {| world := w; seen := seen s; filtersCache := filtersCache s;
     filtersCacheAt := filtersCacheAt s; sent := sent s; reported := reported s |}.

(** A computation on the enrichment world, run inside the scanner. *)
Definition inWorld {A : Type} (c : M A) : S A :=
  fun s => let '(r, w) := c (world s) in (r, with_world s w).

Definition liftS {A : Type} (r : result A) : S A := fun s => (r, s).

Section WithEnvironment.
Context `{Builtins} `{Env} `{Config} `{AlertConfig} `{Formatting} `{PipelineEnv}.
Local Open Scope s_scope.

Definition labelForAccount (accountId : string) : string :=
  match MARKET_LABELS !! accountId with
  | Some label => label
  | None => accountId
  end.

Definition tonapiGetEvent (traceHashOrTxHash : string) : M value :=
  fun w => (Ok (json_or_null (eventResponse (tick w) traceHashOrTxHash)), advance w).

Inductive marketKind : Type := getgems | mrkt | fragment | unknown.

Definition normalizeMarketLabel (label : string) : marketKind :=
  let l := toLowerCase label in
  if Js.includes l "getgems" then getgems
  else if Js.includes l "mrkt" then mrkt
  else if Js.includes l "fragment" then fragment
  else unknown.

Definition explorerUrl (nft : string) : string :=
  "https://tonviewer.com/" +:+ nft +:+ "?section=nft".

Definition buyUrlFor (l : Listing) : string :=
  match normalizeMarketLabel (marketLabel l) with
  | getgems => "https://getgems.io/nft/" +:+ nftAddress l
  | mrkt => "https://mrkt.com/item/" +:+ nftAddress l
  | fragment =>
      if negb (String.eqb FRAGMENT_BUY_URL_TEMPLATE "")
      then replaceAll FRAGMENT_BUY_URL_TEMPLATE "{nft}" (nftAddress l)
      else explorerUrl (nftAddress l)
  | unknown => explorerUrl (nftAddress l)
  end.

Definition destinationKeys : list string := ["destination"; "recipient"; "to"; "receiver"].
Definition priceKeys : list string := ["price"; "amount"; "value"; "ton"; "ton_amount"].

(** One turn of the loop of [parseListingsFromEventActions]: the listing
    pushed, if any. *)
Definition listingOfAction (raw : value) : result (option Listing) :=
  (if not_object raw then Ok None else
   let* actionType := Extract.getActionType raw in
   let type := toLowerCase (match actionType with Some s => s | None => "" end) in
   if negb (Js.includes type "nft") then Ok None else
   let* destination := Extract.findFirstAddressByKeys stackRoom raw destinationKeys in
   match destination with
   | None => Ok None
   | Some dest =>
       if String.eqb dest "" || negb (existsb (String.eqb dest) getMarketsSet)
       then Ok None else
       let* nft := Extract.findFirstAddressByKeys stackRoom raw nftKeys in
       match nft with
       | None => Ok None
       | Some addr =>
           if String.eqb addr "" then Ok None else
           let* price := Extract.findFirstNumberLike stackRoom raw priceKeys in
           Ok (Some {| nftAddress := addr;
                       priceTon := price;
                       marketAccount := Some dest;
                       marketLabel := labelForAccount dest;
                       model := None;
                       background := None;
                       number' := None;
                       collectionAddress := None;
                       imageUrl := None |})
       end
   end)%js.

Fixpoint listingsOfActions (actions : list value) (out : list Listing)
  : result (list Listing) :=
  match actions with
  | [] => Ok out
  | raw :: rest =>
      (let* l := listingOfAction raw in
       listingsOfActions rest (match l with Some x => out ++ [x] | None => out end))%js
  end.

Definition parseListingsFromEventActions (event : value) : result (list Listing) :=
  if not_object event then Ok [] else
  match Js.prop event "actions" with
  | VArr actions => listingsOfActions actions []
  | _ => Ok []
  end.

(** [{ ...listing, ...extra }]: a field set in [extra] replaces the
    listing's. *)
Definition or_else (a b : option string) : option string :=
  match a with
  | Some _ => a
  | None => b
  end.

Definition merge (l : Listing) (extra : Extracted) : Listing :=
  {| nftAddress := nftAddress l;
     priceTon := priceTon l;
     marketAccount := marketAccount l;
     marketLabel := marketLabel l;
     model := or_else (e_model extra) (model l);
     background := or_else (e_background extra) (background l);
     number' := or_else (e_number extra) (number' l);
     collectionAddress := or_else (e_collectionAddress extra) (collectionAddress l);
     imageUrl := or_else (e_imageUrl extra) (imageUrl l) |}.

Definition enrichListing (l : Listing) : M Listing :=
  bind (tonapiGetNftItemByAddress (nftAddress l)) (fun nft =>
  if negb (Js.truthy nft) then ret l else
  bind (lift (extractFromNftItem nft)) (fun extra => ret (merge l extra))).

Definition set_filters (s : Scanner) (f : option Filters) (now : Z) : Scanner :=
  {| world := world s; seen := seen s; filtersCache := Some f;
     filtersCacheAt := now; sent := sent s; reported := reported s |}.

Definition tickS (s : Scanner) : Scanner := with_world s (advance (world s)).

(** [backendGetFilters]: [null] without a backend; the cached answer
    while it is younger than a second; otherwise one request, whose
    answer, or [null] on any failure, is cached and returned. *)
Definition backendGetFilters : S (option Filters) :=
  if String.eqb BACKEND_URL "" then retS None else
  fun s =>
    let now := clock (tick (world s)) in
    let s1 := tickS s in
    if negb (filtersCacheAt s =? 0) && (now - filtersCacheAt s <? FILTERS_CACHE_TTL_MS)
    then (Ok (match filtersCache s with Some f => f | None => None end), s1)
    else
      let answer := filtersResponse (tick (world s1)) in
      let s2 := tickS s1 in
      match answer with
      | Some (true, Some f) => (Ok f, set_filters s2 f now)
      | _ => (Ok None, set_filters s2 None now)
      end.

(** [backendPostSeenModel], which the caller does not await: the request
    goes out at once and nothing of its answer is used. *)
Definition backendPostSeenModel (model : string) : S unit :=
  if String.eqb BACKEND_URL "" then retS tt else
  let m := trim model in
  if String.eqb m "" then retS tt else
  fun s =>
    let s1 := tickS s in
    (Ok tt,
     {| world := world s1; seen := seen s1; filtersCache := filtersCache s1;
        filtersCacheAt := filtersCacheAt s1; sent := sent s1;
        reported := reported s1 ++ [m] |}).

Definition truthy_str (o : option string) : bool := Extract.found_truthy o.

Definition nl : string := String (ascii_of_nat 10) EmptyString.

Definition tonLine (label : string) (x : number) : string :=
  label +:+ "*" +:+ Markdown.escapeMarkdownV2 (toFixed2 x) +:+ " TON*".

Definition floorLine (label : string) (x : number) : option string :=
  if JsNum.isFinite x && JsNum.gt x JsNum.zero then Some (tonLine label x) else None.

Definition giftTitlePlain (l : Listing) : string :=
  match model l with
  | Some m =>
      if String.eqb m "" then nftAddress l else
      m +:+ (match number' l with
            | Some n => if String.eqb n "" then "" else " #" +:+ n
            | None => ""
            end)
  | None => nftAddress l
  end.

Definition textLine (label : string) (o : option string) : option string :=
  match o with
  | Some s =>
      if String.eqb s "" then None
      else Some (label +:+ "*" +:+ Markdown.escapeMarkdownV2 s +:+ "*")
  | None => None
  end.

Definition recentSalesLine (recentSales : option (list number)) : option string :=
  match recentSales with
  | Some (p :: ps) =>
      Some ("Последние продажи: " +:+
            String.concat " / "
              (map (fun p => "*" +:+ Markdown.escapeMarkdownV2 (toFixed2 p) +:+ " TON*")
                 (p :: ps)))
  | _ => None
  end.

(** [[...].filter(Boolean).join('\n')] *)
Definition joinLines (lines : list (option string)) : string :=
  String.concat nl
    (flat_map (fun o => match o with
                        | Some s => if String.eqb s "" then [] else [s]
                        | None => []
                        end) lines).

Definition captionOf (l : Listing) (buyUrl : string) (recentSales : option (list number))
  : string :=
  let giftTitleLinked :=
    "[" +:+ Markdown.escapeMarkdownV2 (giftTitlePlain l) +:+ "](" +:+
    Markdown.escapeMarkdownV2Url buyUrl +:+ ")" in
  let priceLine :=
    match priceTon l with
    | Some p => tonLine "Цена: " p
    | None => "Цена: *неизвестно*"
    end in
  joinLines
    [Some "*✅ ЛИСТИНГ*";
     Some giftTitleLinked;
     textLine "Модель: " (model l);
     textLine "Фон: " (background l);
     floorLine "Флор гифта: " FLOOR_TON;
     floorLine "Флор модели: " FLOOR_MODEL_TON;
     recentSalesLine recentSales;
     Some priceLine].

(** [sendTelegramAlert] inside the scanner: its requests are answered by
    the environment at the current [tick], logged, and counted. *)
Definition sendAlert (opts : Telegram.AlertOpts) : S unit :=
  fun s =>
    let '(r, requests) :=
      Telegram.sendTelegramAlert (telegramResponse (tick (world s))) opts in
    let w := world s in
    (r,
     {| world := {| tick := tick w + length requests;
                    nftModelCache := nftModelCache w;
                    recentSalesCache := recentSalesCache w |};
        seen := seen s; filtersCache := filtersCache s;
        filtersCacheAt := filtersCacheAt s;
        sent := sent s ++ requests; reported := reported s |}).

(** The body of the loop of [handleTrace] over the extracted listings. *)
Definition alertListing (filters : option Filters) (rawListing : Listing) : S unit :=
  let+ l := inWorld (enrichListing rawListing) in
  if negb (String.eqb GIFTS_COLLECTION "") && truthy_str (collectionAddress l) &&
     negb (String.eqb (match collectionAddress l with Some c => c | None => "" end)
             GIFTS_COLLECTION)
  then retS tt else
  let+ _ := (if truthy_str (model l)
             then backendPostSeenModel (match model l with Some m => m | None => "" end)
             else retS tt) in
  if negb (Matcher.matchesFilters l filters) then retS tt else
  let buyUrl := buyUrlFor l in
  let+ recentSales :=
    (if truthy_str (model l)
     then inWorld (getRecentSalesForModel (match model l with Some m => m | None => "" end))
     else retS None) in
  let caption := captionOf l buyUrl recentSales in
  sendAlert {| Telegram.caption := caption;
               Telegram.photoUrl := imageUrl l;
               Telegram.buyUrl := buyUrl;
               Telegram.buyButtonText := "Ссылка на маркет";
               Telegram.openInTelegramUrl := "https://t.me/nft/" +:+ nftAddress l |}.

Fixpoint alertListings (filters : option Filters) (extracted : list Listing) : S unit :=
  match extracted with
  | [] => retS tt
  | rawListing :: rest =>
      let+ _ := alertListing filters rawListing in alertListings filters rest
  end.

Definition set_seen (s : Scanner) (m : Seen.SeenMap) : Scanner :=
  {| world := world s; seen := m; filtersCache := filtersCache s;
     filtersCacheAt := filtersCacheAt s; sent := sent s; reported := reported s |}.

Definition handleTrace (hash : string) : S unit :=
  fun s =>
    let now := clock (tick (world s)) in
    let '(fresh_hash, seen1) := Seen.dedupGate now hash (seen s) in
    let s1 := set_seen (tickS s) seen1 in
    if negb fresh_hash then (Ok tt, s1) else
    (let+ event := inWorld (tonapiGetEvent hash) in
     if negb (Js.truthy event) then retS tt else
     let+ extracted := liftS (parseListingsFromEventActions event) in
     match extracted with
     | [] => retS tt
     | _ =>
         let+ filters := backendGetFilters in
         alertListings filters extracted
     end) s1.

End WithEnvironment.
End Pipeline.

(** ** Further definitions: sample items *)

Module Items.

(** An item whose metadata has a name and a [Model] trait. *)
Definition named_item : value :=
  VObj [("address", VStr "EQitem1");
        ("collection", VObj [("address", VStr "EQcollection")]);
        ("metadata",
         VObj [("name", VStr "Plush Pepe #7");
               ("image", VStr "ipfs://ipfs/abc");
               ("attributes",
                VArr [VObj [("trait_type", VStr "Model"); ("value", VStr "Cozy")];
                      VObj [("trait_type", VStr "Backdrop"); ("value", VStr "Blue")];
                      VObj [("trait_type", VStr "Background"); ("value", VStr "Red")]])])].

Definition bare_listing : Listing := {|
  nftAddress := "EQitem1";
  priceTon := Some (JsNum.ofZ 5);
  marketAccount := Some "EQmarket1";
  marketLabel := "EQmarket1";
  model := None;
  background := None;
  number' := None;
  collectionAddress := None;
  imageUrl := None
|}.

End Items.

(** ** Further definitions: what a parsed listing looks like *)

Module Parsed.
Section WithEnvironment.
Context `{Builtins} `{Enrichment.Config} `{Pipeline.AlertConfig}.

(** A listing as [parseListingsFromEventActions] makes it: sent to one
    of the markets, labelled for it, with address-shaped identifiers and
    nothing of the item's metadata yet. *)
Definition raw_listing (l : Listing) : Prop :=
  exists dest,
    marketAccount l = Some dest /\
    In dest Enrichment.getMarketsSet /\
    marketLabel l = Pipeline.labelForAccount dest /\
    Extract.isTonAddress (VStr dest) = true /\
    Extract.isTonAddress (VStr (nftAddress l)) = true /\
    model l = None /\ background l = None /\ number' l = None /\
    collectionAddress l = None /\ imageUrl l = None.

End WithEnvironment.
End Parsed.

(** ** Further definitions: what a run leaves alone *)

Module Frame.
Import Pipeline.

(** From [s] to [s'] the dedup map is untouched and the log of Telegram
    requests has grown by at most [n]. *)
Definition sends_at_most (n : nat) (s s' : Scanner) : Prop :=
  seen s' = seen s /\
  exists more, sent s' = sent s ++ more /\ (length more <= n)%nat.

(** From [s] to [s'] only the clock was read: no request went out, and
    the model cache, the sales cache and the filters cache did not
    change. The dedup map is not spoken of. *)
Definition only_clock_read (s s' : Scanner) : Prop :=
  world s' = Enrichment.advance (world s) /\
  filtersCache s' = filtersCache s /\ filtersCacheAt s' = filtersCacheAt s /\
  sent s' = sent s /\ reported s' = reported s.

End Frame.

(** ** Further definitions: a sample pipeline *)

Module SamplePipeline.
Import Enrichment Pipeline.

Definition config : AlertConfig := {|
  MARKET_LABELS := {[ "EQmarket1" := "GetGems" ]};
  FRAGMENT_BUY_URL_TEMPLATE := "";
  BACKEND_URL := "http://localhost:8080";
  FLOOR_TON := JsNum.NaN;
  FLOOR_MODEL_TON := JsNum.NaN;
  LOW_BUDGET_MAX_TON := JsNum.ofZ 10
|}.

Definition formatting : Formatting := {|
  toFixed2 := fun _ => "5.00";
  replaceAll := fun s _ _ => s
|}.

(** The event is a transfer to the first market; the store answers with
    filters on the [sale] tab; Telegram accepts everything. *)
Definition on_sale_tab : Filters :=
  {| tab := sale; minTon := JsNum.zero; maxTon := JsNum.ofZ 5000; models := [] |}.

Definition services : PipelineEnv := {|
  eventResponse := fun _ _ =>
    Response true (Some (VObj [("actions", VArr [Payloads.transfer_action])]));
  filtersResponse := fun _ => Some (true, Some (Some on_sale_tab));
  telegramResponse := fun _ _ => Telegram.Response true
|}.

Definition start : Scanner := {|
  world := SampleWorld.empty_world;
  seen := [];
  filtersCache := None;
  filtersCacheAt := 0;
  sent := [];
  reported := []
|}.

End SamplePipeline.

(** ** Further definitions: the store's other routes *)

Module Store.
Import Backend.

(** [Array.prototype.sort] with [(a, b) => a.localeCompare(b)]. *)
Class Collation : Type := {
  sortByLocale : list string -> list string
}.

(** What the properties use of the sort: it rearranges, and neither adds
    nor drops an element. *)
Class CollationLaws (C : Collation) : Prop := {
  sortByLocale_perm : forall l, Permutation (sortByLocale l) l
}.

Section WithBuiltins.
Context `{Builtins} `{Collation}.

(** [requireToken], on the headers of the request. *)
Definition requireToken (BACKEND_TOKEN : string) (headers : value) : bool :=
  if String.eqb BACKEND_TOKEN "" then true else
  let auth := trim (ToString (Js.nullish_or (Js.prop headers "authorization") (VStr ""))) in
  String.eqb auth ("Bearer " +:+ BACKEND_TOKEN).

(** What [GET /api/filters] knows of a request once the headers are
    checked, and its query. *)
Record GetRequest : Type := {
  get_verified_ok : bool;
  get_verified_userId : option string;
  get_tokenOk : bool;
  query : value
}.

(** The reply: [filters] is a stored record, or [null], or, when the
    user key names something the store inherits, that inherited thing. *)
Inductive get_reply : Type :=
| Refused
| Found (userKey : string) (filters : option Filters)
| FoundInherited (userKey : string) (what : member).

(** [verified.userId ? verified.userId
     : String(req.query?.userKey ?? 'default')] *)
Definition queryUserKey (req : GetRequest) : string :=
  let asked := ToString (Js.nullish_or (Js.prop (query req) "userKey") (VStr "default")) in
  match get_verified_userId req with
  | Some u => if nonempty u then u else asked
  | None => asked
  end.

(** [GET /api/filters] on the in-memory [filtersStore]. *)
Definition getFilters (req : GetRequest) (filtersStore : FiltersStore)
  : get_reply :=
  if negb (get_verified_ok req) && negb (get_tokenOk req) then Refused
  else
    let userKey := queryUserKey req in
    match read filtersStore userKey with
    | Record_ f => Found userKey (Some f)
    | Missing => Found userKey None
    | inherited => FoundInherited userKey inherited
    end.

(** [set.add(x)] *)
Definition set_add (x : string) (set : list string) : list string :=
  if existsb (String.eqb x) set then set else set ++ [x].

Inductive seen_reply : Type :=
| Unauthorized401
| Ok200.

(** [POST /api/models/seen] on the in-memory list [modelsStore.models]. *)
Definition postModelSeen (BACKEND_TOKEN : string) (headers body : value)
  (models : list string) : seen_reply * list string :=
  if negb (requireToken BACKEND_TOKEN headers) then (Unauthorized401, models) else
  let body := object_or_empty body in
  let model := trim (ToString (Js.nullish_or (Js.prop body "model") (VStr ""))) in
  if String.eqb model "" then (Ok200, models) else
  (Ok200, sortByLocale (set_add model (Enrichment.set_of models))).

(** The model a request names. *)
Definition named_model (body : value) : string :=
  trim (ToString (Js.nullish_or (Js.prop (object_or_empty body) "model") (VStr ""))).

End WithBuiltins.
End Store.

Module SampleStore.

Fixpoint insert_sorted (x : string) (l : list string) : list string :=
  match l with
  | [] => [x]
  | y :: rest => if String.leb x y then x :: l else y :: insert_sorted x rest
  end.

(** Insertion sort by code units. *)
Definition by_code_unit : Store.Collation := {|
  Store.sortByLocale := fun l => fold_right insert_sorted [] l
|}.

Definition put_default : Backend.PutRequest := {|
  Backend.verified_ok := false;
  Backend.verified_userId := None;
  Backend.tokenOk := true;
  Backend.body :=
    VObj [("filters", VObj [("tab", VStr "rent"); ("minTon", VNum (JsNum.ofZ 2))])]
|}.

Definition get_default : Store.GetRequest := {|
  Store.get_verified_ok := false;
  Store.get_verified_userId := None;
  Store.get_tokenOk := true;
  Store.query := VUndefined
|}.

End SampleStore.

(** * Properties *)

(** ** Comparison of numbers *)

Module JsNumFacts.

Lemma compare_antisym (x y : number) :
  SFcompare y x = option_map CompOpp (SFcompare x y).
Proof.
  destruct x as [sx|sx| |sx mx ex], y as [sy|sy| |sy my ey]; simpl;
    try reflexivity;
    try (destruct sx; reflexivity);
    try (destruct sy; reflexivity);
    try (destruct sx, sy; reflexivity).
  f_equal.
  rewrite (Z.compare_antisym ex ey).
  change (Pos.compare_cont Eq my mx) with (Pos.compare my mx).
  change (Pos.compare_cont Eq mx my) with (Pos.compare mx my).
  rewrite (Pos.compare_antisym mx my).
  destruct sx, sy; simpl; try reflexivity;
    destruct (ex ?= ey)%Z; simpl; try reflexivity;
    destruct (mx ?= my)%positive; reflexivity.
Qed.

Lemma compare_finite (x y : number) :
  JsNum.isFinite x = true -> JsNum.isFinite y = true ->
  exists c, SFcompare x y = Some c.
Proof.
  destruct x, y; simpl; intros Hx Hy; try discriminate; eauto.
Qed.

(** On numbers that compare (neither is [NaN]), [!(x < y)] is [y <= x]. *)
Lemma not_lt_le (x y : number) c :
  SFcompare x y = Some c -> negb (JsNum.lt x y) = JsNum.le y x.
Proof.
  intros Hc. unfold JsNum.lt, JsNum.le, SFltb, SFleb.
  rewrite (compare_antisym x y), Hc. destruct c; reflexivity.
Qed.

Lemma not_gt_le (x y : number) c :
  SFcompare x y = Some c -> negb (JsNum.gt x y) = JsNum.le x y.
Proof.
  intros Hc. unfold JsNum.gt, JsNum.le, SFltb, SFleb.
  rewrite (compare_antisym x y), Hc. destruct c; reflexivity.
Qed.

Lemma lt_le (x y : number) : JsNum.lt x y = true -> JsNum.le x y = true.
Proof.
  unfold JsNum.lt, JsNum.le, SFltb, SFleb.
  destruct (SFcompare x y) as [[]|]; auto.
Qed.

End JsNumFacts.

(** ** MarkdownV2 escaping *)

Module MarkdownFacts.
Import Markdown.

Lemma backslash_reserved : reserved backslash = true.
Proof. reflexivity. Qed.

Lemma plain_not_backslash c : reserved c = false -> Ascii.eqb c backslash = false.
Proof.
  intros Hc. destruct (Ascii.eqb c backslash) eqn:E; [|reflexivity].
  apply Ascii.eqb_eq in E. subst c. discriminate.
Qed.

Lemma escape_form s : escaped_form s (escapeMarkdownV2 s).
Proof.
  induction s as [|c s IH]; simpl.
  - constructor.
  - destruct (reserved c) eqn:E; constructor; assumption.
Qed.

Lemma strip_escaped_form s t : escaped_form s t -> strip t = s.
Proof.
  induction 1 as [|c s t Hc _ IH|c s t Hc _ IH].
  - reflexivity.
  - change (strip (String backslash (String c t)))
      with (if reserved c then String c (strip t)
            else String backslash (strip (String c t))).
    rewrite Hc, IH. reflexivity.
  - simpl. rewrite (plain_not_backslash c Hc), IH. reflexivity.
Qed.

Lemma escape_length s :
  String.length (escapeMarkdownV2 s) = (String.length s + count_reserved s)%nat.
Proof.
  induction s as [|c s IH]; simpl; [reflexivity|].
  destruct (reserved c); simpl; rewrite IH; lia.
Qed.

Lemma reserved_members (c : ascii) :
  reserved c = true <->
  In c ["_"; "-"; "*"; "["; "]"; "("; ")"; "~"; "`"; ">"; "#"; "+"; "=";
        "|"; "{"; "}"; "."; "!"; "\"]%char.
Proof.
  unfold reserved. rewrite existsb_exists. split.
  - intros [x [Hin Heq]]. apply Ascii.eqb_eq in Heq. subst x. exact Hin.
  - intros Hin. exists c. split; [exact Hin|apply Ascii.eqb_refl].
Qed.

(** C9. The reserved set is the nineteen characters
    [_ - * [ ] ( ) ~ ` > # + = | { } . ! \], the backslash among them.
    For every string [s], [escapeMarkdownV2 s] is [s] with exactly one
    backslash put before each occurrence of a reserved character and
    nothing else changed -- so it is longer than [s] by the number of
    these characters in [s] -- and removing the one escape backslash
    before every reserved character gives back [s]. *)
Theorem escapeMarkdownV2_round_trip (s : string) :
  (forall c,
     reserved c = true <->
     In c ["_"; "-"; "*"; "["; "]"; "("; ")"; "~"; "`"; ">"; "#"; "+"; "=";
           "|"; "{"; "}"; "."; "!"; "\"]%char) /\
  escapeMarkdownV2 "\" = "\\"%string /\
  escaped_form s (escapeMarkdownV2 s) /\
  String.length (escapeMarkdownV2 s) = (String.length s + count_reserved s)%nat /\
  strip (escapeMarkdownV2 s) = s.
Proof.
  split; [exact reserved_members|].
  split; [reflexivity|].
  split; [apply escape_form|].
  split; [apply escape_length|].
  apply strip_escaped_form, escape_form.
Qed.

Example escape_sample :
  escapeMarkdownV2 "a_b\c (1.5)" = "a\_b\\c \(1\.5\)".
Proof. reflexivity. Qed.

End MarkdownFacts.

(** ** The preference matcher *)

Module MatcherFacts.
Import Matcher Samples.

Section WithBuiltins.
Context `{Builtins}.

Lemma set_has_In (xs : list string) (x : string) :
  set_has xs x = true <-> In x xs.
Proof.
  unfold set_has. rewrite existsb_exists. split.
  - intros [y [Hy E]]. apply String.eqb_eq in E. subst y. exact Hy.
  - intros Hx. exists x. split; [exact Hx|apply String.eqb_refl].
Qed.

(** The lower-bound test: skipped for a bound that is not finite. *)
Lemma min_test (p lo : number) :
  JsNum.isFinite p = true ->
  (JsNum.isFinite lo && JsNum.lt p lo = false) <->
  (JsNum.isFinite lo = true -> JsNum.le lo p = true).
Proof.
  intros Hp. destruct (JsNum.isFinite lo) eqn:Hlo; simpl.
  - destruct (JsNumFacts.compare_finite p lo Hp Hlo) as [c Hc].
    rewrite <- (JsNumFacts.not_lt_le p lo c Hc).
    destruct (JsNum.lt p lo); simpl; intuition congruence.
  - intuition congruence.
Qed.

Lemma max_test (p hi : number) :
  JsNum.isFinite p = true ->
  (JsNum.isFinite hi && JsNum.gt p hi = false) <->
  (JsNum.isFinite hi = true -> JsNum.le p hi = true).
Proof.
  intros Hp. destruct (JsNum.isFinite hi) eqn:Hhi; simpl.
  - destruct (JsNumFacts.compare_finite p hi Hp Hhi) as [c Hc].
    rewrite <- (JsNumFacts.not_gt_le p hi c Hc).
    destruct (JsNum.gt p hi); simpl; intuition congruence.
  - intuition congruence.
Qed.


Lemma model_test (l : Listing) (f : Filters) :
  (if (0 <? length (models f))%nat then
     match model l with
     | None => false
     | Some m =>
         if String.eqb m "" then false else
         if negb (set_has (map toLowerCase (models f)) (toLowerCase m))
         then false else true
     end
   else true) = true <-> model_ok l f.
Proof.
  unfold model_ok.
  pose proof (set_has_In (map toLowerCase (models f))) as Hset.
  destruct (models f) as [|m0 ms] eqn:Hms.
  - simpl. split; auto.
  - change (0 <? length (m0 :: ms))%nat with true. cbv iota.
    destruct (model l) as [m|].
    + destruct (String.eqb m "") eqn:Em.
      * apply String.eqb_eq in Em. split; [discriminate|].
        intros [?|[m' [Hm' [Hne _]]]]; [discriminate|]. congruence.
      * apply String.eqb_neq in Em. specialize (Hset (toLowerCase m)).
        destruct (set_has (map toLowerCase (m0 :: ms)) (toLowerCase m)); simpl.
        -- split; [|reflexivity].
           intros _. right. exists m. split; [reflexivity|].
           split; [exact Em|]. apply Hset. reflexivity.
        -- split; [discriminate|].
           intros [?|[m' [Hm' [_ Hin]]]]; [discriminate|].
           injection Hm' as <-. apply Hset in Hin. discriminate.
    + split; [discriminate|].
      intros [?|[m' [Hm' _]]]; discriminate.
Qed.

(** C1, as the code has it. [matchesFilters] accepts a listing under
    present filters exactly when the tab is [listing], the price is a
    finite number [p], each bound of the range that is a finite number
    holds of [p] (a bound that is not finite is not tested), and the model
    set is empty or the listing's model is present, non-empty and
    case-insensitively a member; absent filters accept every listing. *)
Theorem matchesFilters_spec (l : Listing) (f : Filters) :
  (matchesFilters l (Some f) = true <->
     tab f = listing /\
     exists p, priceTon l = Some p /\ JsNum.isFinite p = true /\
       (JsNum.isFinite (minTon f) = true -> JsNum.le (minTon f) p = true) /\
       (JsNum.isFinite (maxTon f) = true -> JsNum.le p (maxTon f) = true) /\
       model_ok l f) /\
  matchesFilters l None = true.
Proof.
  split; [|reflexivity].
  unfold matchesFilters.
  destruct (tab f) eqn:Htab; simpl;
    try (split; [discriminate|intros [? _]; discriminate]).
  destruct (priceTon l) as [p|] eqn:Hprice;
    [|split; [discriminate|intros [_ [p [? _]]]; discriminate]].
  destruct (JsNum.isFinite p) eqn:Hp; simpl;
    [|split; [discriminate|intros [_ [q [Hq [Hfin _]]]]; congruence]].
  pose proof (min_test p (minTon f) Hp) as Hmin.
  pose proof (max_test p (maxTon f) Hp) as Hmax.
  pose proof (model_test l f) as Hmodel.
  destruct (JsNum.isFinite (minTon f) && JsNum.lt p (minTon f)).
  { split; [discriminate|]. intros [_ [q [Hq [_ [Hlo _]]]]].
    injection Hq as <-. apply Hmin in Hlo. discriminate. }
  destruct (JsNum.isFinite (maxTon f) && JsNum.gt p (maxTon f)).
  { split; [discriminate|]. intros [_ [q [Hq [_ [_ [Hhi _]]]]]].
    injection Hq as <-. apply Hmax in Hhi. discriminate. }
  rewrite Hmodel. split.
  - intros Hm. split; [reflexivity|]. exists p.
    repeat split; try assumption.
    + apply Hmin. reflexivity.
    + apply Hmax. reflexivity.
  - intros [_ [q [_ [_ [_ [_ Hm]]]]]]. exact Hm.
Qed.

End WithBuiltins.


(** C1, as stated, fails. With [minTon = Infinity] no price lies in the
    stated range, yet the matcher skips the bound and accepts; and a
    listing whose model is the empty string is rejected although the
    empty string is a member of the model set. *)
Lemma matchesFilters_not_as_stated :
  (@matchesFilters Sample.builtins listing_5 (Some filters_min_infinite) = true /\
   @matches_as_stated Sample.builtins listing_5 filters_min_infinite = false) /\
  (@matchesFilters Sample.builtins listing_unnamed (Some filters_empty_name) = false /\
   @matches_as_stated Sample.builtins listing_unnamed filters_empty_name = true).
Proof. repeat split; vm_compute; reflexivity. Qed.

(** The specification's scenario: price 5 under [0, 10], no model set. *)
Example matchesFilters_scenario :
  @matchesFilters Sample.builtins listing_5
    (Some {| tab := listing; minTon := JsNum.zero; maxTon := JsNum.ofZ 10;
             models := [] |}) = true.
Proof. vm_compute. reflexivity. Qed.

End MatcherFacts.

(** ** The dedup cache *)

Module SeenFacts.
Import Seen Samples.

Lemma filter_filter {A : Type} (f g : A -> bool) (l : list A) :
  List.filter f (List.filter g l) = List.filter (fun x => g x && f x) l.
Proof.
  induction l as [|a l IH]; simpl; [reflexivity|].
  destruct (g a); simpl; [destruct (f a); simpl; congruence|exact IH].
Qed.

Lemma filter_all {A : Type} (l : list A) : List.filter (fun _ => true) l = l.
Proof. induction l; simpl; congruence. Qed.

Lemma In_skipn {A : Type} (x : A) (n : nat) (l : list A) :
  In x (skipn n l) -> In x l.
Proof.
  revert l. induction n as [|n IH]; intros [|a l]; simpl; auto.
Qed.

Lemma keys_filter_In (f : string * Z -> bool) (k : string) (seen : SeenMap) :
  In k (keys (List.filter f seen)) -> In k (keys seen).
Proof.
  unfold keys. rewrite !in_map_iff.
  intros [e [He Hin]]. apply filter_In in Hin. exists e. tauto.
Qed.

Lemma wf_filter (f : string * Z -> bool) (seen : SeenMap) :
  wf seen -> wf (List.filter f seen).
Proof.
  unfold wf. induction seen as [|[k ts] seen IH]; simpl; intros Hwf.
  - constructor.
  - inversion Hwf as [|? ? Hk Hrest]; subst.
    destruct (f (k, ts)); simpl; [|auto].
    constructor; [|auto].
    intros Hin. apply Hk. eapply keys_filter_In. exact Hin.
Qed.

Lemma wf_skipn (n : nat) (seen : SeenMap) : wf seen -> wf (skipn n seen).
Proof.
  unfold wf. revert seen. induction n as [|n IH]; intros [|e seen] Hwf; simpl; auto.
  inversion Hwf; subst. auto.
Qed.

Lemma delete_absent (k : string) (seen : SeenMap) :
  ~ In k (keys seen) -> delete k seen = seen.
Proof.
  unfold delete. induction seen as [|[k' ts] seen IH]; simpl; intros Hk; auto.
  destruct (String.eqb k' k) eqn:E.
  - apply String.eqb_eq in E. tauto.
  - simpl. f_equal. apply IH. tauto.
Qed.

Lemma delete_head (k : string) (ts : Z) (seen : SeenMap) :
  wf ((k, ts) :: seen) -> delete k ((k, ts) :: seen) = seen.
Proof.
  intros Hwf. inversion Hwf; subst. unfold delete. simpl.
  rewrite String.eqb_refl. simpl. apply delete_absent. assumption.
Qed.

Lemma sweepExpired_filter (now : Z) (pending : list (string * Z)) (seen : SeenMap) :
  sweepExpired now pending seen =
  List.filter
    (fun e => negb (existsb (fun p => String.eqb (fst p) (fst e) && expired now (snd p))
                      pending)) seen.
Proof.
  revert seen. induction pending as [|[k ts] rest IH]; intros seen; simpl.
  - symmetry. apply filter_all.
  - rewrite IH. destruct (expired now ts).
    + unfold delete. rewrite filter_filter. apply filter_ext.
      intros [k' ts']. simpl. rewrite (String.eqb_sym k' k).
      destruct (String.eqb k k'); reflexivity.
    + apply filter_ext. intros e. rewrite andb_false_r. reflexivity.
Qed.

Lemma no_entry_for_absent_key (g : string * Z -> bool) (k : string) (seen : SeenMap) :
  ~ In k (keys seen) ->
  existsb (fun p => String.eqb (fst p) k && g p) seen = false.
Proof.
  induction seen as [|[k' ts] seen IH]; simpl; intros Hk; [reflexivity|].
  destruct (String.eqb k' k) eqn:E.
  - apply String.eqb_eq in E. tauto.
  - simpl. apply IH. tauto.
Qed.

Lemma expired_entry (now : Z) (seen : SeenMap) (e : string * Z) :
  wf seen -> In e seen ->
  existsb (fun p => String.eqb (fst p) (fst e) && expired now (snd p)) seen
  = expired now (snd e).
Proof.
  unfold wf. induction seen as [|[k ts] seen IH]; simpl; intros Hwf Hin; [tauto|].
  inversion Hwf as [|? ? Hk Hrest]; subst. destruct Hin as [<-|Hin].
  - simpl. rewrite String.eqb_refl. simpl.
    rewrite (no_entry_for_absent_key _ k seen Hk). apply orb_false_r.
  - destruct (String.eqb k (fst e)) eqn:E.
    + apply String.eqb_eq in E. exfalso. apply Hk. subst k.
      unfold keys. apply in_map. exact Hin.
    + simpl. apply IH; assumption.
Qed.

(** The first loop removes exactly the aged-out entries. *)
Lemma sweepExpired_live (now : Z) (seen : SeenMap) :
  wf seen -> sweepExpired now seen seen = live now seen.
Proof.
  intros Hwf. rewrite sweepExpired_filter. unfold live.
  apply filter_ext_in. intros e He. rewrite (expired_entry now seen e Hwf He).
  reflexivity.
Qed.

(** The second loop removes the first [extra - i] entries. *)
Lemma evictOldest_skipn (seen : SeenMap) (i extra : Z) :
  wf seen -> i < extra ->
  evictOldest (keys seen) i extra seen = skipn (Z.to_nat (extra - i)) seen.
Proof.
  revert i. induction seen as [|[k ts] seen IH]; intros i Hwf Hi.
  - simpl. destruct (Z.to_nat (extra - i)); reflexivity.
  - cbn [keys map fst evictOldest]. rewrite (delete_head k ts seen Hwf).
    assert (wf seen) as Hwf' by (inversion Hwf; assumption).
    destruct (i + 1 >=? extra) eqn:E.
    + assert (extra - i = 1) as -> by lia. reflexivity.
    + assert (Z.to_nat (extra - i) = S (Z.to_nat (extra - (i + 1)))) as -> by lia.
      cbn [skipn]. apply (IH (i + 1) Hwf'). lia.
Qed.

(** [cleanupSeen] in closed form: drop the aged-out entries, then drop the
    oldest of what is left, as many as exceed the capacity. *)
Lemma cleanupSeen_closed (now : Z) (seen : SeenMap) :
  wf seen ->
  cleanupSeen now seen =
  skipn (Z.to_nat (size (live now seen) - SEEN_MAX)) (live now seen).
Proof.
  intros Hwf. unfold cleanupSeen. rewrite (sweepExpired_live now seen Hwf).
  destruct (size (live now seen) <=? SEEN_MAX) eqn:E.
  - assert (Z.to_nat (size (live now seen) - SEEN_MAX) = 0%nat) as -> by lia.
    reflexivity.
  - rewrite evictOldest_skipn; [|apply wf_filter; exact Hwf|lia].
    rewrite Z.sub_0_r. reflexivity.
Qed.

Lemma wf_cleanupSeen (now : Z) (seen : SeenMap) :
  wf seen -> wf (cleanupSeen now seen).
Proof.
  intros Hwf. rewrite (cleanupSeen_closed now seen Hwf).
  apply wf_skipn, wf_filter, Hwf.
Qed.

(** C6. After [cleanupSeen now] the map holds no entry older than the TTL
    and at most [SEEN_MAX] entries; what it holds is the entries that have
    not aged out, minus the oldest-inserted ones in excess of the
    capacity. *)
Theorem cleanupSeen_bounds (now : Z) (seen : SeenMap) :
  wf seen ->
  (forall k ts, In (k, ts) (cleanupSeen now seen) -> now - ts <= SEEN_TTL_MS) /\
  size (cleanupSeen now seen) <= SEEN_MAX /\
  cleanupSeen now seen =
    skipn (Z.to_nat (size (live now seen) - SEEN_MAX)) (live now seen) /\
  wf (cleanupSeen now seen).
Proof.
  intros Hwf. split; [|split; [|split]].
  - intros k ts Hin. rewrite (cleanupSeen_closed now seen Hwf) in Hin.
    apply In_skipn in Hin. unfold live in Hin. apply filter_In in Hin.
    destruct Hin as [_ Hlive]. simpl in Hlive. unfold expired in Hlive.
    destruct (now - ts >? SEEN_TTL_MS) eqn:E; [discriminate|]. lia.
  - rewrite (cleanupSeen_closed now seen Hwf). unfold size.
    rewrite length_skipn. unfold SEEN_MAX. lia.
  - apply cleanupSeen_closed, Hwf.
  - apply wf_cleanupSeen, Hwf.
Qed.

(** *** The dedup gate over a sequence of deliveries *)

Lemma has_In_keys (h : string) (seen : SeenMap) :
  has h seen = true -> In h (keys seen).
Proof.
  unfold has. induction seen as [|[k ts] seen IH]; simpl; [discriminate|].
  destruct (String.eqb k h) eqn:E.
  - apply String.eqb_eq in E. auto.
  - auto.
Qed.

Lemma has_absent (h : string) (seen : SeenMap) :
  ~ In h (keys seen) -> has h seen = false.
Proof.
  intros Hh. destruct (has h seen) eqn:E; [|reflexivity].
  apply has_In_keys in E. tauto.
Qed.

Lemma keys_skipn_In (h : string) (n : nat) (seen : SeenMap) :
  In h (keys (skipn n seen)) -> In h (keys seen).
Proof.
  unfold keys. rewrite !in_map_iff. intros [e [He Hin]].
  exists e. split; [exact He|]. eapply In_skipn. exact Hin.
Qed.

Lemma has_filter (f : string * Z -> bool) (h : string) (seen : SeenMap) :
  wf seen ->
  has h (List.filter f seen) =
  match get h seen with
  | Some ts => f (h, ts)
  | None => false
  end.
Proof.
  unfold wf. induction seen as [|[k ts] seen IH]; simpl; intros Hwf; [reflexivity|].
  inversion Hwf as [|? ? Hk Hrest]; subst.
  destruct (String.eqb k h) eqn:E.
  - apply String.eqb_eq in E. subst k. destruct (f (h, ts)) eqn:Ef.
    + unfold has. simpl. rewrite String.eqb_refl. reflexivity.
    + apply has_absent. intros Hin. apply Hk. eapply keys_filter_In. exact Hin.
  - destruct (f (k, ts)).
    + unfold has in *. simpl. rewrite E. apply IH. exact Hrest.
    + apply IH. exact Hrest.
Qed.

Lemma has_live (now : Z) (h : string) (seen : SeenMap) :
  wf seen ->
  has h (live now seen) = has h seen && negb (aged_out now h seen).
Proof.
  intros Hwf. unfold live. rewrite (has_filter _ h seen Hwf).
  unfold has, aged_out. destruct (get h seen); reflexivity.
Qed.

Lemma has_skipn (h : string) (n : nat) (seen : SeenMap) :
  wf seen ->
  has h (skipn n seen) = has h seen && (n <=? position h seen)%nat.
Proof.
  unfold wf. revert seen. induction n as [|n IH]; intros seen Hwf.
  - simpl. rewrite andb_true_r. reflexivity.
  - destruct seen as [|[k ts] seen]; [reflexivity|].
    inversion Hwf as [|? ? Hk Hrest]; subst.
    cbn [skipn position]. unfold has at 2. cbn [get].
    destruct (String.eqb k h) eqn:E.
    + apply String.eqb_eq in E. subst k. simpl.
      apply has_absent. intros Hin. apply Hk. eapply keys_skipn_In. exact Hin.
    + rewrite (IH seen Hrest). reflexivity.
Qed.

(** A sweep keeps a hash exactly when the hash is in the map, has not aged
    out, and is not among the entries evicted for capacity. *)
Lemma has_cleanupSeen (now : Z) (h : string) (seen : SeenMap) :
  wf seen ->
  has h (cleanupSeen now seen) =
  has h seen && negb (aged_out now h seen) && negb (capacity_evicted now h seen).
Proof.
  intros Hwf. rewrite (cleanupSeen_closed now seen Hwf).
  rewrite has_skipn by (apply wf_filter; exact Hwf).
  rewrite (has_live now h seen Hwf). f_equal.
  unfold capacity_evicted.
  destruct (Z.of_nat (position h (live now seen)) <? size (live now seen) - SEEN_MAX)
    eqn:E; simpl.
  - apply Nat.leb_gt. lia.
  - apply Nat.leb_le. lia.
Qed.

Lemma has_set (h k : string) (ts : Z) (seen : SeenMap) :
  has h (set k ts seen) = String.eqb k h || has h seen.
Proof.
  unfold has. induction seen as [|[k' ts'] seen IH]; simpl.
  - destruct (String.eqb k h); reflexivity.
  - destruct (String.eqb k' k) eqn:E; simpl.
    + apply String.eqb_eq in E. subst k'.
      destruct (String.eqb k h); reflexivity.
    + destruct (String.eqb k' h); [apply eq_sym, orb_true_r|exact IH].
Qed.

Lemma keys_set_In (x k : string) (ts : Z) (seen : SeenMap) :
  In x (keys (set k ts seen)) <-> x = k \/ In x (keys seen).
Proof.
  induction seen as [|[k' ts'] seen IH]; simpl.
  - intuition.
  - destruct (String.eqb k' k) eqn:E; simpl.
    + apply String.eqb_eq in E. subst k'. intuition.
    + rewrite IH. intuition.
Qed.

Lemma wf_set (k : string) (ts : Z) (seen : SeenMap) :
  wf seen -> wf (set k ts seen).
Proof.
  unfold wf. induction seen as [|[k' ts'] seen IH]; simpl; intros Hwf.
  - constructor; [intros []|constructor].
  - inversion Hwf as [|? ? Hk Hrest]; subst.
    destruct (String.eqb k' k) eqn:E; simpl.
    + constructor; assumption.
    + constructor; [|auto].
      intros Hin. apply keys_set_In in Hin. destruct Hin as [->|Hin]; [|tauto].
      rewrite String.eqb_refl in E. discriminate.
Qed.

Lemma wf_dedupGate (now : Z) (k : string) (seen : SeenMap) :
  wf seen -> wf (snd (dedupGate now k seen)).
Proof.
  intros Hwf. unfold dedupGate.
  destruct (has k (cleanupSeen now seen)); simpl.
  - apply wf_cleanupSeen, Hwf.
  - apply wf_set, wf_cleanupSeen, Hwf.
Qed.

(** One delivery while [h] is held and survives the sweep: a delivery of
    [h] is dropped, and [h] is still held afterwards. *)
Lemma gate_keeps (now : Z) (h k : string) (seen : SeenMap) :
  has h (cleanupSeen now seen) = true ->
  (String.eqb k h && fst (dedupGate now k seen) = false) /\
  has h (snd (dedupGate now k seen)) = true.
Proof.
  intros Hh. unfold dedupGate.
  destruct (has k (cleanupSeen now seen)) eqn:Hk; simpl.
  - split; [apply andb_false_r|exact Hh].
  - split.
    + destruct (String.eqb k h) eqn:E; [|reflexivity].
      apply String.eqb_eq in E. congruence.
    + rewrite has_set, Hh. apply orb_true_r.
Qed.

Lemma duplicates_dropped (h : string) (trace : list (Z * string)) (seen : SeenMap) :
  wf seen -> has h seen = true -> in_window h seen trace = true ->
  processed h trace (fst (deliver seen trace)) = 0%nat /\
  forall i now, nth_error trace i = Some (now, h) ->
                nth_error (fst (deliver seen trace)) i = Some false.
Proof.
  revert seen. induction trace as [|[now k] rest IH]; intros seen Hwf Hh Hwin.
  - split; [reflexivity|]. intros [|i] now Hi; discriminate.
  - cbn [in_window] in Hwin.
    apply andb_prop in Hwin as [Hwin Hrest].
    apply andb_prop in Hwin as [Hage Hcap].
    assert (has h (cleanupSeen now seen) = true) as Hkept.
    { rewrite (has_cleanupSeen now h seen Hwf), Hh, Hage, Hcap. reflexivity. }
    destruct (gate_keeps now h k seen Hkept) as [Hflag Hnext].
    pose proof (wf_dedupGate now k seen Hwf) as Hwf1.
    cbn [deliver].
    destruct (dedupGate now k seen) as [b seen1] eqn:Hgate.
    cbn [fst snd] in *.
    destruct (IH seen1 Hwf1 Hnext Hrest) as [Hcount Hall].
    destruct (deliver seen1 rest) as [bs seen2] eqn:Hdel.
    cbn [fst] in *. split.
    + cbn [processed]. rewrite Hflag, Hcount. reflexivity.
    + intros [|i] now' Hi.
      * cbn [nth_error] in *. injection Hi as _ ->.
        rewrite String.eqb_refl in Hflag. simpl in Hflag. congruence.
      * cbn [nth_error] in *. eapply Hall. exact Hi.
Qed.

(** C2. Take a delivery of [h] at which the swept map does not hold [h],
    and any deliveries after it during which no sweep ages [h] out or
    evicts it for capacity. The gate lets that first delivery through and
    drops every later delivery of [h]: of the deliveries of [h], exactly
    one goes on to processing. *)
Theorem dedup_exactly_once
  (h : string) (now0 : Z) (trace : list (Z * string)) (seen : SeenMap) :
  wf seen ->
  has h (cleanupSeen now0 seen) = false ->
  in_window h (snd (dedupGate now0 h seen)) trace = true ->
  exists bs,
    fst (deliver seen ((now0, h) :: trace)) = true :: bs /\
    processed h ((now0, h) :: trace) (true :: bs) = 1%nat /\
    forall i now, nth_error trace i = Some (now, h) -> nth_error bs i = Some false.
Proof.
  intros Hwf Hnew Hwin.
  pose proof (wf_dedupGate now0 h seen Hwf) as Hwf1.
  assert (dedupGate now0 h seen = (true, set h now0 (cleanupSeen now0 seen))) as Hgate.
  { unfold dedupGate. rewrite Hnew. reflexivity. }
  rewrite Hgate in Hwin, Hwf1. cbn [snd] in *.
  assert (has h (set h now0 (cleanupSeen now0 seen)) = true) as Hh.
  { rewrite has_set, String.eqb_refl. reflexivity. }
  destruct (duplicates_dropped h trace _ Hwf1 Hh Hwin) as [Hcount Hall].
  cbn [deliver]. rewrite Hgate.
  destruct (deliver (set h now0 (cleanupSeen now0 seen)) trace) as [bs seen2].
  cbn [fst] in *. exists bs. split; [reflexivity|]. split; [|exact Hall].
  cbn [processed]. rewrite String.eqb_refl, Hcount. reflexivity.
Qed.


Lemma dedup_exactly_once_witness :
  exists bs,
    fst (deliver [] ((0, "h1") :: sample_trace)) = true :: bs /\
    processed "h1" ((0, "h1") :: sample_trace) (true :: bs) = 1%nat /\
    forall i now, nth_error sample_trace i = Some (now, "h1") ->
                  nth_error bs i = Some false.
Proof.
  apply (dedup_exactly_once "h1" 0 sample_trace []).
  - constructor.
  - reflexivity.
  - vm_compute. reflexivity.
Defined.

Lemma cleanupSeen_bounds_witness :
  (forall k ts, In (k, ts) (cleanupSeen 700000 [("a", 0); ("b", 200000)]) ->
                700000 - ts <= SEEN_TTL_MS) /\
  size (cleanupSeen 700000 [("a", 0); ("b", 200000)]) <= SEEN_MAX /\
  cleanupSeen 700000 [("a", 0); ("b", 200000)] =
    skipn (Z.to_nat (size (live 700000 [("a", 0); ("b", 200000)]) - SEEN_MAX))
      (live 700000 [("a", 0); ("b", 200000)]) /\
  wf (cleanupSeen 700000 [("a", 0); ("b", 200000)]).
Proof.
  apply (cleanupSeen_bounds 700000 [("a", 0); ("b", 200000)]).
  constructor; [|constructor; [|constructor]]; simpl; intuition discriminate.
Defined.

(** The sweep on examples: an aged-out entry goes, and a map of 10002
    fresh entries loses its two oldest. *)
Example cleanupSeen_ages_out :
  cleanupSeen 700000 [("a", 0); ("b", 200000)] = [("b", 200000)].
Proof. vm_compute. reflexivity. Qed.


Example cleanupSeen_evicts_oldest :
  size (cleanupSeen 1 crowded) = SEEN_MAX /\
  has "0" (cleanupSeen 1 crowded) = false /\
  has "1" (cleanupSeen 1 crowded) = false /\
  has "2" (cleanupSeen 1 crowded) = true.
Proof. vm_compute. repeat split. Qed.

(** After the TTL a repeated hash is let through again. *)
Example dedup_after_ttl :
  fst (deliver [] [(0, "h1"); (600000, "h1"); (600001, "h1")]) = [true; false; true].
Proof. vm_compute. reflexivity. Qed.

End SeenFacts.

(** ** Amount normalisation *)

Module AmountFacts.
Import Extract.

(** The possible results of rounding with sign [sx]. *)
Lemma binary_round_aux_shape (sx : bool) (mx ex : Z) (lx : location) :
  let r := binary_round_aux JsNum.prec JsNum.emax sx mx ex lx in
  r = S754_zero sx \/ r = S754_infinity sx \/ r = S754_nan \/
  exists m e, r = S754_finite sx m e.
Proof.
  unfold binary_round_aux.
  destruct (shr_fexp JsNum.prec JsNum.emax mx ex lx) as [mrs1 e1].
  destruct (shr_fexp JsNum.prec JsNum.emax _ e1 loc_Exact) as [mrs2 e2].
  destruct (shr_m mrs2) as [|m|m]; simpl; auto.
  destruct (Z.leb e2 (JsNum.emax - JsNum.prec)); eauto 6.
Qed.

Lemma scaleThreshold_value :
  scaleThreshold = S754_finite false 8589934592000000 (-33).
Proof. vm_compute. reflexivity. Qed.

Lemma nanoPerTon_value :
  nanoPerTon = S754_finite false 8388608000000000 (-23).
Proof. vm_compute. reflexivity. Qed.

(** Only a positive finite number or [Infinity] exceeds the threshold. *)
Lemma above_threshold_positive (x : number) :
  JsNum.isFinite x = true -> JsNum.gt x scaleThreshold = true ->
  exists m e, x = S754_finite false m e.
Proof.
  rewrite scaleThreshold_value. unfold JsNum.gt, SFltb.
  intros Hfin Hgt.
  destruct x as [s|s| |s m e]; simpl in *; try discriminate.
  destruct s; [discriminate|]. eauto.
Qed.

(** A rescaled finite number that is at most the threshold is finite. *)
Lemma rescale_le_finite (x : number) :
  JsNum.isFinite x = true ->
  JsNum.le (rescale x) scaleThreshold = true ->
  JsNum.isFinite (rescale x) = true.
Proof.
  intros Hx. unfold rescale.
  destruct (JsNum.gt x scaleThreshold) eqn:Hgt; [|intros _; exact Hx].
  destruct (above_threshold_positive x Hx Hgt) as [m [e ->]].
  rewrite nanoPerTon_value. unfold JsNum.div, SFdiv.
  destruct (SFdiv_core_binary _ _ _ _ _ _) as [[mz ez] lz].
  destruct (binary_round_aux_shape (xorb false false) mz ez lz)
    as [-> | [-> | [-> | [m' [e' ->]]]]];
    rewrite scaleThreshold_value; intros Hle; try reflexivity;
    discriminate Hle.
Qed.

Lemma le_not_gt (x y : number) : JsNum.le x y = true -> JsNum.gt x y = false.
Proof.
  unfold JsNum.le, JsNum.gt, SFleb, SFltb.
  rewrite (JsNumFacts.compare_antisym x y).
  destruct (SFcompare x y) as [[]|]; simpl; congruence.
Qed.

Section WithBuiltins.
Context `{Builtins}.

(** [toTon] never throws: it is the scalar branch at the value itself, at
    its [value] property, or at nothing. *)
Lemma toTon_scalar (v : value) : exists w, toTon v = Ok (toTonScalar w).
Proof.
  unfold toTon, Js.get.
  destruct v as [| |b|x|s|items|props];
    cbn [Js.truthy Js.is_object Js.typeof andb bindR];
    try (exists VNull; reflexivity);
    try (exists VNull; destruct b; reflexivity);
    try (eexists; reflexivity).
  - destruct (Js.prop (VArr items) "value") as [| |b|x|s|items'|props'];
      try (exists VNull; reflexivity); eexists; reflexivity.
  - destruct (Js.prop (VObj props) "value") as [| |b|x|s|items'|props'];
      try (exists VNull; reflexivity); eexists; reflexivity.
Qed.

(** What [toTon] returns is a rescaled finite number. *)
Lemma toTon_result (v : value) (r : number) :
  toTon v = Ok (Some r) ->
  exists x, JsNum.isFinite x = true /\ r = rescale x.
Proof.
  destruct (toTon_scalar v) as [w ->]. intros [= Hw].
  destruct w as [| |b|x|s|items|props]; simpl in Hw; try discriminate.
  - destruct (JsNum.isFinite x) eqn:E; [|discriminate].
    injection Hw as <-. eauto.
  - destruct (JsNum.isFinite (parseNumber s)) eqn:E; [|discriminate].
    injection Hw as <-. eauto.
Qed.

(** C4, as the code has it. A second [toTon] (or [toTonMaybe]) leaves the
    result of the first unchanged whenever that result is at most the
    scale threshold 1,000,000; in particular a finite number at most the
    threshold is returned as it is. *)
Theorem toTon_idempotent_below_threshold (v : value) (r : number) :
  toTon v = Ok (Some r) ->
  JsNum.le r scaleThreshold = true ->
  toTon (VNum r) = Ok (Some r) /\ toTonMaybe r = r /\
  Twice.toTon_twice v = toTon v.
Proof.
  intros Hv Hle. destruct (toTon_result v r Hv) as [x [Hx ->]].
  pose proof (rescale_le_finite x Hx Hle) as Hfin.
  pose proof (le_not_gt _ _ Hle) as Hgt.
  assert (rescale (rescale x) = rescale x) as Hre.
  { unfold rescale at 1. rewrite Hgt. reflexivity. }
  assert (toTon (VNum (rescale x)) = Ok (Some (rescale x))) as Hagain.
  { unfold toTon, toTonScalar. rewrite Hfin, Hre. reflexivity. }
  split; [exact Hagain|]. split.
  - unfold toTonMaybe. rewrite Hfin. exact Hre.
  - unfold Twice.toTon_twice. rewrite Hv. exact Hagain.
Qed.

End WithBuiltins.

(** The scenario of the specification: 5_000_000_000 is read as 5 TON, and
    reading 5 again changes nothing. *)
Lemma toTon_idempotent_below_threshold_witness :
  @toTon Sample.builtins (VNum (JsNum.ofZ 5)) = Ok (Some (JsNum.ofZ 5)) /\
  toTonMaybe (JsNum.ofZ 5) = JsNum.ofZ 5 /\
  @Twice.toTon_twice Sample.builtins (VNum (JsNum.ofZ 5000000000)) =
  @toTon Sample.builtins (VNum (JsNum.ofZ 5000000000)).
Proof.
  apply (@toTon_idempotent_below_threshold Sample.builtins
           (VNum (JsNum.ofZ 5000000000)) (JsNum.ofZ 5)).
  - vm_compute. reflexivity.
  - vm_compute. reflexivity.
Defined.

(** C4, as stated, fails: 2e15 is read as 2,000,000, which is above the
    threshold, and reading that again divides once more. *)
Lemma toTon_rescales_twice :
  @toTon Sample.builtins (VNum (JsNum.ofZ 2000000000000000))
    = Ok (Some (JsNum.ofZ 2000000)) /\
  @Twice.toTon_twice Sample.builtins (VNum (JsNum.ofZ 2000000000000000))
    = Ok (Some (S754_finite false 4611686018427388 (-61))) /\
  @Twice.toTon_twice Sample.builtins (VNum (JsNum.ofZ 2000000000000000))
    <> @toTon Sample.builtins (VNum (JsNum.ofZ 2000000000000000)) /\
  toTonMaybe (toTonMaybe (JsNum.ofZ 2000000000000000))
    <> toTonMaybe (JsNum.ofZ 2000000000000000).
Proof.
  split; [vm_compute; reflexivity|].
  split; [vm_compute; reflexivity|].
  split; vm_compute; discriminate.
Qed.

End AmountFacts.

(** ** Payload extraction throws only when the stack runs out *)

Module ExtractFacts.
Import Extract.

Lemma returns_Ok {A : Type} (a : A) : returns (Ok a).
Proof. exists a. reflexivity. Qed.

#[local] Hint Resolve returns_Ok : core.

Lemma get_truthy (v : value) (k : string) :
  Js.truthy v = true -> Js.get v k = Ok (Js.prop v k).
Proof. destruct v; simpl; intros; try discriminate; reflexivity. Qed.

Section WithBuiltins.
Context `{Builtins}.

Lemma toTon_returns (v : value) : returns (toTon v).
Proof. destruct (AmountFacts.toTon_scalar v) as [w ->]. auto. Qed.

Lemma extractAddressFromNode_returns (node : value) :
  returns (extractAddressFromNode node).
Proof.
  unfold extractAddressFromNode.
  destruct (Js.truthy node) eqn:Ht; simpl; [|auto].
  rewrite !(get_truthy node _ Ht).
  destruct node; simpl; auto;
    repeat match goal with
           | |- context [if ?c then _ else _] => destruct c; simpl; auto
           end.
Qed.

Lemma stringAtKeys_returns (obj : value) (keys : list string) :
  Js.truthy obj = true -> returns (stringAtKeys obj keys).
Proof.
  intros Ht. induction keys as [|key rest IH]; simpl; [auto|].
  rewrite (get_truthy obj key Ht). simpl.
  destruct (Js.prop obj key); auto.
Qed.

Lemma numberAtKeys_returns (props : list (string * value)) (keys : list string) :
  returns (numberAtKeys (VObj props) keys).
Proof.
  induction keys as [|key rest IH]; simpl; [auto|].
  destruct (match Js.assoc key props with Some _ => true | None => false end); [|exact IH].
  destruct (toTon_returns
              (match Js.assoc key props with Some x => x | None => VUndefined end))
    as [t Ht].
  rewrite Ht. simpl. destruct t; auto.
Qed.

Lemma addressAtKeys_returns (props : list (string * value)) (keys : list string) :
  returns (addressAtKeys (VObj props) keys).
Proof.
  induction keys as [|key rest IH]; simpl; [auto|].
  destruct (match Js.assoc key props with Some _ => true | None => false end); [|exact IH].
  destruct (extractAddressFromNode_returns
              (match Js.assoc key props with Some x => x | None => VUndefined end))
    as [a Ha].
  rewrite Ha. simpl. destruct (found_truthy a); auto.
Qed.

(** *** How deep a value is nested *)

Lemma frames_pos (node : value) : (1 <= frames node)%nat.
Proof. destruct node; simpl; lia. Qed.

Lemma fold_max_le {A : Type} (f : A -> nat) (l : list A) (n : nat) :
  (fold_right (fun x m => Nat.max (f x) m) O l <= n)%nat <->
  List.Forall (fun x => (f x <= n)%nat) l.
Proof.
  induction l as [|x l IH]; simpl.
  - split; [constructor|lia].
  - split.
    + intros Hle. constructor; [lia|]. apply IH. lia.
    + intros Hall. inversion Hall; subst. apply IH in H3. lia.
Qed.

Lemma frames_items (items : list value) (room : nat) :
  (frames (VArr items) <= S room)%nat ->
  List.Forall (fun v => (frames v <= room)%nat) items.
Proof.
  change (frames (VArr items))
    with (S (fold_right (fun v n => Nat.max (frames v) n) O items)).
  intros Hle. apply fold_max_le. lia.
Qed.

Lemma frames_props (props : list (string * value)) (room : nat) :
  (frames (VObj props) <= S room)%nat ->
  List.Forall (fun kv => (frames (snd kv) <= room)%nat) props.
Proof.
  change (frames (VObj props))
    with (S (fold_right (fun kv n => Nat.max (frames (snd kv)) n) O props)).
  intros Hle. apply (fold_max_le (fun kv => frames (snd kv))). lia.
Qed.

Lemma frames_item (items : list value) (v : value) :
  In v items -> (frames v < frames (VArr items))%nat.
Proof.
  intros Hin. pose proof (frames_pos (VArr items)) as Hpos.
  assert (Hle : (frames (VArr items) <= S (frames (VArr items) - 1))%nat) by lia.
  apply frames_items in Hle. rewrite List.Forall_forall in Hle.
  specialize (Hle v Hin). cbv beta in Hle. lia.
Qed.

Lemma frames_value (props : list (string * value)) (k : string) (v : value) :
  In (k, v) props -> (frames v < frames (VObj props))%nat.
Proof.
  intros Hin. pose proof (frames_pos (VObj props)) as Hpos.
  assert (Hle : (frames (VObj props) <= S (frames (VObj props) - 1))%nat) by lia.
  apply frames_props in Hle. rewrite List.Forall_forall in Hle.
  specialize (Hle (k, v) Hin). cbv beta in Hle. change (snd (k, v)) with v in Hle. lia.
Qed.

Lemma assoc_In (k : string) (props : list (string * value)) (v : value) :
  Js.assoc k props = Some v -> exists k', In (k', v) props.
Proof.
  induction props as [|[k' v'] rest IH]; simpl; [discriminate|].
  destruct (String.eqb k' k).
  - intros [= ->]. eauto.
  - intros Hr. destruct (IH Hr) as [k'' Hin]. eauto.
Qed.

(** A property is nested no deeper than its holder. *)
Lemma frames_prop (v : value) (k : string) : (frames (Js.prop v k) <= frames v)%nat.
Proof.
  destruct v as [| |b|x|s|items|props]; try (simpl; lia).
  - unfold Js.prop. destruct (String.eqb k "length"); [simpl; lia|].
    destruct (Js.index_of_key (length items) k) as [i|]; [|simpl; lia].
    destruct (nth_in_or_default i items VUndefined) as [Hin | ->].
    + apply frames_item in Hin. lia.
    + simpl. lia.
  - unfold Js.prop. destruct (Js.assoc k props) as [v|] eqn:Ek; [|simpl; lia].
    destruct (assoc_In k props v Ek) as [k' Hin].
    apply frames_value in Hin. lia.
Qed.

Lemma frames_nest (n : nat) : frames (nest n) = S n.
Proof. induction n as [|n IH]; [reflexivity|]. simpl in *. rewrite IH. lia. Qed.

(** *** Within the room of the stack the searches return *)

Lemma findFirstStringByKeys_returns (keys : list string) (stack : nat) :
  forall node, (frames node <= stack)%nat ->
               returns (findFirstStringByKeys stack node keys).
Proof.
  induction stack as [|room IH]; intros node Hf.
  { pose proof (frames_pos node). lia. }
  destruct node as [| |b|x|s|items|props]; try (simpl; auto; fail).
  - simpl. destruct b; simpl; auto.
  - simpl. destruct (JsNum.truthy x); simpl; auto.
  - simpl. destruct (String.eqb s ""); simpl; auto.
  - apply frames_items in Hf. simpl.
    induction Hf as [|v rest Hv _ IHrest]; [auto|].
    destruct (IH v Hv) as [r Hr]. rewrite Hr. simpl.
    destruct (found_truthy r); auto.
  - apply frames_props in Hf. simpl.
    destruct (stringAtKeys_returns (VObj props) keys eq_refl) as [d Hd].
    rewrite Hd. simpl. destruct d as [s|]; [auto|]. clear Hd.
    induction Hf as [|[k v] rest Hv _ IHrest]; [auto|].
    simpl in Hv. destruct (IH v Hv) as [r Hr]. rewrite Hr. simpl.
    destruct (found_truthy r); auto.
Qed.

Lemma findFirstNumberLike_returns (keys : list string) (stack : nat) :
  forall node, (frames node <= stack)%nat ->
               returns (findFirstNumberLike stack node keys).
Proof.
  induction stack as [|room IH]; intros node Hf.
  { pose proof (frames_pos node). lia. }
  destruct node as [| |b|x|s|items|props]; try (simpl; auto; fail).
  - simpl. destruct b; simpl; auto.
  - simpl. destruct (JsNum.truthy x); simpl; auto.
  - simpl. destruct (String.eqb s ""); simpl; auto.
  - apply frames_items in Hf. simpl.
    induction Hf as [|v rest Hv _ IHrest]; [auto|].
    destruct (IH v Hv) as [r Hr]. rewrite Hr. simpl. destruct r; auto.
  - apply frames_props in Hf.
    cbn [findFirstNumberLike Js.truthy negb Js.is_object Js.typeof].
    destruct (numberAtKeys_returns props keys) as [d Hd].
    rewrite Hd. cbn [bindR]. destruct d as [t|]; [auto|]. clear Hd.
    induction Hf as [|[k v] rest Hv _ IHrest]; [auto|].
    simpl in Hv. destruct (IH v Hv) as [r Hr]. rewrite Hr. cbn [bindR].
    destruct r; auto.
Qed.

Lemma findFirstAddressByKeys_returns (keys : list string) (stack : nat) :
  forall node, (frames node <= stack)%nat ->
               returns (findFirstAddressByKeys stack node keys).
Proof.
  induction stack as [|room IH]; intros node Hf.
  { pose proof (frames_pos node). lia. }
  destruct node as [| |b|x|s|items|props]; try (simpl; auto; fail).
  - simpl. destruct b; simpl; auto.
  - simpl. destruct (JsNum.truthy x); simpl; auto.
  - simpl. destruct (String.eqb s ""); simpl; auto.
  - apply frames_items in Hf. simpl.
    induction Hf as [|v rest Hv _ IHrest]; [auto|].
    destruct (IH v Hv) as [r Hr]. rewrite Hr. simpl.
    destruct (found_truthy r); auto.
  - apply frames_props in Hf.
    cbn [findFirstAddressByKeys Js.truthy negb Js.is_object Js.typeof].
    destruct (addressAtKeys_returns props keys) as [d Hd].
    rewrite Hd. cbn [bindR]. destruct d as [a|]; [auto|]. clear Hd.
    induction Hf as [|[k v] rest Hv _ IHrest]; [auto|].
    simpl in Hv. destruct (IH v Hv) as [r Hr]. rewrite Hr. cbn [bindR].
    destruct (found_truthy r); auto.
Qed.

Lemma findAllStringsByKey_returns (key : string) (stack : nat) :
  forall node out, (frames node <= stack)%nat ->
                   returns (findAllStringsByKey stack node key out).
Proof.
  induction stack as [|room IH]; intros node out Hf.
  { pose proof (frames_pos node). lia. }
  destruct node as [| |b|x|s|items|props]; try (simpl; auto; fail).
  - simpl. destruct b; simpl; auto.
  - simpl. destruct (JsNum.truthy x); simpl; auto.
  - simpl. destruct (String.eqb s ""); simpl; auto.
  - apply frames_items in Hf. simpl. revert out.
    induction Hf as [|v rest Hv _ IHrest]; intros out; [auto|].
    destruct (IH v out Hv) as [r Hr]. rewrite Hr. simpl. apply IHrest.
  - apply frames_props in Hf. simpl. revert out.
    induction Hf as [|[k v] rest Hv _ IHrest]; intros out; [auto|].
    simpl in Hv.
    match goal with
    | |- context [findAllStringsByKey room v key ?o] =>
        destruct (IH v o Hv) as [r Hr]
    end.
    rewrite Hr. simpl. apply IHrest.
Qed.

(** *** Nothing else is thrown *)

Lemma only_RangeError_Ok {A : Type} (a : A) : only_RangeError (Ok a).
Proof. exact I. Qed.

#[local] Hint Resolve only_RangeError_Ok : core.

Lemma findFirstStringByKeys_throws (keys : list string) (stack : nat) :
  forall node, only_RangeError (findFirstStringByKeys stack node keys).
Proof.
  induction stack as [|room IH]; intros node.
  { destruct node; reflexivity. }
  destruct node as [| |b|x|s|items|props]; try (simpl; auto; fail).
  - simpl. destruct b; simpl; auto.
  - simpl. destruct (JsNum.truthy x); simpl; auto.
  - simpl. destruct (String.eqb s ""); simpl; auto.
  - simpl. induction items as [|v rest IHrest]; [auto|].
    pose proof (IH v) as Hv.
    destruct (findFirstStringByKeys room v keys) as [r|e]; simpl; [|exact Hv].
    destruct (found_truthy r); auto.
  - simpl.
    destruct (stringAtKeys_returns (VObj props) keys eq_refl) as [d Hd].
    rewrite Hd. simpl. destruct d as [s|]; [auto|]. clear Hd.
    induction props as [|[k v] rest IHrest]; [auto|].
    pose proof (IH v) as Hv.
    destruct (findFirstStringByKeys room v keys) as [r|e]; simpl; [|exact Hv].
    destruct (found_truthy r); auto.
Qed.

Lemma findFirstNumberLike_throws (keys : list string) (stack : nat) :
  forall node, only_RangeError (findFirstNumberLike stack node keys).
Proof.
  induction stack as [|room IH]; intros node.
  { destruct node; reflexivity. }
  destruct node as [| |b|x|s|items|props]; try (simpl; auto; fail).
  - simpl. destruct b; simpl; auto.
  - simpl. destruct (JsNum.truthy x); simpl; auto.
  - simpl. destruct (String.eqb s ""); simpl; auto.
  - simpl. induction items as [|v rest IHrest]; [auto|].
    pose proof (IH v) as Hv.
    destruct (findFirstNumberLike room v keys) as [r|e]; simpl; [|exact Hv].
    destruct r; auto.
  - cbn [findFirstNumberLike Js.truthy negb Js.is_object Js.typeof].
    destruct (numberAtKeys_returns props keys) as [d Hd].
    rewrite Hd. cbn [bindR]. destruct d as [t|]; [auto|]. clear Hd.
    induction props as [|[k v] rest IHrest]; [auto|].
    pose proof (IH v) as Hv.
    destruct (findFirstNumberLike room v keys) as [r|e]; cbn [bindR]; [|exact Hv].
    destruct r; auto.
Qed.

Lemma findFirstAddressByKeys_throws (keys : list string) (stack : nat) :
  forall node, only_RangeError (findFirstAddressByKeys stack node keys).
Proof.
  induction stack as [|room IH]; intros node.
  { destruct node; reflexivity. }
  destruct node as [| |b|x|s|items|props]; try (simpl; auto; fail).
  - simpl. destruct b; simpl; auto.
  - simpl. destruct (JsNum.truthy x); simpl; auto.
  - simpl. destruct (String.eqb s ""); simpl; auto.
  - simpl. induction items as [|v rest IHrest]; [auto|].
    pose proof (IH v) as Hv.
    destruct (findFirstAddressByKeys room v keys) as [r|e]; simpl; [|exact Hv].
    destruct (found_truthy r); auto.
  - cbn [findFirstAddressByKeys Js.truthy negb Js.is_object Js.typeof].
    destruct (addressAtKeys_returns props keys) as [d Hd].
    rewrite Hd. cbn [bindR]. destruct d as [a|]; [auto|]. clear Hd.
    induction props as [|[k v] rest IHrest]; [auto|].
    pose proof (IH v) as Hv.
    destruct (findFirstAddressByKeys room v keys) as [r|e]; cbn [bindR]; [|exact Hv].
    destruct (found_truthy r); auto.
Qed.




End WithBuiltins.



End ExtractFacts.

(** ** The Telegram dispatcher *)

Module TelegramFacts.
Import Telegram Samples.

Lemma post_raises (o : fetchOutcome) (what : string) :
  raises (post o what) <-> failed o = true.
Proof.
  unfold raises. destruct o as [|[|]]; simpl; split; intros Hf;
    try reflexivity; try discriminate; try (destruct Hf; discriminate); eauto.
Qed.

Lemma post_ok (o : fetchOutcome) (what : string) :
  failed o = false -> post o what = Ok tt.
Proof. destruct o as [|[|]]; simpl; intros; try discriminate; reflexivity. Qed.

Lemma post_throw (o : fetchOutcome) (what : string) :
  failed o = true -> exists e, post o what = Throw e.
Proof. destruct o as [|[|]]; simpl; intros; try discriminate; eauto. Qed.

(** C5. [sendTelegramAlert] raises exactly when it sends the text message
    and that send fails. With a photo URL whose send succeeds it returns
    after that one request; a failed photo send is swallowed and followed
    by the text send, whose outcome is the outcome of the call; without a
    photo URL the text send is the only request. *)
Theorem sendTelegramAlert_errors (net : request -> fetchOutcome) (opts : AlertOpts) :
  let text := SendMessage (caption opts) in
  let outcome := post (net text) "Telegram sendMessage failed" in
  (raises (fst (sendTelegramAlert net opts)) <->
     In text (snd (sendTelegramAlert net opts)) /\ failed (net text) = true) /\
  (forall url, photoUrl opts = Some url -> url <> "" ->
     failed (net (SendPhoto url (caption opts))) = false ->
     sendTelegramAlert net opts = (Ok tt, [SendPhoto url (caption opts)])) /\
  (forall url, photoUrl opts = Some url -> url <> "" ->
     failed (net (SendPhoto url (caption opts))) = true ->
     sendTelegramAlert net opts = (outcome, [SendPhoto url (caption opts); text])) /\
  (photoUrl opts = None \/ photoUrl opts = Some "" ->
     sendTelegramAlert net opts = (outcome, [text])).
Proof.
  intros text outcome. unfold sendTelegramAlert, sendText.
  fold text. fold outcome.
  assert (raises outcome <-> failed (net text) = true) as Hout
    by apply post_raises.
  split; [|split; [|split]].
  - destruct (photoUrl opts) as [url|]; simpl.
    + destruct (String.eqb url "") eqn:Eurl; simpl.
      * rewrite Hout. intuition.
      * destruct (post (net (SendPhoto url (caption opts))) _) eqn:Ephoto; simpl.
        -- split.
           ++ intros [e He]. discriminate.
           ++ intros [[Hin|[]] _]. discriminate.
        -- rewrite Hout. intuition.
    + rewrite Hout. intuition.
  - intros url -> Hne Hok. apply String.eqb_neq in Hne. rewrite Hne. simpl.
    rewrite (post_ok _ _ Hok). reflexivity.
  - intros url -> Hne Hfail. apply String.eqb_neq in Hne. rewrite Hne. simpl.
    destruct (post_throw _ "Telegram sendPhoto failed" Hfail) as [e ->].
    reflexivity.
  - intros [-> | ->]; reflexivity.
Qed.


(** The photo send is refused and the text send succeeds: no error. *)
Example photo_failure_falls_back :
  sendTelegramAlert
    (fun r => match r with SendPhoto _ _ => Response false | SendMessage _ => Response true end)
    sample_opts
  = (Ok tt, [SendPhoto "https://example.org/p.png" "*LISTING*"; SendMessage "*LISTING*"]).
Proof. reflexivity. Qed.

(** Both sends fail: the error of the text send reaches the caller. *)
Example text_failure_propagates :
  sendTelegramAlert (fun _ => NetworkError) sample_opts
  = (Throw (Error "fetch failed"),
     [SendPhoto "https://example.org/p.png" "*LISTING*"; SendMessage "*LISTING*"]).
Proof. reflexivity. Qed.

End TelegramFacts.

(** ** The preference store *)

Module SampleFacts.
Import Sample.


Lemma trimStart_head (s : string) : head_kept (trimStart s).
Proof.
  induction s as [|c rest IH]; simpl; [exact I|].
  destruct (is_space c) eqn:E; [exact IH|exact E].
Qed.

Lemma trimStart_fixed (s : string) : head_kept s -> trimStart s = s.
Proof. destruct s as [|c rest]; simpl; [reflexivity|]. intros ->. reflexivity. Qed.

Lemma trimEnd_head (s : string) : head_kept s -> head_kept (trimEnd s).
Proof.
  destruct s as [|c rest]; simpl; [auto|]. intros Hc.
  destruct (trimEnd rest); [rewrite Hc|]; exact Hc.
Qed.

Lemma trimEnd_idempotent (s : string) : trimEnd (trimEnd s) = trimEnd s.
Proof.
  induction s as [|c rest IH]; simpl; [reflexivity|].
  destruct (trimEnd rest) as [|d r] eqn:E.
  - destruct (is_space c) eqn:Ec; simpl; [reflexivity|]. rewrite Ec. reflexivity.
  - change (trimEnd (String c (String d r)))
      with (match trimEnd (String d r) with
            | EmptyString => if is_space c then EmptyString else String c EmptyString
            | r' => String c r'
            end).
    rewrite IH. reflexivity.
Qed.

Lemma trim_ascii_idempotent (s : string) : trim_ascii (trim_ascii s) = trim_ascii s.
Proof.
  unfold trim_ascii.
  rewrite (trimStart_fixed (trimEnd (trimStart s)))
    by apply trimEnd_head, trimStart_head.
  apply trimEnd_idempotent.
Qed.

Lemma lower_empty (s : string) : lower s = "" <-> s = "".
Proof. destruct s; simpl; split; intros; try discriminate; reflexivity. Qed.

Lemma laws : BuiltinsLaws builtins.
Proof.
  constructor.
  - exact trim_ascii_idempotent.
  - exact lower_empty.
Qed.

End SampleFacts.

Module BackendFacts.
Import Backend Samples.

Lemma max_zero_nonneg (x : number) :
  JsNum.isFinite x = true ->
  JsNum.isFinite (JsNum.max JsNum.zero x) = true /\
  JsNum.le JsNum.zero (JsNum.max JsNum.zero x) = true.
Proof.
  destruct x as [s|s| |s m e]; simpl; try discriminate; intros _.
  - split; reflexivity.
  - destruct s; split; reflexivity.
Qed.

(** Negative values are clamped to [0]. *)
Lemma max_zero_negative (x : number) :
  JsNum.lt x JsNum.zero = true -> JsNum.isFinite x = true ->
  JsNum.max JsNum.zero x = JsNum.zero.
Proof.
  destruct x as [s|s| |s m e]; simpl; try discriminate.
  destruct s; [reflexivity|discriminate].
Qed.

Lemma In_firstn {A : Type} (x : A) (n : nat) (l : list A) :
  In x (firstn n l) -> In x l.
Proof.
  revert l. induction n as [|n IH]; intros [|a l]; simpl; try tauto.
  intros [->|Hin]; auto.
Qed.

Section WithBuiltins.
Context `{L : BuiltinsLaws}.

Lemma asNumber_finite (v : value) (def : number) :
  JsNum.isFinite def = true -> JsNum.isFinite (asNumber v def) = true.
Proof.
  intros Hdef. unfold asNumber.
  destruct (JsNum.isFinite (coerce v)) eqn:E; assumption.
Qed.

Lemma five_thousand_finite : JsNum.isFinite (JsNum.ofZ 5000) = true.
Proof. vm_compute. reflexivity. Qed.

Lemma models_normalized (raw : list value) :
  let ms := firstn 500 (List.filter nonempty (map (fun m => trim (ToString m)) raw)) in
  (length ms <= 500)%nat /\ List.Forall (fun s => s <> "" /\ trim s = s) ms.
Proof.
  intros ms. split.
  - unfold ms. rewrite length_firstn. lia.
  - apply List.Forall_forall. intros s Hs. unfold ms in Hs.
    apply In_firstn in Hs. apply filter_In in Hs as [Hin Hne].
    split.
    + unfold nonempty in Hne. intros ->. discriminate.
    + apply in_map_iff in Hin as [m [<- _]]. apply trim_idempotent.
Qed.

Lemma normalizeFilters_normalized (input : value) :
  normalized (normalizeFilters input).
Proof.
  unfold normalized, normalizeFilters. cbn [tab minTon maxTon models].
  match goal with
  | |- context [asNumber ?v JsNum.zero] =>
      destruct (max_zero_nonneg (asNumber v JsNum.zero)
                  (asNumber_finite v JsNum.zero eq_refl)) as [Hmin1 Hmin2]
  end.
  match goal with
  | |- context [asNumber ?v (JsNum.ofZ 5000)] =>
      destruct (max_zero_nonneg (asNumber v (JsNum.ofZ 5000))
                  (asNumber_finite v _ five_thousand_finite)) as [Hmax1 Hmax2]
  end.
  match goal with
  | |- context [map _ ?raw] => destruct (models_normalized raw) as [Hlen Hall]
  end.
  repeat split; assumption.
Qed.

(** [Math.max(0, x)] on a finite [x]: [x] when it is positive, else [0]. *)
Lemma max_zero_as_stated (x : number) :
  JsNum.isFinite x = true ->
  JsNum.max JsNum.zero x = if JsNum.gt x JsNum.zero then x else JsNum.zero.
Proof.
  destruct x as [s|s| |s m e]; simpl; try discriminate; intros _.
  - destruct s; reflexivity.
  - unfold JsNum.gt. destruct (SFltb JsNum.zero (S754_finite s m e)); reflexivity.
Qed.

Lemma bound_follows (v : value) (def : number) :
  JsNum.max JsNum.zero def = def ->
  JsNum.max JsNum.zero (asNumber v def) = bound_as_stated v def.
Proof.
  intros Hdef. unfold asNumber, bound_as_stated, coerce, numeric_reading.
  destruct (JsNum.isFinite (match v with VNum x => x | _ => ToNumber v end)) eqn:Hfin;
    cbn [negb].
  - apply max_zero_as_stated, Hfin.
  - exact Hdef.
Qed.

Lemma normalizeTab_follows (v : value) :
  (normalizeTab v = sale <-> tab_text v = "sale") /\
  (normalizeTab v = rent <-> tab_text v = "rent") /\
  (normalizeTab v = listing <-> tab_text v <> "sale" /\ tab_text v <> "rent").
Proof.
  unfold normalizeTab. fold (tab_text v).
  destruct (String.eqb (tab_text v) "sale") eqn:Es.
  - apply String.eqb_eq in Es. rewrite Es.
    repeat split; intros; try discriminate; try reflexivity; tauto.
  - apply String.eqb_neq in Es.
    destruct (String.eqb (tab_text v) "rent") eqn:Er.
    + apply String.eqb_eq in Er. rewrite Er.
      repeat split; intros; try discriminate; try reflexivity; tauto.
    + apply String.eqb_neq in Er.
      repeat split; intros; try discriminate; try reflexivity; try tauto;
        try contradiction.
Qed.

Lemma normalizeFilters_as_stated (input : value) :
  stored_as_stated input (normalizeFilters input).
Proof.
  unfold stored_as_stated. split; [|split; [|split; [|split]]].
  - unfold tab_follows, normalizeFilters. cbn [tab]. apply normalizeTab_follows.
  - unfold normalizeFilters. cbn [minTon]. apply bound_follows. reflexivity.
  - unfold normalizeFilters. cbn [maxTon]. apply bound_follows.
    vm_compute. reflexivity.
  - reflexivity.
  - apply normalizeFilters_normalized.
Qed.

End WithBuiltins.

(** *** The store *)

(** What was assigned under a key is what the key reads. *)
Lemma read_assign (userKey : string) (next : Filters) (store : FiltersStore) :
  read (assign userKey next store) userKey = Record_ next.
Proof.
  unfold assign, read.
  destruct (own store !! userKey) as [old|] eqn:Hown; cbn [own proto].
  - rewrite lookup_insert_eq. reflexivity.
  - destruct (String.eqb userKey "__proto__") eqn:Ep; cbn [own proto].
    + rewrite Hown. reflexivity.
    + rewrite lookup_insert_eq. reflexivity.
Qed.

(** A record read under another key was there before. *)
Lemma read_assign_other (userKey k : string) (next f : Filters) (store : FiltersStore) :
  k <> userKey ->
  read (assign userKey next store) k = Record_ f -> read store k = Record_ f.
Proof.
  intros Hk. unfold assign, read.
  assert (Hsame : forall m : gmap string Filters, <[userKey := next]> m !! k = m !! k).
  { intros m. apply lookup_insert_ne. congruence. }
  destruct (own store !! userKey) as [old|] eqn:Hown; cbn [own proto].
  - rewrite Hsame. auto.
  - destruct (String.eqb userKey "__proto__") eqn:Ep; cbn [own proto].
    + apply String.eqb_eq in Ep.
      destruct (own store !! k); [auto|].
      destruct (String.eqb k "__proto__") eqn:Ek.
      * apply String.eqb_eq in Ek. congruence.
      * destruct (named record_fields k); [discriminate|].
        destruct (named prototype_methods k); discriminate.
    + rewrite Hsame. auto.
Qed.

Section WithBuiltins.
Context `{L : BuiltinsLaws}.

(** C10, as the code has it. Whatever the request body, [PUT
    /api/filters] either refuses the request and leaves the store alone,
    or stores under the user key, so that the key then reads it, the
    record made of [body.filters]: its tab is [sale] or [rent] when the
    submitted tab, as text in lower case, says so, and [listing]
    otherwise; each bound is the default, [0] or [5000], when the
    submitted value does not read as a finite number, the number read
    when that is positive, and [0] when it is negative or a zero; its
    models are the trimmed texts of the submitted ones, the empty ones
    left out, and of these the first 500. Every record the new store
    reads is one
    the old store read or has finite bounds of at least [0] and such
    models. *)
Theorem putFilters_stores_normalized
  (req : PutRequest) (filtersStore : FiltersStore) :
  match putFilters req filtersStore with
  | (Unauthorized, store') => store' = filtersStore
  | (Stored userKey next, store') =>
      read store' userKey = Record_ next /\
      stored_as_stated (Js.prop (object_or_empty (body req)) "filters") next
  end /\
  (forall k f, read (snd (putFilters req filtersStore)) k = Record_ f ->
               read filtersStore k = Record_ f \/ normalized f).
Proof.
  unfold putFilters.
  destruct (negb (verified_ok req) && negb (tokenOk req)); cbn [snd].
  - split; [reflexivity|]. auto.
  - split.
    + split; [apply read_assign|apply normalizeFilters_as_stated].
    + intros k f Hk.
      destruct (String.eqb k (userKeyOf req (object_or_empty (body req)))) eqn:Ek.
      * apply String.eqb_eq in Ek. subst k. rewrite read_assign in Hk.
        injection Hk as <-. right. apply normalizeFilters_normalized.
      * apply String.eqb_neq in Ek. left.
        exact (read_assign_other _ k _ f filtersStore Ek Hk).
Qed.

End WithBuiltins.

Example putFilters_sample :
  fst (@putFilters Sample.builtins odd_request empty_store) =
  Stored "u1" {| tab := rent; minTon := JsNum.zero; maxTon := JsNum.ofZ 5000;
                 models := ["Plush Pepe"; "null"] |}.
Proof. vm_compute. reflexivity. Qed.

Lemma putFilters_stores_normalized_witness :
  match @putFilters Sample.builtins odd_request empty_store with
  | (Unauthorized, store') => store' = empty_store
  | (Stored userKey next, store') =>
      read store' userKey = Record_ next /\
      @stored_as_stated Sample.builtins
        (Js.prop (object_or_empty (body odd_request)) "filters") next
  end /\
  (forall k f, read (snd (@putFilters Sample.builtins odd_request empty_store)) k
               = Record_ f ->
               read empty_store k = Record_ f \/ @normalized Sample.builtins f).
Proof.
  exact (@putFilters_stores_normalized Sample.builtins SampleFacts.laws odd_request
           empty_store).
Defined.

(** C10, as stated, fails: [null] is not a number, yet [Number(null)] is
    [0], a finite number, so a [null] upper bound is stored as [0] and
    not replaced by the default [5000]. *)
Lemma null_bound_not_default :
  fst (@putFilters Sample.builtins null_bound_request empty_store) =
  Stored "default" {| tab := listing; minTon := JsNum.zero; maxTon := JsNum.zero;
                      models := [] |} /\
  JsNum.zero <> JsNum.ofZ 5000.
Proof. split; [vm_compute; reflexivity|vm_compute; discriminate]. Qed.

(** An assignment under [__proto__] adds no property: it replaces the
    prototype, and the key then reads the record all the same. *)
Example proto_key_replaces_prototype :
  assign "__proto__" Samples.filters_empty_name empty_store
    = {| own := ∅; proto := Some Samples.filters_empty_name |} /\
  read (assign "__proto__" Samples.filters_empty_name empty_store) "__proto__"
    = Record_ Samples.filters_empty_name /\
  read (assign "__proto__" Samples.filters_empty_name empty_store) "tab"
    = Field "tab" Samples.filters_empty_name /\
  read empty_store "constructor" = Method "constructor".
Proof. repeat split. Qed.

End BackendFacts.

(** ** Enrichment *)

Module EnrichmentFacts.
Import Enrichment.

#[local] Hint Resolve ExtractFacts.returns_Ok : core.

Section WithEnvironment.
Context `{Builtins} `{Env} `{Config}.

Lemma fits_nullish_or (a b : value) : fits a -> fits b -> fits (Js.nullish_or a b).
Proof. destruct a; simpl; auto. Qed.

Lemma fits_prop (v : value) (k : string) : fits v -> fits (Js.prop v k).
Proof. unfold fits. pose proof (ExtractFacts.frames_prop v k). lia. Qed.

(** On an item nested within the room of the stack the extraction
    returns. *)
Lemma extractFromNftItem_returns (nft : value) :
  fits nft -> returns (extractFromNftItem nft).
Proof.
  intros Hfit. unfold extractFromNftItem.
  destruct (not_object nft); [auto|].
  destruct (not_object (Js.nullish_or _ _)); [auto|].
  match goal with
  | |- context [Extract.findFirstStringByKeys stackRoom ?v ?ks] =>
      destruct (ExtractFacts.findFirstStringByKeys_returns ks stackRoom v) as [r ->]
  end.
  - apply fits_nullish_or; apply fits_prop, Hfit.
  - simpl. auto.
Qed.

(** Whatever the item, the extraction throws nothing but the
    [RangeError] of its search. *)
Lemma extractFromNftItem_throws (nft : value) :
  Extract.only_RangeError (extractFromNftItem nft).
Proof.
  unfold extractFromNftItem.
  destruct (not_object nft); [exact I|].
  destruct (not_object (Js.nullish_or _ _)); [exact I|].
  match goal with
  | |- context [Extract.findFirstStringByKeys stackRoom ?v ?ks] =>
      pose proof (ExtractFacts.findFirstStringByKeys_throws ks stackRoom v) as Hthrow;
      destruct (Extract.findFirstStringByKeys stackRoom v ks) as [r|e]
  end.
  - exact I.
  - exact Hthrow.
Qed.

(** A failed lookup yields no model. *)
Lemma extractFromNftItem_null : extractFromNftItem VNull = Ok nothing.
Proof. reflexivity. Qed.

Lemma json_or_null_failed (o : http) :
  lookup_failed o = true -> json_or_null o = VNull.
Proof. destruct o as [|[|] [v|]]; simpl; intros; try discriminate; reflexivity. Qed.

(** On a miss, [getModelByNftAddressCached] stores whatever the extraction
    gives for the answer of the request, found model or not. *)
Lemma getModel_miss (nftAddress : string) (w : World) (extracted : Extracted) :
  model_miss w nftAddress (clock (tick w)) = true ->
  extractFromNftItem (json_or_null (nftItemResponse (S (tick w)) nftAddress))
    = Ok extracted ->
  getModelByNftAddressCached nftAddress w =
    (Ok (e_model extracted),
     {| tick := S (S (tick w));
        nftModelCache :=
          <[nftAddress := {| ModelEntry.at' := clock (tick w);
                             ModelEntry.model := e_model extracted |}]>
            (nftModelCache w);
        recentSalesCache := recentSalesCache w |}).
Proof.
  intros Hmiss Hex.
  unfold getModelByNftAddressCached, bind, Date_now.
  assert (lookupModel nftAddress (clock (tick w)) (advance w) =
          (Ok (e_model extracted),
           {| tick := S (S (tick w));
              nftModelCache :=
                <[nftAddress := {| ModelEntry.at' := clock (tick w);
                                   ModelEntry.model := e_model extracted |}]>
                  (nftModelCache w);
              recentSalesCache := recentSalesCache w |})) as Hlookup.
  { unfold lookupModel, bind, tonapiGetNftItemByAddress, lift.
    cbn [advance tick]. rewrite Hex. reflexivity. }
  unfold model_miss in Hmiss. cbn [advance nftModelCache].
  destruct (nftModelCache w !! nftAddress) as [cached|].
  - destruct (fresh _ _ _); [discriminate|]. exact Hlookup.
  - exact Hlookup.
Qed.

(** When the extraction throws, nothing is stored. *)
Lemma getModel_miss_throw (nftAddress : string) (w : World) (e : exn) :
  model_miss w nftAddress (clock (tick w)) = true ->
  extractFromNftItem (json_or_null (nftItemResponse (S (tick w)) nftAddress))
    = Throw e ->
  getModelByNftAddressCached nftAddress w = (Throw e, advance (advance w)).
Proof.
  intros Hmiss Hex.
  unfold getModelByNftAddressCached, bind, Date_now.
  assert (lookupModel nftAddress (clock (tick w)) (advance w) =
          (Throw e, advance (advance w))) as Hlookup.
  { unfold lookupModel, bind, tonapiGetNftItemByAddress, lift.
    cbn [advance tick]. rewrite Hex. reflexivity. }
  unfold model_miss in Hmiss. cbn [advance nftModelCache].
  destruct (nftModelCache w !! nftAddress) as [cached|].
  - destruct (fresh _ _ _); [discriminate|]. exact Hlookup.
  - exact Hlookup.
Qed.

Lemma getModel_hit (nftAddress : string) (w : World) (cached : ModelEntry.t) :
  nftModelCache w !! nftAddress = Some cached ->
  fresh (clock (tick w)) (ModelEntry.at' cached) NFT_MODEL_CACHE_TTL_MS = true ->
  getModelByNftAddressCached nftAddress w = (Ok (ModelEntry.model cached), advance w).
Proof.
  intros Hc Hf. unfold getModelByNftAddressCached, bind, Date_now.
  cbn [advance nftModelCache]. rewrite Hc, Hf. reflexivity.
Qed.



(** C3, as the code has it. When no fresh entry answers,
    [getModelByNftAddressCached] caches what the lookup gave whether or
    not the lookup failed: after a failed lookup it returns [undefined]
    and writes the negative entry [{ at: now, model: undefined }], and
    after a lookup whose payload the extraction completes on it returns
    the extracted model and writes it in the entry -- the negative entry
    again when the payload has no model. *)
Theorem failed_lookup_is_cached (nftAddress : string) (w : World) :
  model_miss w nftAddress (clock (tick w)) = true ->
  (lookup_failed (nftItemResponse (S (tick w)) nftAddress) = true ->
   fst (getModelByNftAddressCached nftAddress w) = Ok None /\
   nftModelCache (snd (getModelByNftAddressCached nftAddress w)) !! nftAddress =
     Some {| ModelEntry.at' := clock (tick w); ModelEntry.model := None |}) /\
  (forall extracted,
     extractFromNftItem (json_or_null (nftItemResponse (S (tick w)) nftAddress))
       = Ok extracted ->
     fst (getModelByNftAddressCached nftAddress w) = Ok (e_model extracted) /\
     nftModelCache (snd (getModelByNftAddressCached nftAddress w)) !! nftAddress =
       Some {| ModelEntry.at' := clock (tick w);
               ModelEntry.model := e_model extracted |}) /\
  (forall extracted,
     extractFromNftItem (json_or_null (nftItemResponse (S (tick w)) nftAddress))
       = Ok extracted ->
     e_model extracted = None ->
     fst (getModelByNftAddressCached nftAddress w) = Ok None /\
     nftModelCache (snd (getModelByNftAddressCached nftAddress w)) !! nftAddress =
       Some {| ModelEntry.at' := clock (tick w); ModelEntry.model := None |}).
Proof.
  intros Hmiss.
  assert (Hstored : forall extracted,
             extractFromNftItem (json_or_null (nftItemResponse (S (tick w)) nftAddress))
               = Ok extracted ->
             fst (getModelByNftAddressCached nftAddress w) = Ok (e_model extracted) /\
             nftModelCache (snd (getModelByNftAddressCached nftAddress w)) !! nftAddress =
               Some {| ModelEntry.at' := clock (tick w);
                       ModelEntry.model := e_model extracted |}).
  { intros extracted Hex. rewrite (getModel_miss nftAddress w extracted Hmiss Hex).
    cbn [fst snd nftModelCache]. split; [reflexivity|]. apply lookup_insert_eq. }
  split; [|split].
  - intros Hfail. apply (Hstored nothing).
    rewrite (json_or_null_failed _ Hfail). apply extractFromNftItem_null.
  - exact Hstored.
  - intros extracted Hex Hnone. rewrite <- Hnone. apply Hstored, Hex.
Qed.

End WithEnvironment.

(** C3, as stated, fails: with every request failing, a lookup on an empty
    cache leaves a negative entry behind. *)
Lemma failed_lookup_populates_cache :
  nftModelCache SampleWorld.empty_world !! "EQA1" = None /\
  nftModelCache
    (snd (@getModelByNftAddressCached Sample.builtins SampleWorld.offline "EQA1"
            SampleWorld.empty_world)) !! "EQA1"
  = Some {| ModelEntry.at' := 1000; ModelEntry.model := None |}.
Proof. split; vm_compute; reflexivity. Qed.

Lemma failed_lookup_is_cached_witness :
  fst (@getModelByNftAddressCached Sample.builtins SampleWorld.nameless "EQA1"
         SampleWorld.empty_world) = Ok None /\
  nftModelCache
    (snd (@getModelByNftAddressCached Sample.builtins SampleWorld.nameless "EQA1"
            SampleWorld.empty_world)) !! "EQA1"
  = Some {| ModelEntry.at' := 1000; ModelEntry.model := None |}.
Proof.
  refine (proj2 (proj2 (@failed_lookup_is_cached Sample.builtins SampleWorld.nameless
                          "EQA1" SampleWorld.empty_world _))
            {| e_model := None; e_background := None; e_number := None;
               e_collectionAddress := Some "EQcollection"; e_imageUrl := None |} _ _).
  - vm_compute. reflexivity.
  - vm_compute. reflexivity.
  - reflexivity.
Defined.

(** *** Recent sales *)











Section WithEnvironment.
Context `{Builtins} `{Env} `{Config}.



Lemma getActionType_returns (action : value) :
  Js.truthy action = true -> returns (Extract.getActionType action).
Proof.
  intros Ht. unfold Extract.getActionType.
  rewrite !(ExtractFacts.get_truthy action _ Ht). simpl.
  destruct (Js.prop action "type"); auto;
    destruct (Js.prop action "action_type"); auto;
    destruct (Js.prop action "kind"); auto.
Qed.


Lemma fits_items (items : list value) :
  fits (VArr items) -> List.Forall fits items.
Proof.
  unfold fits. intros Hfit. apply List.Forall_forall. intros v Hin.
  apply ExtractFacts.frames_item in Hin. lia.
Qed.


Section Stated.
Context {L : BuiltinsLaws _}.







(** On a fresh entry the stored prices are returned and nothing is
    scanned. *)
Lemma getRecentSalesForModel_hit (model : string) (w : World) (cached : SalesEntry.t) :
  trim model <> "" ->
  recentSalesCache w !! toLowerCase (trim model) = Some cached ->
  fresh (clock (tick w)) (SalesEntry.at' cached) RECENT_SALES_CACHE_TTL_MS = true ->
  getRecentSalesForModel model w = (Ok (Some (SalesEntry.prices cached)), advance w).
Proof.
  intros Hm Hc Hf. unfold getRecentSalesForModel.
  apply String.eqb_neq in Hm. rewrite Hm.
  unfold bind, Date_now. cbn [advance recentSalesCache]. rewrite Hc, Hf.
  reflexivity.
Qed.


End Stated.

End WithEnvironment.

(** The scenario of the specification: five qualifying sales, of which
    the first three are returned. *)
Example five_sales_three_returned :
  fst (@qualifyingSales Sample.builtins SampleWorld.busy SampleWorld.two_markets
         "Plush Pepe" (advance SampleWorld.empty_world))
    = Ok (map JsNum.ofZ [5; 6; 7; 8; 9]) /\
  fst (@getRecentSalesForModel Sample.builtins SampleWorld.busy SampleWorld.two_markets
         " Plush Pepe " SampleWorld.empty_world)
    = Ok (Some (map JsNum.ofZ [5; 6; 7])).
Proof. split; vm_compute; reflexivity. Qed.



End EnrichmentFacts.

(** * Further properties *)

(** ** Arrays have no property with a word for a name *)

Module DigitsFacts.
Import Digits.

Lemma pretty_N_char_digit (x : N) : is_digit (pretty_N_char x) = true.
Proof.
  destruct x as [|p]; [reflexivity|].
  do 4 (destruct p as [p|p|]; try reflexivity).
Qed.

Lemma pretty_N_go_digit (x : N) (s : string) :
  starts_with_digit s = true -> starts_with_digit (pretty_N_go x s) = true.
Proof.
  revert s. induction (N.lt_wf_0 x) as [x _ IH]. intros s Hs.
  destruct (decide (0 < x)%N) as [Hx|Hx].
  - rewrite pretty_N_go_step by exact Hx. apply IH.
    + apply N.div_lt; lia.
    + simpl. apply pretty_N_char_digit.
  - assert (x = 0%N) as -> by lia. rewrite pretty_N_go_0. exact Hs.
Qed.

Lemma pretty_nat_digit (i : nat) : starts_with_digit (pretty i) = true.
Proof.
  change (pretty i) with (pretty (N.of_nat i)).
  generalize (N.of_nat i). intros x.
  change (pretty x) with (if decide (x = 0)%N then "0" else pretty_N_go x "").
  destruct (decide (x = 0)%N) as [->|Hne]; [reflexivity|].
  rewrite pretty_N_go_step by lia.
  apply pretty_N_go_digit. simpl. apply pretty_N_char_digit.
Qed.

(** An array answers [undefined] for a name that is neither [length]
    nor an index. *)
Lemma prop_array_word (items : list value) (k : string) :
  starts_with_digit k = false -> String.eqb k "length" = false ->
  Js.prop (VArr items) k = VUndefined.
Proof.
  intros Hk Hlen. cbn [Js.prop]. rewrite Hlen.
  destruct (Js.index_of_key (length items) k) as [i|] eqn:Ei; [|reflexivity].
  unfold Js.index_of_key in Ei. apply find_some in Ei as [_ Ei].
  apply String.eqb_eq in Ei. subst k.
  rewrite pretty_nat_digit in Hk. discriminate.
Qed.

End DigitsFacts.

(** ** Escaping *)

Module MarkdownMoreFacts.
Import Markdown MarkdownMore.

Lemma plain_url_not_backslash c :
  reservedUrl c = false -> Ascii.eqb c backslash = false.
Proof.
  intros Hc. destruct (Ascii.eqb c backslash) eqn:E; [|reflexivity].
  apply Ascii.eqb_eq in E. subst c. discriminate.
Qed.

(** X1. The output of [escapeMarkdownV2] is well escaped: it has no
    reserved character without a backslash before it and no backslash
    that does not escape a reserved character. *)
Theorem escapeMarkdownV2_well_escaped (s : string) :
  well_escaped (escapeMarkdownV2 s) = true.
Proof.
  induction s as [|c s IH]; [reflexivity|].
  cbn [escapeMarkdownV2]. destruct (reserved c) eqn:Hc.
  - cbn [well_escaped]. rewrite Ascii.eqb_refl, Hc, IH. reflexivity.
  - cbn [well_escaped].
    rewrite (MarkdownFacts.plain_not_backslash c Hc), Hc, IH. reflexivity.
Qed.

(** X2. [escapeMarkdownV2Url] puts one backslash before each [)] and
    each backslash and changes nothing else: its output is well escaped
    for link targets, and stripping the escapes gives the URL back. *)
Theorem escapeMarkdownV2Url_round_trip (url : string) :
  well_escaped_url (escapeMarkdownV2Url url) = true /\
  stripUrl (escapeMarkdownV2Url url) = url.
Proof.
  induction url as [|c s [IH1 IH2]]; [split; reflexivity|].
  cbn [escapeMarkdownV2Url]. destruct (reservedUrl c) eqn:Hc.
  - cbn [well_escaped_url stripUrl].
    rewrite Ascii.eqb_refl, Hc, IH1, IH2. split; reflexivity.
  - cbn [well_escaped_url stripUrl].
    rewrite (plain_url_not_backslash c Hc), Hc, IH1, IH2. split; reflexivity.
Qed.

Lemma escape_app (s1 s2 : string) :
  escapeMarkdownV2 (s1 ++ s2) = (escapeMarkdownV2 s1 ++ escapeMarkdownV2 s2)%string.
Proof.
  induction s1 as [|c s1 IH]; [reflexivity|].
  simpl. destruct (reserved c); simpl; rewrite IH; reflexivity.
Qed.

(** X3. Escaping works piece by piece and loses nothing: the escape of a
    concatenation is the concatenation of the escapes, and two different
    texts never have the same escape. *)
Theorem escapeMarkdownV2_compositional (s1 s2 : string) :
  escapeMarkdownV2 (s1 ++ s2) = (escapeMarkdownV2 s1 ++ escapeMarkdownV2 s2)%string /\
  (escapeMarkdownV2 s1 = escapeMarkdownV2 s2 <-> s1 = s2).
Proof.
  split; [apply escape_app|]. split.
  - intros Heq.
    rewrite <- (MarkdownFacts.strip_escaped_form s1 _ (MarkdownFacts.escape_form s1)).
    rewrite <- (MarkdownFacts.strip_escaped_form s2 _ (MarkdownFacts.escape_form s2)).
    rewrite Heq. reflexivity.
  - intros ->. reflexivity.
Qed.

End MarkdownMoreFacts.

(** ** What the extractor finds is in the payload *)

Module ExtractSound.
Import Extract Occurs.

Section WithBuiltins.
Context `{Builtins}.

Lemma stringAtKeys_sound (props : list (string * value)) (keys : list string) (s : string) :
  stringAtKeys (VObj props) keys = Ok (Some s) ->
  exists k, In k keys /\ Js.assoc k props = Some (VStr s).
Proof.
  induction keys as [|key rest IH]; simpl; [discriminate|].
  destruct (Js.assoc key props) as [v|] eqn:Ek.
  - destruct v; try (intros Hr; destruct (IH Hr) as [k [Hk Ha]]; eauto; fail).
    intros [= <-]. eauto.
  - intros Hr. destruct (IH Hr) as [k [Hk Ha]]. eauto.
Qed.

Lemma numberAtKeys_sound (props : list (string * value)) (keys : list string) (r : number) :
  numberAtKeys (VObj props) keys = Ok (Some r) ->
  exists k v, In k keys /\ Js.assoc k props = Some v /\ toTon v = Ok (Some r).
Proof.
  induction keys as [|key rest IH]; simpl; [discriminate|].
  destruct (Js.assoc key props) as [v|] eqn:Ek.
  - destruct (toTon v) as [[t|]|e] eqn:Et; simpl.
    + intros [= <-]. exists key, v. auto.
    + intros Hr. destruct (IH Hr) as [k [v' [Hk Ha]]]. eauto 6.
    + discriminate.
  - intros Hr. destruct (IH Hr) as [k [v' [Hk Ha]]]. eauto 6.
Qed.

Lemma found_truthy_Some (o : option string) :
  found_truthy o = true -> exists a, o = Some a /\ a <> "".
Proof.
  destruct o as [a|]; simpl; [|discriminate].
  intros Ha. exists a. split; [reflexivity|].
  intros ->. discriminate.
Qed.

Lemma addressAtKeys_sound (props : list (string * value)) (keys : list string) (a : string) :
  addressAtKeys (VObj props) keys = Ok (Some a) ->
  exists k v, In k keys /\ Js.assoc k props = Some v /\
              extractAddressFromNode v = Ok (Some a).
Proof.
  induction keys as [|key rest IH]; simpl; [discriminate|].
  destruct (Js.assoc key props) as [v|] eqn:Ek.
  - destruct (extractAddressFromNode v) as [addr|e] eqn:Ea; simpl; [|discriminate].
    destruct (found_truthy addr) eqn:Ef.
    + intros [= ->]. exists key, v. auto.
    + intros Hr. destruct (IH Hr) as [k [v' [Hk Ha]]]. eauto 6.
  - intros Hr. destruct (IH Hr) as [k [v' [Hk Ha]]]. eauto 6.
Qed.

(** An address-like string: what [isTonAddress] accepts. *)
Lemma as_address_shape (v : value) (a : string) :
  as_address v = Some a -> isTonAddress (VStr a) = true.
Proof.
  destruct v as [| |b|x|s|items|props]; simpl; try discriminate.
  destruct (String.prefix "0:" s || String.prefix "-1:" s || String.prefix "EQ" s
            || String.prefix "UQ" s || String.prefix "kQ" s) eqn:E; [|discriminate].
  intros [= <-]. exact E.
Qed.

Lemma extractAddressFromNode_shape (node : value) (a : string) :
  extractAddressFromNode node = Ok (Some a) -> isTonAddress (VStr a) = true.
Proof.
  unfold extractAddressFromNode.
  destruct (Js.truthy node) eqn:Ht; cbn [negb]; [|discriminate].
  rewrite !(ExtractFacts.get_truthy node _ Ht).
  assert (forall v, Ok (as_address v) = Ok (Some a) -> isTonAddress (VStr a) = true)
    as Hshape.
  { intros v [= Ha]. exact (as_address_shape v a Ha). }
  destruct node as [| |b|x|s|items|props]; try discriminate;
    try apply Hshape;
    cbn [Js.is_object Js.typeof negb bindR]; try discriminate;
    repeat match goal with
           | |- context [if isTonAddress ?v then _ else _] =>
               destruct (isTonAddress v) eqn:?; try apply Hshape
           end;
    discriminate.
Qed.

(** The three searches, over arrays and over the values of objects. *)
Lemma findFirstStringByKeys_sound (keys : list string) (s : string) (stack : nat) :
  forall node,
    findFirstStringByKeys stack node keys = Ok (Some s) ->
    under (fun v => v = VStr s) keys node.
Proof.
  induction stack as [|room IH]; intros node.
  { destruct node; discriminate. }
  destruct node as [| |b|x|s0|items|props].
  - discriminate.
  - discriminate.
  - simpl. destruct b; discriminate.
  - simpl. destruct (JsNum.truthy x); discriminate.
  - simpl. destruct (String.eqb s0 ""); discriminate.
  - simpl. intros Hr.
    assert (exists v, In v items /\ under (fun v => v = VStr s) keys v) as [v [Hin Hu]].
    { induction items as [|v rest IHrest]; [discriminate|].
      destruct (findFirstStringByKeys room v keys) as [found|e] eqn:Ef; [|discriminate].
      simpl in Hr. destruct (found_truthy found) eqn:Et.
      - injection Hr as ->. exists v. split; [left; reflexivity|auto].
      - destruct (IHrest Hr) as [v' [Hin Hu]]. exists v'. split; [right|]; auto. }
    eapply under_item; eauto.
  - simpl. intros Hr.
    destruct (stringAtKeys (VObj props) keys) as [[d|]|e] eqn:Hd; try discriminate.
    + simpl in Hr. injection Hr as ->.
      destruct (stringAtKeys_sound props keys s Hd) as [k [Hk Ha]].
      eapply under_here; eauto.
    + simpl in Hr. clear Hd.
      assert (exists k v, In (k, v) props /\ under (fun v => v = VStr s) keys v)
        as [k [v [Hin Hu]]].
      { induction props as [|[k v] rest IHrest]; [discriminate|].
        destruct (findFirstStringByKeys room v keys) as [found|e] eqn:Ef; [|discriminate].
        simpl in Hr. destruct (found_truthy found) eqn:Et.
        - injection Hr as ->. exists k, v. split; [left; reflexivity|auto].
        - destruct (IHrest Hr) as [k' [v' [Hin Hu]]].
          exists k', v'. split; [right|]; auto. }
      eapply under_prop; eauto.
Qed.

Lemma findFirstNumberLike_sound (keys : list string) (r : number) (stack : nat) :
  forall node,
    findFirstNumberLike stack node keys = Ok (Some r) ->
    under (fun v => toTon v = Ok (Some r)) keys node.
Proof.
  induction stack as [|room IH]; intros node.
  { destruct node; discriminate. }
  destruct node as [| |b|x|s0|items|props].
  - discriminate.
  - discriminate.
  - simpl. destruct b; discriminate.
  - simpl. destruct (JsNum.truthy x); discriminate.
  - simpl. destruct (String.eqb s0 ""); discriminate.
  - simpl. intros Hr.
    assert (exists v, In v items /\ under (fun v => toTon v = Ok (Some r)) keys v)
      as [v [Hin Hu]].
    { induction items as [|v rest IHrest]; [discriminate|].
      destruct (findFirstNumberLike room v keys) as [[found|]|e] eqn:Ef; [| |discriminate].
      - simpl in Hr. injection Hr as ->. exists v. split; [left; reflexivity|auto].
      - simpl in Hr. destruct (IHrest Hr) as [v' [Hin Hu]].
        exists v'. split; [right|]; auto. }
    eapply under_item; eauto.
  - cbn [findFirstNumberLike Js.truthy negb Js.is_object Js.typeof]. intros Hr.
    destruct (numberAtKeys (VObj props) keys) as [[d|]|e] eqn:Hd; try discriminate.
    + cbn [bindR] in Hr. injection Hr as ->.
      destruct (numberAtKeys_sound props keys r Hd) as [k [v [Hk [Ha Ht]]]].
      eapply under_here; eauto.
    + cbn [bindR] in Hr. clear Hd.
      assert (exists k v, In (k, v) props /\
                          under (fun v => toTon v = Ok (Some r)) keys v)
        as [k [v [Hin Hu]]].
      { induction props as [|[k v] rest IHrest]; [discriminate|].
        destruct (findFirstNumberLike room v keys) as [[found|]|e] eqn:Ef;
          [| |discriminate].
        - cbn [bindR] in Hr. injection Hr as ->.
          exists k, v. split; [left; reflexivity|auto].
        - cbn [bindR] in Hr. destruct (IHrest Hr) as [k' [v' [Hin Hu]]].
          exists k', v'. split; [right|]; auto. }
      eapply under_prop; eauto.
Qed.

Lemma findFirstAddressByKeys_sound (keys : list string) (a : string) (stack : nat) :
  forall node,
    findFirstAddressByKeys stack node keys = Ok (Some a) ->
    under (fun v => extractAddressFromNode v = Ok (Some a)) keys node.
Proof.
  induction stack as [|room IH]; intros node.
  { destruct node; discriminate. }
  destruct node as [| |b|x|s0|items|props].
  - discriminate.
  - discriminate.
  - simpl. destruct b; discriminate.
  - simpl. destruct (JsNum.truthy x); discriminate.
  - simpl. destruct (String.eqb s0 ""); discriminate.
  - simpl. intros Hr.
    assert (exists v, In v items /\
                      under (fun v => extractAddressFromNode v = Ok (Some a)) keys v)
      as [v [Hin Hu]].
    { induction items as [|v rest IHrest]; [discriminate|].
      destruct (findFirstAddressByKeys room v keys) as [found|e] eqn:Ef; [|discriminate].
      simpl in Hr. destruct (found_truthy found) eqn:Et.
      - injection Hr as ->. exists v. split; [left; reflexivity|auto].
      - destruct (IHrest Hr) as [v' [Hin Hu]]. exists v'. split; [right|]; auto. }
    eapply under_item; eauto.
  - cbn [findFirstAddressByKeys Js.truthy negb Js.is_object Js.typeof]. intros Hr.
    destruct (addressAtKeys (VObj props) keys) as [[d|]|e] eqn:Hd; try discriminate.
    + cbn [bindR] in Hr. injection Hr as ->.
      destruct (addressAtKeys_sound props keys a Hd) as [k [v [Hk [Ha Ht]]]].
      eapply under_here; eauto.
    + cbn [bindR] in Hr. clear Hd.
      assert (exists k v, In (k, v) props /\
                under (fun v => extractAddressFromNode v = Ok (Some a)) keys v)
        as [k [v [Hin Hu]]].
      { induction props as [|[k v] rest IHrest]; [discriminate|].
        destruct (findFirstAddressByKeys room v keys) as [found|e] eqn:Ef;
          [|discriminate].
        cbn [bindR] in Hr. destruct (found_truthy found) eqn:Et.
        - injection Hr as ->. exists k, v. split; [left; reflexivity|auto].
        - destruct (IHrest Hr) as [k' [v' [Hin Hu]]].
          exists k', v'. split; [right|]; auto. }
      eapply under_prop; eauto.
Qed.

Lemma under_shape (P Q : value -> Prop) (keys : list string) (node : value) :
  (forall v, P v -> Q v) -> under P keys node -> under Q keys node.
Proof.
  intros HPQ. induction 1.
  - eapply under_here; eauto.
  - eapply under_item; eauto.
  - eapply under_prop; eauto.
Qed.

Lemma under_exists (P : value -> Prop) (keys : list string) (node : value) :
  under P keys node -> exists v, P v.
Proof. induction 1; eauto. Qed.

(** X4. A string found by [findFirstStringByKeys] is in the payload: it
    is the value of a property named by one of the keys, in the node
    itself or in something nested in it. *)
Theorem found_string_occurs
  (stack : nat) (node : value) (keys : list string) (s : string) :
  findFirstStringByKeys stack node keys = Ok (Some s) ->
  under (fun v => v = VStr s) keys node.
Proof. apply findFirstStringByKeys_sound. Qed.

(** X5. A number found by [findFirstNumberLike] is what [toTon] makes of
    the value of a property named by one of the keys, somewhere in the
    payload; it comes from a finite number. *)
Theorem found_number_occurs
  (stack : nat) (node : value) (keys : list string) (r : number) :
  findFirstNumberLike stack node keys = Ok (Some r) ->
  under (fun v => toTon v = Ok (Some r)) keys node /\
  exists x, JsNum.isFinite x = true /\ r = rescale x.
Proof.
  intros Hr. pose proof (findFirstNumberLike_sound keys r stack node Hr) as Hu.
  split; [exact Hu|].
  destruct (under_exists _ _ _ Hu) as [v Hv].
  apply (AmountFacts.toTon_result v r Hv).
Qed.

(** X6. An address found by [findFirstAddressByKeys] is address-shaped
    (it starts with [0:], [-1:], [EQ], [UQ] or [kQ], so it is not empty)
    and is read off the value of a property named by one of the keys,
    somewhere in the payload. *)
Theorem found_address_occurs
  (stack : nat) (node : value) (keys : list string) (a : string) :
  findFirstAddressByKeys stack node keys = Ok (Some a) ->
  isTonAddress (VStr a) = true /\ a <> "" /\
  under (fun v => extractAddressFromNode v = Ok (Some a)) keys node.
Proof.
  intros Hr. pose proof (findFirstAddressByKeys_sound keys a stack node Hr) as Hu.
  destruct (under_exists _ _ _ Hu) as [v Hv].
  pose proof (extractAddressFromNode_shape v a Hv) as Hshape.
  split; [exact Hshape|]. split; [|exact Hu].
  intros ->. discriminate.
Qed.

Lemma no_keys_none {A : Type} (r : result (option A)) :
  only_RangeError r -> (forall a, r <> Ok (Some a)) -> nothing_or_overflow r.
Proof.
  unfold nothing_or_overflow. destruct r as [[a|]|e]; simpl.
  - intros _ Hnone. exfalso. exact (Hnone a eq_refl).
  - auto.
  - intros ->. auto.
Qed.

(** X7. With no key to look for, the three searches find nothing: each
    answers [undefined], or throws [RangeError] when the stack runs out
    on the way, and answers [undefined] whenever the payload is nested
    within the room of the stack. *)
Theorem no_keys_nothing_found (stack : nat) (node : value) :
  (nothing_or_overflow (findFirstStringByKeys stack node []) /\
   nothing_or_overflow (findFirstNumberLike stack node []) /\
   nothing_or_overflow (findFirstAddressByKeys stack node [])) /\
  ((frames node <= stack)%nat ->
   findFirstStringByKeys stack node [] = Ok None /\
   findFirstNumberLike stack node [] = Ok None /\
   findFirstAddressByKeys stack node [] = Ok None).
Proof.
  assert (forall P, ~ under P [] node) as Hnone.
  { intros P Hu. induction Hu; auto. }
  assert (Hs : nothing_or_overflow (findFirstStringByKeys stack node [])).
  { apply no_keys_none; [apply ExtractFacts.findFirstStringByKeys_throws|].
    intros s Hr. eapply Hnone, findFirstStringByKeys_sound, Hr. }
  assert (Hn : nothing_or_overflow (findFirstNumberLike stack node [])).
  { apply no_keys_none; [apply ExtractFacts.findFirstNumberLike_throws|].
    intros r Hr. eapply Hnone, findFirstNumberLike_sound, Hr. }
  assert (Ha : nothing_or_overflow (findFirstAddressByKeys stack node [])).
  { apply no_keys_none; [apply ExtractFacts.findFirstAddressByKeys_throws|].
    intros a Hr. eapply Hnone, findFirstAddressByKeys_sound, Hr. }
  split; [auto|]. intros Hf.
  destruct (ExtractFacts.findFirstStringByKeys_returns [] stack node Hf) as [rs Hrs].
  destruct (ExtractFacts.findFirstNumberLike_returns [] stack node Hf) as [rn Hrn].
  destruct (ExtractFacts.findFirstAddressByKeys_returns [] stack node Hf) as [ra Hra].
  unfold nothing_or_overflow in *.
  rewrite Hrs in *. rewrite Hrn in *. rewrite Hra in *.
  destruct Hs as [Hs|Hs]; [|discriminate].
  destruct Hn as [Hn|Hn]; [|discriminate].
  destruct Ha as [Ha|Ha]; [|discriminate].
  auto.
Qed.

Lemma appends_each {X : Type} (step : X -> list string -> result (list string))
  (xs : list X) :
  (forall x, In x xs ->
     exists found : result (list string),
       forall out, step x out = bindR found (fun f => Ok (out ++ f))) ->
  exists found : result (list string),
    forall out,
      (fix each (l : list X) (out : list string) : result (list string) :=
         match l with
         | [] => Ok out
         | x :: rest => bindR (step x out) (fun out' => each rest out')
         end) xs out
      = bindR found (fun f => Ok (out ++ f)).
Proof.
  induction xs as [|x rest IHrest]; intros Hstep.
  - exists (Ok []). intros out. simpl. rewrite app_nil_r. reflexivity.
  - destruct (Hstep x (or_introl eq_refl)) as [f1 Hf1].
    destruct IHrest as [f2 Hf2]; [intros y Hy; apply Hstep; right; exact Hy|].
    exists (bindR f1 (fun a => bindR f2 (fun b => Ok (a ++ b)))).
    intros out. rewrite Hf1. destruct f1 as [a|e]; simpl; [|reflexivity].
    rewrite Hf2. destruct f2 as [b|e]; simpl; [|reflexivity].
    rewrite app_assoc. reflexivity.
Qed.

Lemma findAllStringsByKey_found (key : string) (stack : nat) :
  forall node,
    exists found : result (list string),
      forall out,
        findAllStringsByKey stack node key out = bindR found (fun f => Ok (out ++ f)).
Proof.
  assert (Hnone : forall r : list string -> result (list string),
             (forall out, r out = Ok out) ->
             exists found : result (list string),
               forall out, r out = bindR found (fun f => Ok (out ++ f))).
  { intros r Hr. exists (Ok []). intros out. simpl. rewrite app_nil_r. apply Hr. }
  induction stack as [|room IH]; intros node.
  { exists (Throw RangeError). intros out. destruct node; reflexivity. }
  destruct node as [| |b|x|s|items|props].
  - apply Hnone. reflexivity.
  - apply Hnone. reflexivity.
  - apply Hnone. intros out. simpl. destruct b; reflexivity.
  - apply Hnone. intros out. simpl. destruct (JsNum.truthy x); reflexivity.
  - apply Hnone. intros out. simpl. destruct (String.eqb s ""); reflexivity.
  - simpl.
    apply (appends_each (fun v out => findAllStringsByKey room v key out) items).
    intros v _. apply IH.
  - simpl.
    destruct (appends_each
                (fun (kv : string * value) out =>
                   findAllStringsByKey room (snd kv) key
                     (match snd kv with
                      | VStr s => if String.eqb (fst kv) key then out ++ [s] else out
                      | _ => out
                      end)) props) as [found Hfound].
    { intros [k v] _. destruct (IH v) as [f Hf]. cbn [fst snd].
      exists (bindR f (fun a =>
                Ok ((match v with
                     | VStr s => if String.eqb k key then [s] else []
                     | _ => []
                     end) ++ a))).
      intros out. rewrite Hf. destruct f as [a|e]; simpl; [|reflexivity].
      destruct v; try (simpl; reflexivity).
      destruct (String.eqb k key); simpl; rewrite <- ?app_assoc; reflexivity. }
    exists found. intros out. rewrite <- Hfound. clear.
    revert out. induction props as [|[k v] rest IHrest]; intros out; [reflexivity|].
    cbn [fst snd]. destruct (findAllStringsByKey room v key _); simpl; [|reflexivity].
    apply IHrest.
Qed.

(** X8. [findAllStringsByKey] only appends: what it adds to the output
    list, or that it throws, depends on the payload and the key alone;
    what was in the list stays in front, in order; and on a payload
    nested within the room of the stack it does return. *)
Theorem findAllStringsByKey_appends (stack : nat) (node : value) (key : string) :
  exists found : result (list string),
    (forall out,
       findAllStringsByKey stack node key out
       = match found with
         | Ok added => Ok (out ++ added)
         | Throw e => Throw e
         end) /\
    ((frames node <= stack)%nat -> returns found).
Proof.
  destruct (findAllStringsByKey_found key stack node) as [found Hfound].
  exists found. split.
  - intros out. rewrite Hfound. destruct found; reflexivity.
  - intros Hf.
    destruct (ExtractFacts.findAllStringsByKey_returns key stack node [] Hf) as [r Hr].
    rewrite Hfound in Hr. destruct found as [added|e]; [|discriminate].
    exists added. reflexivity.
Qed.

End WithBuiltins.

Lemma found_string_occurs_witness :
  under (fun v => v = VStr "sale") ["comment"] Payloads.transfer_action.
Proof.
  apply (found_string_occurs 8 Payloads.transfer_action ["comment"] "sale").
  vm_compute. reflexivity.
Defined.

Lemma found_number_occurs_witness :
  under (fun v => @toTon Sample.builtins v = Ok (Some (JsNum.ofZ 5)))
    ["price"; "amount"] Payloads.transfer_action /\
  exists x, JsNum.isFinite x = true /\ JsNum.ofZ 5 = rescale x.
Proof.
  apply (@found_number_occurs Sample.builtins 8 Payloads.transfer_action
           ["price"; "amount"] (JsNum.ofZ 5)).
  vm_compute. reflexivity.
Defined.

Lemma found_address_occurs_witness :
  isTonAddress (VStr "EQmarket1") = true /\ "EQmarket1" <> "" /\
  under (fun v => extractAddressFromNode v = Ok (Some "EQmarket1"))
    ["destination"; "recipient"; "to"; "receiver"] Payloads.transfer_action.
Proof.
  apply (found_address_occurs 8 Payloads.transfer_action
           ["destination"; "recipient"; "to"; "receiver"] "EQmarket1").
  vm_compute. reflexivity.
Defined.

End ExtractSound.

(** ** Enrichment, further *)

Module EnrichmentMore.
Import Enrichment.

Lemma NoDup_snoc {A : Type} (l : list A) (x : A) :
  List.NoDup l -> ~ In x l -> List.NoDup (l ++ [x]).
Proof.
  induction l as [|a l IH]; simpl; intros Hnd Hx.
  - constructor; [intros []|constructor].
  - inversion Hnd as [|? ? Ha Hl]; subst. constructor.
    + rewrite in_app_iff. simpl. intros [Hin|[->|[]]]; tauto.
    + apply IH; tauto.
Qed.

Lemma set_of_acc (xs acc : list string) :
  List.NoDup acc ->
  List.NoDup
    (fold_left (fun acc a => if existsb (String.eqb a) acc then acc else acc ++ [a])
       xs acc) /\
  forall a,
    In a (fold_left (fun acc a => if existsb (String.eqb a) acc then acc else acc ++ [a])
            xs acc) <-> In a acc \/ In a xs.
Proof.
  revert acc. induction xs as [|x xs IH]; intros acc Hnd; simpl.
  - split; [exact Hnd|]. intros a. tauto.
  - destruct (existsb (String.eqb x) acc) eqn:Ex.
    + destruct (IH acc Hnd) as [Hnd' Hin]. split; [exact Hnd'|].
      intros a. rewrite Hin. split; [tauto|].
      intros [Ha|[<-|Ha]]; auto.
      left. apply existsb_exists in Ex as [y [Hy Exy]].
      apply String.eqb_eq in Exy. subst y. exact Hy.
    + assert (List.NoDup (acc ++ [x])) as Hnd1.
      { apply NoDup_snoc; [exact Hnd|]. intros Hx.
        assert (existsb (String.eqb x) acc = true) as Hc.
        { apply existsb_exists. exists x. split; [exact Hx|apply String.eqb_refl]. }
        congruence. }
      destruct (IH (acc ++ [x]) Hnd1) as [Hnd' Hin]. split; [exact Hnd'|].
      intros a. rewrite Hin, in_app_iff. simpl. tauto.
Qed.

Section WithEnvironment.
Context `{Builtins} `{Env} `{Config}.

(** X9. The markets scanned are the watched accounts that are not empty
    and are not the gift collection itself, each once. *)
Theorem getMarketsSet_members :
  List.NoDup getMarketsSet /\
  forall a, In a getMarketsSet <->
            In a WATCH_ACCOUNTS /\ a <> "" /\ a <> GIFTS_COLLECTION.
Proof.
  unfold getMarketsSet, set_of.
  match goal with
  | |- context [fold_left ?f ?xs []] =>
      destruct (set_of_acc xs [] (List.NoDup_nil _)) as [Hnd Hin]
  end.
  split; [exact Hnd|]. intros a. rewrite Hin, filter_In. simpl.
  rewrite andb_true_iff, !negb_true_iff, !String.eqb_neq. tauto.
Qed.

Lemma attribute_keeps_model (acc : option string * option string) (a : value) :
  unset (fst acc) = false -> fst (attribute acc a) = fst acc.
Proof.
  intros Hset. unfold attribute.
  destruct (not_object a); [reflexivity|].
  destruct (Js.nullish_or _ _) as [| |b|x|tr|items|props]; try reflexivity.
  cbn [fst]. destruct (Js.nullish_or _ _); try reflexivity.
  rewrite Hset. reflexivity.
Qed.

Lemma attributes_keep_model (attrs : list value) (acc : option string * option string) :
  unset (fst acc) = false -> fst (fold_left attribute attrs acc) = fst acc.
Proof.
  revert acc. induction attrs as [|a rest IH]; intros acc Hset; simpl; [reflexivity|].
  rewrite IH; rewrite (attribute_keeps_model acc a Hset); auto.
Qed.

(** X10. The name in the metadata wins: when the item has a metadata
    object whose [name] is a non-empty string, that name is the model,
    whatever the attributes say. *)
Theorem metadata_name_is_model (nft : value) (name : string) (e : Extracted) :
  not_object nft = false ->
  not_object (Js.nullish_or (Js.prop nft "metadata") (Js.prop nft "content")) = false ->
  Js.prop (Js.nullish_or (Js.prop nft "metadata") (Js.prop nft "content")) "name"
    = VStr name ->
  name <> "" ->
  extractFromNftItem nft = Ok e ->
  e_model e = Some name.
Proof.
  intros Hobj Hmeta Hname Hne. unfold extractFromNftItem.
  rewrite Hobj, Hmeta, Hname.
  destruct (Extract.findFirstStringByKeys _ _) as [candidate|err]; [|discriminate].
  cbn [bindR]. intros [= <-]. cbn [e_model].
  assert (unset (Some name) = false) as Hset.
  { unfold unset. simpl. apply String.eqb_neq in Hne. rewrite Hne. reflexivity. }
  destruct (Js.prop _ "attributes"); try reflexivity.
  rewrite attributes_keep_model; [reflexivity|exact Hset].
Qed.

(** X11. On anything that is not an object -- the [null] of a failed
    lookup, a number, a string -- [extractFromNftItem] finds nothing. On
    an item nested within the room of the stack it returns, and on no
    payload does it throw anything but the [RangeError] of a stack that
    ran out. *)
Theorem extractFromNftItem_total (nft : value) :
  Extract.only_RangeError (extractFromNftItem nft) /\
  (fits nft -> returns (extractFromNftItem nft)) /\
  (not_object nft = true -> extractFromNftItem nft = Ok nothing).
Proof.
  split; [apply EnrichmentFacts.extractFromNftItem_throws|].
  split; [apply EnrichmentFacts.extractFromNftItem_returns|].
  intros Hno. unfold extractFromNftItem. rewrite Hno. reflexivity.
Qed.

(** X12. A model looked up on a miss is served from the cache afterwards:
    when the lookup completed, then while the entry is younger than ten
    minutes the next call returns the same answer -- found model or none
    -- and makes no request. *)
Theorem getModel_read_your_write (nftAddress : string) (w : World) :
  model_miss w nftAddress (clock (tick w)) = true ->
  let r := fst (getModelByNftAddressCached nftAddress w) in
  let w1 := snd (getModelByNftAddressCached nftAddress w) in
  returns r ->
  fresh (clock (tick w1)) (clock (tick w)) NFT_MODEL_CACHE_TTL_MS = true ->
  getModelByNftAddressCached nftAddress w1 = (r, advance w1).
Proof.
  intros Hmiss.
  destruct (extractFromNftItem (json_or_null (nftItemResponse (S (tick w)) nftAddress)))
    as [e|err] eqn:Hex.
  - rewrite (EnrichmentFacts.getModel_miss nftAddress w e Hmiss Hex).
    cbn [fst snd]. intros _ Hfresh.
    apply (EnrichmentFacts.getModel_hit nftAddress _
             {| ModelEntry.at' := clock (tick w); ModelEntry.model := e_model e |}).
    + cbn [nftModelCache]. apply lookup_insert_eq.
    + exact Hfresh.
  - rewrite (EnrichmentFacts.getModel_miss_throw nftAddress w err Hmiss Hex).
    cbn [fst snd]. intros [r Hr]. discriminate.
Qed.

End WithEnvironment.

Lemma metadata_name_is_model_witness :
  e_model {| e_model := Some "Plush Pepe #7"; e_background := Some "Red";
             e_number := None; e_collectionAddress := Some "EQcollection";
             e_imageUrl := Some "https://cloudflare-ipfs.com/ipfs/abc" |}
  = Some "Plush Pepe #7".
Proof.
  apply (@metadata_name_is_model Sample.builtins SampleWorld.busy Items.named_item
           "Plush Pepe #7").
  - reflexivity.
  - reflexivity.
  - reflexivity.
  - discriminate.
  - vm_compute. reflexivity.
Defined.

Lemma getModel_read_your_write_witness :
  @getModelByNftAddressCached Sample.builtins SampleWorld.busy "EQitem1"
    (snd (@getModelByNftAddressCached Sample.builtins SampleWorld.busy "EQitem1"
            SampleWorld.empty_world))
  = (fst (@getModelByNftAddressCached Sample.builtins SampleWorld.busy "EQitem1"
            SampleWorld.empty_world),
     advance (snd (@getModelByNftAddressCached Sample.builtins SampleWorld.busy "EQitem1"
                     SampleWorld.empty_world))).
Proof.
  apply (@getModel_read_your_write Sample.builtins SampleWorld.busy "EQitem1"
           SampleWorld.empty_world).
  - vm_compute. reflexivity.
  - exists (Some "Plush Pepe"). vm_compute. reflexivity.
  - vm_compute. reflexivity.
Defined.

Section SalesCache.
Context `{Builtins} `{Env} `{Config}.

(** A scan that completes has stored what it returns. *)
Lemma collectSales_shape (m : string) (now : Z) (w : World)
  (r : option (list number)) (w' : World) :
  collectSales m now w = (Ok r, w') ->
  exists out w_c,
    r = or_null out /\
    w' = {| tick := tick w_c;
            nftModelCache := nftModelCache w_c;
            recentSalesCache :=
              <[toLowerCase m := {| SalesEntry.at' := now; SalesEntry.prices := out |}]>
                (recentSalesCache w_c) |}.
Proof.
  unfold collectSales, bind.
  destruct (forCapped (marketBody m) getMarketsSet [] w) as [[prices|e] w_c];
    [|discriminate].
  intros [= <- <-]. eauto.
Qed.

(** X13. The sales found on a scan are served from the cache for the
    next three minutes without any request, when the scan completed --
    as a list even when the scan found none and itself answered
    [null]. *)
Theorem getRecentSales_read_your_write (model : string) (w : World) :
  trim model <> "" ->
  sales_miss w (trim model) (clock (tick w)) = true ->
  returns (fst (getRecentSalesForModel model w)) ->
  let w1 := snd (getRecentSalesForModel model w) in
  fresh (clock (tick w1)) (clock (tick w)) RECENT_SALES_CACHE_TTL_MS = true ->
  exists out,
    fst (getRecentSalesForModel model w) = Ok (or_null out) /\
    getRecentSalesForModel model w1 = (Ok (Some out), advance w1).
Proof.
  intros Hm Hmiss.
  assert (getRecentSalesForModel model w =
          collectSales (trim model) (clock (tick w)) (advance w)) as Hrun.
  { unfold getRecentSalesForModel.
    pose proof Hm as Hm'. apply String.eqb_neq in Hm'. rewrite Hm'.
    unfold bind, Date_now. unfold sales_miss in Hmiss.
    cbn [advance recentSalesCache].
    destruct (recentSalesCache w !! toLowerCase (trim model)) as [cached|];
      [|reflexivity].
    destruct (fresh _ _ _); [discriminate|reflexivity]. }
  rewrite Hrun.
  destruct (collectSales (trim model) (clock (tick w)) (advance w)) as [[r|e] w']
    eqn:Hcollect; cbn [fst snd]; [|intros [r Hr]; discriminate].
  destruct (collectSales_shape _ _ _ _ _ Hcollect) as [out [w_c [-> ->]]].
  intros _ Hfresh.
  exists out. split; [reflexivity|].
  apply (EnrichmentFacts.getRecentSalesForModel_hit model _
           {| SalesEntry.at' := clock (tick w); SalesEntry.prices := out |} Hm).
  - cbn [recentSalesCache]. apply lookup_insert_eq.
  - exact Hfresh.
Qed.

End SalesCache.

Lemma getRecentSales_read_your_write_witness :
  exists out,
    fst (@getRecentSalesForModel Sample.builtins SampleWorld.offline
           SampleWorld.two_markets "Plush Pepe" SampleWorld.empty_world)
      = Ok (or_null out) /\
    @getRecentSalesForModel Sample.builtins SampleWorld.offline
      SampleWorld.two_markets "Plush Pepe"
      (snd (@getRecentSalesForModel Sample.builtins SampleWorld.offline
              SampleWorld.two_markets "Plush Pepe" SampleWorld.empty_world))
    = (Ok (Some out),
       advance (snd (@getRecentSalesForModel Sample.builtins SampleWorld.offline
                       SampleWorld.two_markets "Plush Pepe" SampleWorld.empty_world))).
Proof.
  apply (@getRecentSales_read_your_write Sample.builtins SampleWorld.offline
           SampleWorld.two_markets "Plush Pepe" SampleWorld.empty_world).
  - vm_compute. discriminate.
  - vm_compute. reflexivity.
  - exists None. vm_compute. reflexivity.
  - vm_compute. reflexivity.
Defined.

(** With every request failing the scan answers [null] and the cache then
    answers with the empty list. *)
Example no_sales_null_then_empty :
  fst (@getRecentSalesForModel Sample.builtins SampleWorld.offline
         SampleWorld.two_markets "Plush Pepe" SampleWorld.empty_world) = Ok None /\
  fst (@getRecentSalesForModel Sample.builtins SampleWorld.offline
         SampleWorld.two_markets "Plush Pepe"
         (snd (@getRecentSalesForModel Sample.builtins SampleWorld.offline
                 SampleWorld.two_markets "Plush Pepe" SampleWorld.empty_world)))
  = Ok (Some []).
Proof. split; vm_compute; reflexivity. Qed.

End EnrichmentMore.

(** ** Parsing and enriching listings *)

Module ListingFacts.
Import Enrichment Pipeline Parsed.

#[local] Hint Resolve ExtractFacts.returns_Ok : core.

Section WithEnvironment.
Context `{Builtins} `{Env} `{Config} `{AlertConfig} `{Formatting} `{PipelineEnv}.

Lemma address_found_shape (node : value) (keys : list string) (a : string) :
  Extract.findFirstAddressByKeys stackRoom node keys = Ok (Some a) ->
  Extract.isTonAddress (VStr a) = true.
Proof.
  intros Hr.
  destruct (ExtractSound.under_exists _ _ _
              (ExtractSound.findFirstAddressByKeys_sound keys a stackRoom node Hr))
    as [v Hv].
  apply (ExtractSound.extractAddressFromNode_shape v a Hv).
Qed.

(** A listing that one turn of the loop pushes is a raw listing. *)
Lemma listingOfAction_raw (raw : value) (l : Listing) :
  listingOfAction raw = Ok (Some l) -> raw_listing l.
Proof.
  unfold listingOfAction, not_object.
  destruct (Js.truthy raw) eqn:Ht; simpl; [|discriminate].
  destruct (Js.is_object raw); simpl; [|discriminate].
  destruct (Extract.getActionType raw) as [ty|e]; cbn [bindR]; [|discriminate].
  destruct (negb (Js.includes _ "nft")); [discriminate|].
  destruct (Extract.findFirstAddressByKeys stackRoom raw destinationKeys)
    as [[dest|]|e] eqn:Hd; cbn [bindR]; try discriminate.
  destruct (String.eqb dest "" || negb (existsb (String.eqb dest) getMarketsSet))
    eqn:Hmarket; [discriminate|].
  apply orb_false_elim in Hmarket as [_ Hmarket].
  apply negb_false_iff in Hmarket.
  apply existsb_exists in Hmarket as [d' [Hin Heq]].
  apply String.eqb_eq in Heq. subst d'.
  destruct (Extract.findFirstAddressByKeys stackRoom raw nftKeys)
    as [[addr|]|e] eqn:Hn; cbn [bindR]; try discriminate.
  destruct (String.eqb addr ""); [discriminate|].
  destruct (Extract.findFirstNumberLike stackRoom raw priceKeys) as [price|e];
    cbn [bindR]; [|discriminate].
  intros [= <-]. exists dest. cbn.
  pose proof (address_found_shape raw destinationKeys dest Hd).
  pose proof (address_found_shape raw nftKeys addr Hn).
  repeat split; auto.
Qed.

(** One turn throws nothing but the [RangeError] of a search. *)
Lemma listingOfAction_throws (raw : value) :
  Extract.only_RangeError (listingOfAction raw).
Proof.
  unfold listingOfAction, not_object.
  destruct (Js.truthy raw) eqn:Ht; simpl; [|exact I].
  destruct (Js.is_object raw); simpl; [|exact I].
  destruct (EnrichmentFacts.getActionType_returns raw Ht) as [ty ->]. cbn [bindR].
  destruct (negb (Js.includes _ "nft")); [exact I|].
  pose proof (ExtractFacts.findFirstAddressByKeys_throws destinationKeys stackRoom raw)
    as Hd.
  destruct (Extract.findFirstAddressByKeys stackRoom raw destinationKeys)
    as [[dest|]|e]; cbn [bindR]; [|exact I|exact Hd].
  destruct (String.eqb dest "" || _); [exact I|].
  pose proof (ExtractFacts.findFirstAddressByKeys_throws nftKeys stackRoom raw) as Hn.
  destruct (Extract.findFirstAddressByKeys stackRoom raw nftKeys)
    as [[addr|]|e]; cbn [bindR]; [|exact I|exact Hn].
  destruct (String.eqb addr ""); [exact I|].
  pose proof (ExtractFacts.findFirstNumberLike_throws priceKeys stackRoom raw) as Hp.
  destruct (Extract.findFirstNumberLike stackRoom raw priceKeys) as [price|e];
    cbn [bindR]; [exact I|exact Hp].
Qed.

(** On an action within the room of the stack one turn returns. *)
Lemma listingOfAction_returns (raw : value) :
  fits raw -> returns (listingOfAction raw).
Proof.
  intros Hfit. unfold listingOfAction, not_object.
  destruct (Js.truthy raw) eqn:Ht; simpl; [|auto].
  destruct (Js.is_object raw); simpl; [|auto].
  destruct (EnrichmentFacts.getActionType_returns raw Ht) as [ty ->]. cbn [bindR].
  destruct (negb (Js.includes _ "nft")); [auto|].
  destruct (ExtractFacts.findFirstAddressByKeys_returns destinationKeys stackRoom raw Hfit)
    as [[dest|] ->]; cbn [bindR]; [|auto].
  destruct (String.eqb dest "" || _); [auto|].
  destruct (ExtractFacts.findFirstAddressByKeys_returns nftKeys stackRoom raw Hfit)
    as [[addr|] ->]; cbn [bindR]; [|auto].
  destruct (String.eqb addr ""); [auto|].
  destruct (ExtractFacts.findFirstNumberLike_returns priceKeys stackRoom raw Hfit)
    as [price ->].
  cbn [bindR]. auto.
Qed.

Lemma listingsOfActions_raw (actions : list value) :
  forall (out ls : list Listing),
    listingsOfActions actions out = Ok ls ->
    List.Forall raw_listing out ->
    List.Forall raw_listing ls /\ (length ls <= length out + length actions)%nat.
Proof.
  induction actions as [|raw rest IH]; intros out ls; simpl.
  - intros [= <-] Hout. split; [exact Hout|lia].
  - destruct (listingOfAction raw) as [r|e] eqn:Hr; cbn [bindR]; [|discriminate].
    intros Hls Hout. destruct r as [l|].
    + destruct (IH (out ++ [l]) ls Hls) as [Hall Hlen].
      { apply List.Forall_app. split; [exact Hout|].
        constructor; [exact (listingOfAction_raw raw l Hr)|constructor]. }
      split; [exact Hall|]. rewrite length_app in Hlen. simpl in Hlen. lia.
    + destruct (IH out ls Hls Hout) as [Hall Hlen]. split; [exact Hall|lia].
Qed.

Lemma listingsOfActions_throws (actions : list value) :
  forall out, Extract.only_RangeError (listingsOfActions actions out).
Proof.
  induction actions as [|raw rest IH]; intros out; simpl; [exact I|].
  pose proof (listingOfAction_throws raw) as Hraw.
  destruct (listingOfAction raw) as [r|e]; cbn [bindR]; [apply IH|exact Hraw].
Qed.

Lemma listingsOfActions_returns (actions : list value) :
  List.Forall fits actions ->
  forall out, returns (listingsOfActions actions out).
Proof.
  induction 1 as [|raw rest Hraw _ IH]; intros out; simpl; [auto|].
  destruct (listingOfAction_returns raw Hraw) as [r ->]. cbn [bindR]. apply IH.
Qed.

(** X14. Every listing [parseListingsFromEventActions] returns was sent
    to one of the scanned markets and carries that market's label, its
    NFT and market identifiers are address-shaped, and it has no
    metadata yet; there are at most as many as actions, and an event that
    is not an object or has no [actions] array gives none. On an event
    nested within the room of the stack it returns, and it never throws
    anything but the [RangeError] of a stack that ran out. *)
Theorem parseListings_raw (event : value) :
  (forall ls,
     parseListingsFromEventActions event = Ok ls ->
     List.Forall raw_listing ls /\
     match event with
     | VObj props =>
         match Js.prop event "actions" with
         | VArr actions => (length ls <= length actions)%nat
         | _ => ls = []
         end
     | _ => ls = []
     end) /\
  (not_object event = true -> parseListingsFromEventActions event = Ok []) /\
  (fits event -> returns (parseListingsFromEventActions event)) /\
  Extract.only_RangeError (parseListingsFromEventActions event).
Proof.
  assert (Hnone : forall ls : list Listing,
             Ok [] = Ok ls -> List.Forall raw_listing ls /\ ls = []).
  { intros ls [= <-]. split; [constructor|reflexivity]. }
  split; [|split; [|split]].
  - unfold parseListingsFromEventActions, not_object.
    destruct event as [| |b|x|s|items|props].
    + exact Hnone.
    + exact Hnone.
    + simpl. destruct b; exact Hnone.
    + simpl. destruct (JsNum.truthy x); exact Hnone.
    + simpl. destruct (String.eqb s ""); exact Hnone.
    + rewrite (DigitsFacts.prop_array_word items "actions" eq_refl eq_refl).
      exact Hnone.
    + cbn [Js.truthy Js.is_object Js.typeof negb orb].
      destruct (Js.prop (VObj props) "actions") as [| | | | |actions|];
        try exact Hnone.
      intros ls Hls.
      apply (listingsOfActions_raw actions [] ls Hls (List.Forall_nil _)).
  - intros Hno. unfold parseListingsFromEventActions. rewrite Hno. reflexivity.
  - intros Hfit. unfold parseListingsFromEventActions.
    destruct (not_object event); [auto|].
    pose proof (EnrichmentFacts.fits_prop event "actions" Hfit) as Hactions.
    destruct (Js.prop event "actions"); auto.
    apply listingsOfActions_returns, EnrichmentFacts.fits_items, Hactions.
  - unfold parseListingsFromEventActions.
    destruct (not_object event); [exact I|].
    destruct (Js.prop event "actions"); try exact I.
    apply listingsOfActions_throws.
Qed.

End WithEnvironment.
End ListingFacts.

(** ** The pipeline *)

Module PipelineFacts.
Import Enrichment Pipeline Frame.

Section WithEnvironment.
Context `{Builtins} `{Env} `{Config} `{AlertConfig} `{Formatting} `{PipelineEnv}.

Lemma enrichListing_run (l : Listing) (w : World) :
  enrichListing l w =
  (if negb (Js.truthy (json_or_null (nftItemResponse (tick w) (nftAddress l))))
   then Ok l
   else match extractFromNftItem (json_or_null (nftItemResponse (tick w) (nftAddress l)))
        with
        | Ok extra => Ok (merge l extra)
        | Throw e => Throw e
        end,
   advance w).
Proof.
  unfold enrichListing, bind, tonapiGetNftItemByAddress, ret, lift.
  destruct (negb (Js.truthy _)); [reflexivity|].
  destruct (extractFromNftItem _); reflexivity.
Qed.

Lemma enrichListing_throws (l : Listing) (w : World) :
  Extract.only_RangeError (fst (enrichListing l w)).
Proof.
  rewrite enrichListing_run. cbn [fst].
  destruct (negb (Js.truthy _)); [exact I|].
  pose proof (EnrichmentFacts.extractFromNftItem_throws
                (json_or_null (nftItemResponse (tick w) (nftAddress l)))) as Hthrow.
  destruct (extractFromNftItem _); [exact I|exact Hthrow].
Qed.

(** X15. [enrichListing] makes one request and touches no cache, and
    throws nothing but the [RangeError] of an item nested deeper than the
    stack has room for. When it returns, the address, price and market
    are the listing's; the listing is unchanged when the lookup gave
    nothing -- so when it failed -- and is otherwise merged with what the
    extraction made of the item, whose fields, empty ones too, replace
    the listing's. *)
Theorem enrichListing_keeps (l : Listing) (w : World) :
  snd (enrichListing l w) = advance w /\
  Extract.only_RangeError (fst (enrichListing l w)) /\
  (fits (json_or_null (nftItemResponse (tick w) (nftAddress l))) ->
   returns (fst (enrichListing l w))) /\
  (forall l',
     fst (enrichListing l w) = Ok l' ->
     nftAddress l' = nftAddress l /\ priceTon l' = priceTon l /\
     marketAccount l' = marketAccount l /\ marketLabel l' = marketLabel l /\
     (Js.truthy (json_or_null (nftItemResponse (tick w) (nftAddress l))) = false ->
      l' = l) /\
     (Js.truthy (json_or_null (nftItemResponse (tick w) (nftAddress l))) = true ->
      exists extra,
        extractFromNftItem (json_or_null (nftItemResponse (tick w) (nftAddress l)))
          = Ok extra /\
        l' = merge l extra /\
        (forall m, e_model extra = Some m -> model l' = Some m) /\
        (forall u, e_imageUrl extra = Some u -> imageUrl l' = Some u))) /\
  (lookup_failed (nftItemResponse (tick w) (nftAddress l)) = true ->
   enrichListing l w = (Ok l, advance w)).
Proof.
  split; [rewrite enrichListing_run; reflexivity|].
  split; [apply enrichListing_throws|].
  rewrite enrichListing_run. cbn [fst].
  split; [|split].
  - intros Hfit. destruct (negb (Js.truthy _)); [eexists; reflexivity|].
    destruct (EnrichmentFacts.extractFromNftItem_returns _ Hfit) as [extra ->].
    eexists; reflexivity.
  - intros l'. destruct (Js.truthy _) eqn:Ht; cbn [negb].
    + destruct (extractFromNftItem _) as [extra|e] eqn:Hex; [|discriminate].
      intros [= <-]. cbn [merge nftAddress priceTon marketAccount marketLabel].
      repeat split; try reflexivity; try discriminate.
      intros _. exists extra. repeat split.
      * intros m Hm. cbn [merge model]. rewrite Hm. reflexivity.
      * intros u Hu. cbn [merge imageUrl]. rewrite Hu. reflexivity.
    + intros [= <-]. repeat split; try reflexivity; discriminate.
  - intros Hfail. rewrite (EnrichmentFacts.json_or_null_failed _ Hfail).
    reflexivity.
Qed.

Lemma inWorld_frame {A : Type} (c : M A) (s : Scanner) :
  seen (snd (inWorld c s)) = seen s /\ sent (snd (inWorld c s)) = sent s /\
  reported (snd (inWorld c s)) = reported s.
Proof. unfold inWorld. destruct (c (world s)); simpl; auto. Qed.

Lemma sends_at_most_refl (s : Scanner) : sends_at_most 0 s s.
Proof. split; [reflexivity|]. exists []. rewrite app_nil_r. auto. Qed.

Lemma sends_at_most_same (n : nat) (s s' : Scanner) :
  seen s' = seen s -> sent s' = sent s -> sends_at_most n s s'.
Proof.
  intros Hseen Hsent. split; [exact Hseen|]. exists [].
  rewrite app_nil_r. split; [exact Hsent|simpl; lia].
Qed.

Lemma sends_at_most_trans (n m : nat) (s1 s2 s3 : Scanner) :
  sends_at_most n s1 s2 -> sends_at_most m s2 s3 -> sends_at_most (n + m) s1 s3.
Proof.
  intros [Hs1 [more1 [Ht1 Hl1]]] [Hs2 [more2 [Ht2 Hl2]]].
  split; [congruence|]. exists (more1 ++ more2).
  rewrite Ht2, Ht1, app_assoc, length_app. split; [reflexivity|lia].
Qed.

Lemma sendTelegramAlert_requests
  (net : Telegram.request -> Telegram.fetchOutcome) (opts : Telegram.AlertOpts) :
  (1 <= length (snd (Telegram.sendTelegramAlert net opts)) <= 2)%nat.
Proof.
  unfold Telegram.sendTelegramAlert, Telegram.sendText.
  destruct (Telegram.photoUrl opts) as [url|]; simpl; [|lia].
  destruct (String.eqb url ""); simpl; [lia|].
  destruct (Telegram.post _ _); simpl; lia.
Qed.

Lemma sendAlert_frame (opts : Telegram.AlertOpts) (s : Scanner) :
  sends_at_most 2 s (snd (sendAlert opts s)).
Proof.
  unfold sendAlert.
  pose proof (sendTelegramAlert_requests (telegramResponse (tick (world s))) opts) as Hn.
  destruct (Telegram.sendTelegramAlert _ opts) as [r requests]. cbn [snd] in *.
  split; [reflexivity|]. exists requests. cbn [sent]. split; [reflexivity|lia].
Qed.

Lemma backendGetFilters_frame (s : Scanner) :
  exists f, fst (backendGetFilters s) = Ok f /\
            seen (snd (backendGetFilters s)) = seen s /\
            sent (snd (backendGetFilters s)) = sent s.
Proof.
  unfold backendGetFilters.
  destruct (String.eqb BACKEND_URL ""); [unfold retS; simpl; eauto|].
  destruct (negb (filtersCacheAt s =? 0) && _); [simpl; eauto|].
  destruct (filtersResponse _) as [[[|] [f|]]|]; simpl; eauto.
Qed.

Lemma backendPostSeenModel_frame (m : string) (s : Scanner) :
  fst (backendPostSeenModel m s) = Ok tt /\
  seen (snd (backendPostSeenModel m s)) = seen s /\
  sent (snd (backendPostSeenModel m s)) = sent s.
Proof.
  unfold backendPostSeenModel.
  destruct (String.eqb BACKEND_URL ""); [unfold retS; simpl; auto|].
  destruct (String.eqb (trim m) ""); [unfold retS; simpl; auto|].
  simpl. auto.
Qed.

Lemma inWorld_enrich (raw : Listing) (s : Scanner) :
  inWorld (enrichListing raw) s
  = (fst (enrichListing raw (world s)), with_world s (advance (world s))).
Proof. unfold inWorld. rewrite enrichListing_run. reflexivity. Qed.

(** One turn of the loop: at most one alert, of at most two requests. *)
Lemma alertListing_frame (filters : option Filters) (raw : Listing) (s : Scanner) :
  sends_at_most 2 s (snd (alertListing filters raw s)).
Proof.
  unfold alertListing, bindS. rewrite inWorld_enrich.
  set (s1 := with_world s (advance (world s))).
  assert (seen s1 = seen s /\ sent s1 = sent s) as [Hseen1 Hsent1] by (split; reflexivity).
  destruct (fst (enrichListing raw (world s))) as [l|e];
    [|apply sends_at_most_same; assumption].
  destruct (negb (String.eqb GIFTS_COLLECTION "") && _ && _).
  { unfold retS. cbn [snd]. apply sends_at_most_same; assumption. }
  set (report := if truthy_str (model l) then _ else retS tt).
  assert (fst (report s1) = Ok tt /\ seen (snd (report s1)) = seen s1 /\
          sent (snd (report s1)) = sent s1) as [Hr [Hseen2 Hsent2]].
  { unfold report. destruct (truthy_str (model l));
      [apply backendPostSeenModel_frame|unfold retS; simpl; auto]. }
  destruct (report s1) as [r s2]. cbn [fst snd] in *. subst r.
  destruct (Matcher.matchesFilters l filters); cbn [negb].
  2: { unfold retS. cbn [snd]. apply sends_at_most_same; congruence. }
  set (sales := if truthy_str (model l) then _ else retS None).
  assert (seen (snd (sales s2)) = seen s2 /\ sent (snd (sales s2)) = sent s2)
    as [Hseen3 Hsent3].
  { unfold sales. destruct (truthy_str (model l)); [|unfold retS; simpl; auto].
    destruct (inWorld_frame (getRecentSalesForModel
                               (match model l with Some m => m | None => "" end)) s2)
      as [? [? ?]]. auto. }
  destruct (sales s2) as [[recent|e] s3]; cbn [fst snd] in *.
  - apply (sends_at_most_trans 0 2 s s3).
    + apply sends_at_most_same; congruence.
    + apply sendAlert_frame.
  - apply sends_at_most_same; congruence.
Qed.

(** A turn on a listing the filters reject sends nothing; it ends
    normally unless the enrichment threw. *)
Lemma alertListing_rejecting (filters : option Filters) (raw : Listing) (s : Scanner) :
  (forall l, Matcher.matchesFilters l filters = false) ->
  sent (snd (alertListing filters raw s)) = sent s /\
  (fst (alertListing filters raw s) = Ok tt \/
   fst (alertListing filters raw s) = Throw RangeError).
Proof.
  intros Hreject. unfold alertListing, bindS. rewrite inWorld_enrich.
  set (s1 := with_world s (advance (world s))).
  assert (sent s1 = sent s) as Hsent1 by reflexivity.
  pose proof (enrichListing_throws raw (world s)) as Hthrow.
  destruct (fst (enrichListing raw (world s))) as [l|e].
  2: { cbn [fst snd]. simpl in Hthrow. subst e. auto. }
  destruct (negb (String.eqb GIFTS_COLLECTION "") && _ && _).
  { unfold retS. cbn [fst snd]. auto. }
  set (report := if truthy_str (model l) then _ else retS tt).
  assert (fst (report s1) = Ok tt /\ seen (snd (report s1)) = seen s1 /\
          sent (snd (report s1)) = sent s1) as [Hr [_ Hsent2]].
  { unfold report. destruct (truthy_str (model l));
      [apply backendPostSeenModel_frame|unfold retS; simpl; auto]. }
  destruct (report s1) as [r s2]. cbn [fst snd] in *. subst r.
  rewrite (Hreject l). cbn [negb]. unfold retS. cbn [fst snd].
  split; [congruence|auto].
Qed.

Lemma alertListings_frame (filters : option Filters) (extracted : list Listing)
  (s : Scanner) :
  sends_at_most (2 * length extracted) s (snd (alertListings filters extracted s)).
Proof.
  revert s. induction extracted as [|raw rest IH]; intros s.
  - apply sends_at_most_refl.
  - cbn [alertListings]. unfold bindS.
    pose proof (alertListing_frame filters raw s) as Hstep.
    destruct (alertListing filters raw s) as [[u|e] s1]; cbn [snd] in *.
    + replace (2 * length (raw :: rest))%nat with (2 + 2 * length rest)%nat
        by (simpl; lia).
      eapply sends_at_most_trans; [exact Hstep|apply IH].
    + destruct Hstep as [Hseen [more [Hsent Hlen]]].
      split; [exact Hseen|]. exists more. split; [exact Hsent|simpl; lia].
Qed.

(** X16. The loop over the extracted listings sends at most one alert,
    of at most two Telegram requests, per listing -- also when a send
    throws and ends the loop -- and only ever appends to the log. *)
Theorem alerts_bounded (filters : option Filters) (extracted : list Listing)
  (s : Scanner) :
  exists more,
    sent (snd (alertListings filters extracted s)) = sent s ++ more /\
    (length more <= 2 * length extracted)%nat.
Proof.
  destruct (alertListings_frame filters extracted s) as [_ Hmore]. exact Hmore.
Qed.

Lemma alertListings_rejecting (filters : option Filters) (extracted : list Listing)
  (s : Scanner) :
  (forall l, Matcher.matchesFilters l filters = false) ->
  sent (snd (alertListings filters extracted s)) = sent s /\
  (fst (alertListings filters extracted s) = Ok tt \/
   fst (alertListings filters extracted s) = Throw RangeError).
Proof.
  intros Hreject. revert s. induction extracted as [|raw rest IH]; intros s.
  - split; [reflexivity|left; reflexivity].
  - cbn [alertListings]. unfold bindS.
    destruct (alertListing_rejecting filters raw s Hreject) as [Hsent Hr].
    destruct (alertListing filters raw s) as [[u|e] s1]; cbn [fst snd] in *.
    + destruct (IH s1) as [Hsent' Hr']. split; [congruence|exact Hr'].
    + split; [exact Hsent|]. destruct Hr as [Hr|Hr]; [discriminate|auto].
Qed.

(** X17. Filters on the [sale] or [rent] tab silence the scanner: the
    loop sends nothing for any listing. It ends normally, unless an item
    nested deeper than the stack has room for made the enrichment throw
    [RangeError]. *)
Theorem other_tab_no_alert (f : Filters) (extracted : list Listing) (s : Scanner) :
  tab f <> listing ->
  sent (snd (alertListings (Some f) extracted s)) = sent s /\
  (fst (alertListings (Some f) extracted s) = Ok tt \/
   fst (alertListings (Some f) extracted s) = Throw RangeError).
Proof.
  intros Htab. apply alertListings_rejecting. intros l.
  unfold Matcher.matchesFilters. destruct (tab f); [contradiction| |]; reflexivity.
Qed.

End WithEnvironment.

Lemma other_tab_no_alert_witness :
  sent (snd (@alertListings Sample.builtins SampleWorld.offline SampleWorld.two_markets
           SamplePipeline.config SamplePipeline.formatting SamplePipeline.services
               (Some SamplePipeline.on_sale_tab) [Items.bare_listing]
               SamplePipeline.start))
    = sent SamplePipeline.start /\
  (fst (@alertListings Sample.builtins SampleWorld.offline SampleWorld.two_markets
           SamplePipeline.config SamplePipeline.formatting SamplePipeline.services
          (Some SamplePipeline.on_sale_tab) [Items.bare_listing] SamplePipeline.start)
     = Ok tt \/
   fst (@alertListings Sample.builtins SampleWorld.offline SampleWorld.two_markets
           SamplePipeline.config SamplePipeline.formatting SamplePipeline.services
          (Some SamplePipeline.on_sale_tab) [Items.bare_listing] SamplePipeline.start)
     = Throw RangeError).
Proof.
  apply (@other_tab_no_alert Sample.builtins SampleWorld.offline SampleWorld.two_markets
           SamplePipeline.config SamplePipeline.formatting SamplePipeline.services
           SamplePipeline.on_sale_tab [Items.bare_listing] SamplePipeline.start).
  discriminate.
Defined.

End PipelineFacts.

(** ** One trace, start to end *)

Module TraceFacts.
Import Enrichment Pipeline Frame PipelineFacts.

Section WithEnvironment.
Context `{Builtins} `{Env} `{Config} `{AlertConfig} `{Formatting} `{PipelineEnv}.

Lemma handleTrace_frame (hash : string) (s : Scanner) :
  seen (snd (handleTrace hash s))
    = snd (Seen.dedupGate (clock (tick (world s))) hash (seen s)) /\
  exists more, sent (snd (handleTrace hash s)) = sent s ++ more.
Proof.
  unfold handleTrace.
  destruct (Seen.dedupGate (clock (tick (world s))) hash (seen s)) as [fresh seen1].
  cbn [snd].
  assert (Hstay : forall s' : Scanner,
             seen s' = seen1 -> sent s' = sent s ->
             seen s' = seen1 /\ exists more, sent s' = sent s ++ more).
  { intros s' Hseen Hsent. split; [exact Hseen|]. exists [].
    rewrite app_nil_r. exact Hsent. }
  destruct fresh; cbn [negb]; [|apply Hstay; reflexivity].
  set (s1 := set_seen (tickS s) seen1). unfold bindS.
  destruct (inWorld_frame (tonapiGetEvent hash) s1) as [Hseen [Hsent _]].
  change (seen s1) with seen1 in Hseen. change (sent s1) with (sent s) in Hsent.
  destruct (inWorld (tonapiGetEvent hash) s1) as [[event|e] s2]; cbn [snd] in *;
    [|apply Hstay; assumption].
  destruct (negb (Js.truthy event)); [apply Hstay; assumption|].
  unfold liftS.
  destruct (parseListingsFromEventActions event) as [[|l ls]|e];
    [apply Hstay; assumption| |apply Hstay; assumption].
  destruct (backendGetFilters_frame s2) as [f [Hf [Hseen3 Hsent3]]].
  destruct (backendGetFilters s2) as [r s3]. cbn [fst snd] in *. subst r.
  destruct (alertListings_frame f (l :: ls) s3) as [Hseen4 [more [Hsent4 _]]].
  split; [congruence|]. exists more. rewrite Hsent4. congruence.
Qed.

(** X18. [handleTrace] marks the hash before it fetches anything:
    whatever happens next -- the event is not found, it holds no listing,
    a send throws -- the hash is held afterwards, and the log of requests
    has only been appended to. *)
Theorem handleTrace_marks (hash : string) (s : Scanner) :
  Seen.has hash (seen (snd (handleTrace hash s))) = true /\
  exists more, sent (snd (handleTrace hash s)) = sent s ++ more.
Proof.
  destruct (handleTrace_frame hash s) as [Hseen Hsent]. split; [|exact Hsent].
  rewrite Hseen. unfold Seen.dedupGate.
  destruct (Seen.has hash (Seen.cleanupSeen _ (seen s))) eqn:Hheld; cbn [snd].
  - exact Hheld.
  - rewrite SeenFacts.has_set, String.eqb_refl. reflexivity.
Qed.

(** X19. A trace delivered again goes unnoticed: when the next sweep
    neither ages the hash out nor evicts it for capacity, the second run
    returns after reading the clock and sweeping the dedup map, without
    a request to TonAPI, the store or Telegram; the model, sales and
    filters caches are as they were, the dedup map is the swept one, and
    the hash stays held. *)
Theorem redelivery_is_silent (hash : string) (s : Scanner) :
  Seen.wf (seen s) ->
  let s1 := snd (handleTrace hash s) in
  let now := clock (tick (world s1)) in
  Seen.aged_out now hash (seen s1) = false ->
  Seen.capacity_evicted now hash (seen s1) = false ->
  exists s2,
    handleTrace hash s1 = (Ok tt, s2) /\ only_clock_read s1 s2 /\
    seen s2 = Seen.cleanupSeen now (seen s1) /\
    Seen.has hash (seen s2) = true.
Proof.
  intros Hwf s1 now Haged Hevicted.
  assert (Hheld : Seen.has hash (seen s1) = true).
  { destruct (handleTrace_frame hash s) as [Hseen _].
    subst s1. rewrite Hseen. unfold Seen.dedupGate.
    destruct (Seen.has hash (Seen.cleanupSeen _ (seen s))) eqn:Hh; cbn [snd].
    - exact Hh.
    - rewrite SeenFacts.has_set, String.eqb_refl. reflexivity. }
  assert (Hwf1 : Seen.wf (seen s1)).
  { destruct (handleTrace_frame hash s) as [Hseen _].
    subst s1. rewrite Hseen. apply SeenFacts.wf_dedupGate, Hwf. }
  assert (Hkept : Seen.has hash (Seen.cleanupSeen now (seen s1)) = true).
  { rewrite (SeenFacts.has_cleanupSeen now hash (seen s1) Hwf1).
    rewrite Hheld, Haged, Hevicted. reflexivity. }
  clearbody s1. subst now.
  exists (set_seen (tickS s1) (Seen.cleanupSeen (clock (tick (world s1))) (seen s1))).
  unfold handleTrace, Seen.dedupGate. rewrite Hkept. cbn [negb].
  split; [reflexivity|]. split; [repeat split|].
  split; [reflexivity|exact Hkept].
Qed.

Lemma backendGetFilters_hit (s : Scanner) :
  BACKEND_URL <> "" ->
  filtersCacheAt s <> 0 ->
  clock (tick (world s)) - filtersCacheAt s < FILTERS_CACHE_TTL_MS ->
  backendGetFilters s
  = (Ok (match filtersCache s with Some f => f | None => None end), tickS s).
Proof.
  intros Hurl Hat Hsoon. unfold backendGetFilters.
  destruct (String.eqb BACKEND_URL "") eqn:E;
    [apply String.eqb_eq in E; contradiction|].
  apply Z.eqb_neq in Hat. apply Z.ltb_lt in Hsoon. rewrite Hat, Hsoon. reflexivity.
Qed.

Lemma backendGetFilters_miss (s : Scanner) :
  BACKEND_URL <> "" ->
  filtersCacheAt s = 0 \/
    FILTERS_CACHE_TTL_MS <= clock (tick (world s)) - filtersCacheAt s ->
  exists f,
    fst (backendGetFilters s) = Ok f /\
    filtersCache (snd (backendGetFilters s)) = Some f /\
    filtersCacheAt (snd (backendGetFilters s)) = clock (tick (world s)).
Proof.
  intros Hurl Hstale. unfold backendGetFilters.
  destruct (String.eqb BACKEND_URL "") eqn:E;
    [apply String.eqb_eq in E; contradiction|].
  assert (Hmiss : negb (filtersCacheAt s =? 0) &&
                  (clock (tick (world s)) - filtersCacheAt s <? FILTERS_CACHE_TTL_MS)
                  = false).
  { destruct Hstale as [->|Hold]; [reflexivity|].
    apply andb_false_iff. right. apply Z.ltb_ge. exact Hold. }
  rewrite Hmiss.
  destruct (filtersResponse (tick (world (tickS s)))) as [[[|] [f|]]|];
    cbn [fst snd set_filters filtersCache filtersCacheAt]; eauto.
Qed.

(** X20. The filters cache gives back what it was filled with: after a
    call that asked the store, a call made less than a second later
    returns the same answer, and reads nothing but the clock. *)
Theorem filters_read_your_write (s : Scanner) :
  BACKEND_URL <> "" ->
  filtersCacheAt s = 0 \/
    FILTERS_CACHE_TTL_MS <= clock (tick (world s)) - filtersCacheAt s ->
  clock (tick (world s)) <> 0 ->
  let s1 := snd (backendGetFilters s) in
  clock (tick (world s1)) - clock (tick (world s)) < FILTERS_CACHE_TTL_MS ->
  exists s2,
    backendGetFilters s1 = (fst (backendGetFilters s), s2) /\
    only_clock_read s1 s2 /\ seen s2 = seen s1.
Proof.
  intros Hurl Hstale Hnow s1 Hsoon.
  destruct (backendGetFilters_miss s Hurl Hstale) as [f [Hf [Hcache Hat]]].
  fold s1 in Hcache, Hat. clearbody s1.
  exists (tickS s1). rewrite Hf.
  rewrite (backendGetFilters_hit s1 Hurl); [|congruence|rewrite Hat; exact Hsoon].
  rewrite Hcache. split; [reflexivity|]. repeat split.
Qed.

End WithEnvironment.

Lemma redelivery_is_silent_witness :
  exists s2,
    @handleTrace Sample.builtins SampleWorld.offline SampleWorld.two_markets
           SamplePipeline.config SamplePipeline.formatting SamplePipeline.services "h1"
      (snd (@handleTrace Sample.builtins SampleWorld.offline SampleWorld.two_markets
           SamplePipeline.config SamplePipeline.formatting SamplePipeline.services "h1" SamplePipeline.start))
    = (Ok tt, s2) /\
    only_clock_read
      (snd (@handleTrace Sample.builtins SampleWorld.offline SampleWorld.two_markets
           SamplePipeline.config SamplePipeline.formatting SamplePipeline.services "h1" SamplePipeline.start)) s2 /\
    seen s2
    = Seen.cleanupSeen
        (@clock SampleWorld.offline
           (tick (world (snd (@handleTrace Sample.builtins SampleWorld.offline SampleWorld.two_markets
           SamplePipeline.config SamplePipeline.formatting SamplePipeline.services "h1" SamplePipeline.start)))))
        (seen (snd (@handleTrace Sample.builtins SampleWorld.offline SampleWorld.two_markets
           SamplePipeline.config SamplePipeline.formatting SamplePipeline.services "h1" SamplePipeline.start))) /\
    Seen.has "h1" (seen s2) = true.
Proof.
  apply (@redelivery_is_silent Sample.builtins SampleWorld.offline SampleWorld.two_markets
           SamplePipeline.config SamplePipeline.formatting SamplePipeline.services "h1" SamplePipeline.start).
  - apply List.NoDup_nil.
  - vm_compute. reflexivity.
  - vm_compute. reflexivity.
Defined.

Lemma filters_read_your_write_witness :
  exists s2,
    @backendGetFilters SampleWorld.offline SamplePipeline.config SamplePipeline.services
      (snd (@backendGetFilters SampleWorld.offline SamplePipeline.config
              SamplePipeline.services SamplePipeline.start))
    = (fst (@backendGetFilters SampleWorld.offline SamplePipeline.config
              SamplePipeline.services SamplePipeline.start), s2) /\
    only_clock_read
      (snd (@backendGetFilters SampleWorld.offline SamplePipeline.config
              SamplePipeline.services SamplePipeline.start)) s2 /\
    seen s2
    = seen (snd (@backendGetFilters SampleWorld.offline SamplePipeline.config
                   SamplePipeline.services SamplePipeline.start)).
Proof.
  apply (@filters_read_your_write SampleWorld.offline SamplePipeline.config
           SamplePipeline.services SamplePipeline.start).
  - discriminate.
  - left. reflexivity.
  - vm_compute. discriminate.
  - vm_compute. reflexivity.
Defined.

End TraceFacts.

(** ** The store's other routes *)

Module StoreFacts.
Import Backend Store.

Section WithBuiltins.
Context `{Builtins} `{Collation}.

(** X21. What [PUT /api/filters] stored under a user key, [GET
    /api/filters] hands back under that key: an accepted request for the
    same key is answered with exactly the filters the [PUT] replied
    with. *)
Theorem put_then_get (put : PutRequest) (get : GetRequest)
  (filtersStore : FiltersStore) (userKey : string) (stored : Filters) :
  fst (putFilters put filtersStore) = Stored userKey stored ->
  (get_verified_ok get || get_tokenOk get) = true ->
  queryUserKey get = userKey ->
  getFilters get (snd (putFilters put filtersStore)) = Found userKey (Some stored).
Proof.
  unfold putFilters, getFilters. intros Hput Hauth Hkey.
  destruct (negb (verified_ok put) && negb (tokenOk put)); [discriminate|].
  cbn [fst snd] in *. injection Hput as Hk Hs.
  assert (Hin : negb (get_verified_ok get) && negb (get_tokenOk get) = false).
  { destruct (get_verified_ok get), (get_tokenOk get); simpl in *; congruence. }
  rewrite Hin, Hkey, <- Hk, BackendFacts.read_assign, Hs. reflexivity.
Qed.

Lemma set_add_spec (x : string) (set : list string) :
  List.NoDup set ->
  List.NoDup (set_add x set) /\ forall m, In m (set_add x set) <-> m = x \/ In m set.
Proof.
  intros Hnd. unfold set_add.
  destruct (existsb (String.eqb x) set) eqn:Ex.
  - split; [exact Hnd|]. intros m. split; [tauto|].
    intros [->|Hin]; [|exact Hin].
    apply existsb_exists in Ex. destruct Ex as [y [Hy Hxy]].
    apply String.eqb_eq in Hxy. subst y. exact Hy.
  - split.
    + apply EnrichmentMore.NoDup_snoc; [exact Hnd|].
      intros Hin. assert (existsb (String.eqb x) set = true) as Hex.
      { apply existsb_exists. exists x. split; [exact Hin|apply String.eqb_refl]. }
      congruence.
    + intros m. rewrite in_app_iff. simpl. intuition.
Qed.

(** X22. [POST /api/models/seen] with a model name that is not blank
    leaves the catalogue holding that name, trimmed, and every name it
    held before, nothing else, and each name once. *)
Theorem seen_model_catalogued
  (L : CollationLaws _) (BACKEND_TOKEN : string) (headers body : value)
  (models : list string) :
  requireToken BACKEND_TOKEN headers = true ->
  named_model body <> "" ->
  let after := snd (postModelSeen BACKEND_TOKEN headers body models) in
  In (named_model body) after /\
  (forall m, In m after <-> m = named_model body \/ In m models) /\
  List.NoDup after.
Proof.
  intros Htoken Hnamed after. subst after.
  unfold postModelSeen. rewrite Htoken. cbn [negb].
  fold (named_model body).
  destruct (String.eqb (named_model body) "") eqn:E;
    [apply String.eqb_eq in E; contradiction|].
  cbn [snd].
  destruct (EnrichmentMore.set_of_acc models [] (List.NoDup_nil _)) as [Hnd Hin].
  fold (Enrichment.set_of models) in Hnd, Hin.
  destruct (set_add_spec (named_model body) (Enrichment.set_of models) Hnd)
    as [Hnd' Hin'].
  pose proof (sortByLocale_perm (set_add (named_model body) (Enrichment.set_of models)))
    as Hperm.
  assert (Hmem : forall m,
             In m (sortByLocale (set_add (named_model body) (Enrichment.set_of models)))
             <-> m = named_model body \/ In m models).
  { intros m. split.
    - intros Hm. apply (Permutation_in _ Hperm) in Hm.
      apply Hin' in Hm. destruct Hm as [->|Hm]; [auto|].
      apply Hin in Hm. simpl in Hm. tauto.
    - intros Hm. apply (Permutation_in _ (Permutation_sym Hperm)).
      apply Hin'. destruct Hm as [->|Hm]; [auto|]. right. apply Hin. auto. }
  split; [apply Hmem; auto|]. split; [exact Hmem|].
  apply (Permutation_NoDup (Permutation_sym Hperm)). exact Hnd'.
Qed.

End WithBuiltins.

Lemma insert_sorted_perm (x : string) (l : list string) :
  Permutation (SampleStore.insert_sorted x l) (x :: l).
Proof.
  induction l as [|y l IH]; simpl; [reflexivity|].
  destruct (String.leb x y); [reflexivity|].
  rewrite IH. apply perm_swap.
Qed.

Lemma by_code_unit_laws : CollationLaws SampleStore.by_code_unit.
Proof.
  constructor. intros l. cbn [sortByLocale SampleStore.by_code_unit].
  induction l as [|x l IH]; simpl; [reflexivity|].
  rewrite insert_sorted_perm, IH. reflexivity.
Qed.

Lemma put_then_get_witness :
  @getFilters Sample.builtins SampleStore.get_default
    (snd (@putFilters Sample.builtins SampleStore.put_default
            {| own := {[ "default" := SamplePipeline.on_sale_tab ]}; proto := None |}))
  = Found "default"
      (Some {| tab := rent; minTon := JsNum.ofZ 2; maxTon := JsNum.ofZ 5000;
               models := [] |}).
Proof.
  apply (@put_then_get Sample.builtins SampleStore.put_default SampleStore.get_default
           {| own := {[ "default" := SamplePipeline.on_sale_tab ]}; proto := None |}
           "default").
  - vm_compute. reflexivity.
  - reflexivity.
  - vm_compute. reflexivity.
Defined.

Lemma seen_model_catalogued_witness :
  let after :=
    snd (@postModelSeen Sample.builtins SampleStore.by_code_unit "secret"
           (VObj [("authorization", VStr "Bearer secret")])
           (VObj [("model", VStr " Cozy ")]) ["Plush Pepe"; "Toy Bear"; "Plush Pepe"]) in
  In "Cozy" after /\
  (forall m, In m after <-> m = "Cozy" \/ In m ["Plush Pepe"; "Toy Bear"; "Plush Pepe"]) /\
  List.NoDup after.
Proof.
  apply (@seen_model_catalogued Sample.builtins SampleStore.by_code_unit
           by_code_unit_laws "secret"
           (VObj [("authorization", VStr "Bearer secret")])
           (VObj [("model", VStr " Cozy ")]) ["Plush Pepe"; "Toy Bear"; "Plush Pepe"]).
  - vm_compute. reflexivity.
  - vm_compute. discriminate.
Defined.

(** Under the user key [__proto__] the record becomes the prototype of
    the store, and the key reads it back all the same; afterwards the
    name [tab] reads a field of that record, which is no stored
    record. *)
Example put_then_get_under_proto :
  @getFilters Sample.builtins
    {| get_verified_ok := false; get_verified_userId := None; get_tokenOk := true;
       query := VObj [("userKey", VStr "__proto__")] |}
    (snd (@putFilters Sample.builtins
            {| verified_ok := false; verified_userId := None; tokenOk := true;
               body := VObj [("userKey", VStr "__proto__");
                             ("filters", VObj [("tab", VStr "rent")])] |}
            empty_store))
  = Found "__proto__"
      (Some {| tab := rent; minTon := JsNum.zero; maxTon := JsNum.ofZ 5000;
               models := [] |}) /\
  @getFilters Sample.builtins
    {| get_verified_ok := false; get_verified_userId := None; get_tokenOk := true;
       query := VObj [("userKey", VStr "tab")] |}
    (snd (@putFilters Sample.builtins
            {| verified_ok := false; verified_userId := None; tokenOk := true;
               body := VObj [("userKey", VStr "__proto__");
                             ("filters", VObj [("tab", VStr "rent")])] |}
            empty_store))
  = FoundInherited "tab"
      (Field "tab" {| tab := rent; minTon := JsNum.zero; maxTon := JsNum.ofZ 5000;
                      models := [] |}).
Proof. split; vm_compute; reflexivity. Qed.

End StoreFacts.
